(** * chroniax-ml: heart-rate calibration, shallow embedding

    The Python program calibrates a scan device against a reference device.
    This development embeds the numerical core:
    - [src/util/scanwatch_utils.py]: overlap resampler and context annotator,
    - [src/service/ml/*.py]: binned medians, model fitting, prediction,
      zone metrics and the contextual trainer.

    Conventions of the embedding.
    - Python floats are exact rationals [Q]; results are compared with [Qeq]
      (or after [Qred]); [nan] is outside the model, and so is rounding,
      except in [Binary64], which evaluates the isotonic predictor on IEEE
      doubles.
    - pandas [Timestamp]/[Timedelta] and numpy [datetime64] are integer
      nanosecond counts ([Z]); [total_seconds] divides by 10^9. A frequency
      string is given as its positive [Timedelta].
    - A DataFrame is the list of its rows, a numpy array a list; the columns
      [x] and [y] handed to the fitters have the same length.
    - A Python exception is a value of [exn]; fallible functions return
      [result A].
    - The calls into numpy, scikit-learn and scipy are embedded by the
      function they compute, each next to the call it stands for. *)

From Stdlib Require Import QArith Qabs Qminmax Lqa ZArith Lia.
From Stdlib Require SpecFloat.
From stdpp Require Import gmap strings list sorting.

Local Open Scope Q_scope.

(** ** Exceptions and results *)

Inductive exn : Type :=
| ValueError (msg : string)
| IndexError (msg : string)
| KeyError (key : string)
| RuntimeError (msg : string).

Definition result (A : Type) : Type := exn + A.

Definition ret {A} (a : A) : result A := inr a.
Definition raise {A} (e : exn) : result A := inl e.
Definition bind {A B} (r : result A) (k : A → result B) : result B :=
  match r with
  | inl e => inl e
  | inr a => k a
  end.

Notation "'let*' x ':=' r 'in' k" := (bind r (fun x => k))
  (at level 10, x pattern, r at level 100, k at level 200).

(** ** Rational helpers standing for float operations *)

Definition Qlt_bool (a b : Q) : bool := negb (Qle_bool b a).
Definition Qsum (l : list Q) : Q := foldr Qplus 0 l.

(** [Series.mean()] / [np.mean]: the sum over the length. *)
Definition mean (l : list Q) : Q := Qsum l / inject_Z (Z.of_nat (length l)).

(** ** dto/enums/hr_zones.py *)

Module HeartRateZone.
Definition VERY_LOW : string := "<60".
Definition LOW : string := "60-90".
Definition MODERATE : string := "90-120".
Definition HIGH : string := ">120".
End HeartRateZone.

(** ** service/ml/heart_rate_classifier.py *)

Module HeartRateZoneClassifier.
Definition classify (heart_rate : Q) : string :=
  if Qlt_bool heart_rate 60 then HeartRateZone.VERY_LOW
  else if Qlt_bool heart_rate 90 then HeartRateZone.LOW
  else if Qlt_bool heart_rate 120 then HeartRateZone.MODERATE
  else HeartRateZone.HIGH.
End HeartRateZoneClassifier.

(** ** Paired records (rows of the [pairs] DataFrame) *)

Record PairedRecord : Type := {
  window_utc : Z;
  t10_bpm : Q;
  t10_points : Z;
  scan_bpm : Q;
  scan_coverage_s : Q;
  sleep_status : Z;
  is_sport : bool;
}.

(** A row once the column [y_hat] has been assigned. *)
Record ScoredRecord : Type := {
  rec : PairedRecord;
  y_hat : Q;
}.

(** ** service/ml/metrics_calculator.py *)

Record MetricsRow : Type := {
  zone : string;
  n : nat;
  MAE : Q;
  bias : Q;
}.

(** [DataFrame.groupby(key)]: one group per distinct key that occurs, the
    groups in sorted key order, rows of a group in their original order. *)
Definition string_le (a b : string) : Prop := String.leb a b = true.
Global Instance string_le_dec a b : Decision (string_le a b).
Proof. unfold string_le. apply _. Defined.

Definition groupby {A} (key : A → string) (df : list A) : list (string * list A) :=
  let keys := merge_sort string_le (remove_dups (map key df)) in
  map (fun k => (k, filter (fun r => key r = k) df)) keys.

Module MetricsCalculator.
Record ErrRow : Type := {
  abs_err : Q;
  row_bias : Q;
  row_zone : string;
}.

Definition with_errors (r : ScoredRecord) : ErrRow :=
  {| abs_err := Qabs (t10_bpm (rec r) - y_hat r);
     row_bias := t10_bpm (rec r) - y_hat r;
     row_zone := HeartRateZoneClassifier.classify (scan_bpm (rec r)) |}.

Definition calculate_metrics (df : list ScoredRecord) : list MetricsRow :=
  let df_copy := map with_errors df in
  map (fun g : string * list ErrRow =>
         {| zone := g.1;
            n := length g.2;
            MAE := mean (map abs_err g.2);
            bias := mean (map row_bias g.2) |})
      (groupby row_zone df_copy).
End MetricsCalculator.

(** ** util/scanwatch_utils.py: overlap resampler *)

Local Open Scope Z_scope.

(** Nanoseconds per second: the resolution of [Timestamp] and [Timedelta]. *)
Definition NS_PER_S : Z := 1000000000.

(** [Timedelta(seconds=s)]. *)
Definition Timedelta_seconds (s : Z) : Z := s * NS_PER_S.

(** [Timedelta.total_seconds()]. *)
Definition total_seconds (td : Z) : Q := (inject_Z td / inject_Z NS_PER_S)%Q.

(** [Timestamp.floor(freq)], with [freq] given as its [Timedelta]. *)
Definition floor (ts freq : Z) : Z := freq * (ts / freq).

(** One row of the scan DataFrame: [start_utc], [durations], [values];
    [None] stands for a Python [None]. *)
Record ScanRow : Type := {
  start_utc : Z;
  durations : option (list (option Z));
  values : option (list Q);
}.

(** Value of [window_data[window_start]]. *)
Record WindowAcc : Type := {
  weighted_sum : Q;
  coverage : Q;
}.

(** The factory of the [defaultdict]. *)
Definition window_default : WindowAcc := {| weighted_sum := 0; coverage := 0 |}.

Record ResampledPoint : Type := {
  rp_window_utc : Z;
  rp_scan_bpm : option Q;          (* [None] is [np.nan] *)
  rp_scan_coverage_s : Q;
}.

Definition _create_empty_result : list ResampledPoint := [].

Definition _is_valid_row_data (durations : option (list (option Z)))
    (values : option (list Q)) : bool :=
  match durations, values with
  | Some ds, Some vs => bool_decide (length ds = length vs)
  | _, _ => false
  end.

Definition _is_valid_segment (duration : option Z) : bool :=
  match duration with
  | Some d => bool_decide (0 < d)
  | None => false
  end.

Definition _calculate_overlap_seconds (seg_start seg_end win_start win_end : Z) : Q :=
  let overlap_start := Z.max seg_start win_start in
  let overlap_end := Z.min seg_end win_end in
  let overlap_timedelta := overlap_end - overlap_start in
  Qmax 0 (total_seconds overlap_timedelta).

Definition _update_window_data (window_start : Z) (value overlap_seconds : Q)
    (window_data : gmap Z WindowAcc) : gmap Z WindowAcc :=
  let d := default window_default (window_data !! window_start) in
  <[window_start :=
      {| weighted_sum := (weighted_sum d + value * overlap_seconds)%Q;
         coverage := (coverage d + overlap_seconds)%Q |}]> window_data.

(** The [while current_window <= last_window] loop of [_process_segment];
    [fuel] bounds the number of iterations. *)
Fixpoint window_loop (fuel : nat) (current_window last_window : Z)
    (segment_start segment_end : Z) (value : Q) (step : Z)
    (window_data : gmap Z WindowAcc) : gmap Z WindowAcc :=
  match fuel with
  | O => window_data
  | S fuel' =>
      if bool_decide (current_window ≤ last_window) then
        let window_end := current_window + step in
        let overlap_seconds :=
          _calculate_overlap_seconds segment_start segment_end current_window window_end in
        let window_data' :=
          if Qlt_bool 0 overlap_seconds
          then _update_window_data current_window value overlap_seconds window_data
          else window_data in
        window_loop fuel' (current_window + step) last_window
                    segment_start segment_end value step window_data'
      else window_data
  end.

(** Iterations the loop performs from [window_start] to [last_window]. *)
Definition window_count (window_start last_window step : Z) : nat :=
  Z.to_nat ((last_window - window_start) / step + 1).

Definition _process_segment (segment_start segment_end : Z) (value : Q)
    (step : Z) (window_data : gmap Z WindowAcc) : gmap Z WindowAcc :=
  let window_start := floor segment_start step in
  let last_window := floor (segment_end - Timedelta_seconds 1) step in
  window_loop (window_count window_start last_window step)
              window_start last_window segment_start segment_end value step window_data.

(** The [for duration, value in zip(durations, values)] loop of [_process_row]. *)
Fixpoint segments_loop (current_time : Z) (dv : list (option Z * Q)) (step : Z)
    (window_data : gmap Z WindowAcc) : gmap Z WindowAcc :=
  match dv with
  | [] => window_data
  | (duration, value) :: rest =>
      if _is_valid_segment duration then
        let segment_start := current_time in
        let segment_end := segment_start + Timedelta_seconds (default 0 duration) in
        segments_loop segment_end rest step
          (_process_segment segment_start segment_end value step window_data)
      else segments_loop current_time rest step window_data
  end.

Definition _process_row (row : ScanRow) (step : Z)
    (window_data : gmap Z WindowAcc) : gmap Z WindowAcc :=
  if negb (_is_valid_row_data (durations row) (values row)) then window_data
  else
    segments_loop (start_utc row)
      (zip (default [] (durations row)) (default [] (values row))) step window_data.

(** [int(pd.to_timedelta(freq).total_seconds())]: truncation to whole seconds. *)
Definition freq_seconds (step : Z) : Z := Z.quot step NS_PER_S.

Definition _apply_coverage_filter (df : list ResampledPoint) (step : Z)
    (min_coverage_s : Z) : list ResampledPoint :=
  let min_coverage := Z.min min_coverage_s (freq_seconds step) in
  filter (fun p => Qle_bool (inject_Z min_coverage) (rp_scan_coverage_s p) = true) df.

Definition window_le (p q : ResampledPoint) : Prop := rp_window_utc p ≤ rp_window_utc q.
Global Instance window_le_dec p q : Decision (window_le p q).
Proof. unfold window_le. apply _. Defined.

(** Body of the [for window_start, data in window_data.items()] loop: the
    tuple appended to [rows]. *)
Definition result_row (item : Z * WindowAcc) : ResampledPoint :=
  let weighted_sum := weighted_sum item.2 in
  let coverage := coverage item.2 in
  let avg_value :=
    if Qlt_bool 0 coverage then Some (weighted_sum / coverage)%Q else None in
  {| rp_window_utc := item.1; rp_scan_bpm := avg_value; rp_scan_coverage_s := coverage |}.

Definition _build_result_dataframe (window_data : gmap Z WindowAcc) (step : Z)
    (min_coverage_s : Z) : list ResampledPoint :=
  let rows := map result_row (map_to_list window_data) in
  let result_df := merge_sort window_le rows in
  _apply_coverage_filter result_df step min_coverage_s.

(** Sum of the [coverage] entries of [window_data]. *)
Definition coverage_total (window_data : gmap Z WindowAcc) : Q :=
  Qsum (map (fun item : Z * WindowAcc => coverage item.2) (map_to_list window_data)).

(** The accumulation pass of [resample_scanwatch_by_overlap]. *)
Definition accumulate (df : list ScanRow) (step : Z) : gmap Z WindowAcc :=
  foldl (fun window_data row => _process_row row step window_data) ∅ df.

Definition resample_scanwatch_by_overlap (df : list ScanRow) (min_coverage_s : Z)
    (step : Z) : list ResampledPoint :=
  match df with
  | [] => _create_empty_result
  | _ =>
      let window_data := accumulate df step in
      if bool_decide (window_data = ∅) then _create_empty_result
      else _build_result_dataframe window_data step min_coverage_s
  end.

(** ** util/scanwatch_utils.py: context annotator *)

Record SleepInterval : Type := {
  sleep_start_utc : Z;
  sleep_end_utc : Z;
  status : Z;
}.

Record SportInterval : Type := {
  sport_start_utc : Z;
  sport_end_utc : Z;
}.

Definition _calculate_time_overlap (start1 end1 start2 end2 : Z) : Z :=
  if bool_decide (start2 >= end1) || bool_decide (end2 ≤ start1) then 0
  else
    let overlap_start := Z.max start1 start2 in
    let overlap_end := Z.min end1 end2 in
    overlap_end - overlap_start.

Definition _has_overlap (start1 end1 start2 end2 : Z) : bool :=
  bool_decide (start2 < end1) && bool_decide (end2 > start1).

(** Body of the inner [for ... in zip(sleep_starts, sleep_ends, sleep_statuses)]
    loop; the state is [(best_status, max_overlap)]. *)
Definition sleep_step (window_start window_end : Z) (st : Z * Z)
    (iv : SleepInterval) : Z * Z :=
  let '(best_status, max_overlap) := st in
  let overlap :=
    _calculate_time_overlap window_start window_end
                            (sleep_start_utc iv) (sleep_end_utc iv) in
  if bool_decide (overlap > max_overlap) then (status iv, overlap)
  else (best_status, max_overlap).

(** One iteration of the outer loop: the value stored in [sleep_status[i]]. *)
Definition window_sleep_status (window_start window_end : Z)
    (df_sleep : list SleepInterval) : Z :=
  (foldl (sleep_step window_start window_end) (0, 0) df_sleep).1.

Definition _calculate_sleep_status (window_starts window_ends : list Z)
    (df_sleep : list SleepInterval) : list Z :=
  match df_sleep with
  | [] => map (fun _ => 0) window_starts
  | _ =>
      map (fun w : Z * Z => window_sleep_status w.1 w.2 df_sleep)
          (zip window_starts window_ends)
  end.

Definition _calculate_sport_flags (window_starts window_ends : list Z)
    (df_sport : list SportInterval) : list bool :=
  match df_sport with
  | [] => map (fun _ => false) window_starts
  | _ =>
      map (fun w : Z * Z =>
             existsb (fun sp => _has_overlap w.1 w.2 (sport_start_utc sp) (sport_end_utc sp))
                     df_sport)
          (zip window_starts window_ends)
  end.

(** A joined and filtered row before annotation. *)
Record MinuteRow : Type := {
  m_window_utc : Z;
  m_t10_bpm : Q;
  m_t10_points : Z;
  m_scan_bpm : Q;
  m_scan_coverage_s : Q;
}.

Definition annotate_row (r : MinuteRow) (sleep : Z) (sport : bool) : PairedRecord :=
  {| window_utc := m_window_utc r; t10_bpm := m_t10_bpm r;
     t10_points := m_t10_points r; scan_bpm := m_scan_bpm r;
     scan_coverage_s := m_scan_coverage_s r;
     sleep_status := sleep; is_sport := sport |}.

Definition annotate_context (min_df : list MinuteRow) (df_sleep : list SleepInterval)
    (df_sport : list SportInterval) (step : Z) : list PairedRecord :=
  match min_df with
  | [] => []
  | _ =>
      let window_starts := map m_window_utc min_df in
      let window_ends := map (fun r => m_window_utc r + step) min_df in
      let sleep_status := _calculate_sleep_status window_starts window_ends df_sleep in
      let is_sport := _calculate_sport_flags window_starts window_ends df_sport in
      zip_with (fun r (si : Z * bool) => annotate_row r si.1 si.2)
               min_df (zip sleep_status is_sport)
  end.

Local Close Scope Z_scope.

(** ** numpy operations used by the fitters

    Arrays are lists; each definition states the numpy call it stands for. *)

Global Instance Qle_decision (a b : Q) : Decision (a <= b).
Proof.
  destruct (Qlt_le_dec b a) as [H|H]; [right|left]; [|exact H].
  intros Hle. exact (Qlt_not_le _ _ H Hle).
Defined.

Definition fst_le {A} (p q : Q * A) : Prop := p.1 <= q.1.
Global Instance fst_le_dec {A} (p q : Q * A) : Decision (fst_le p q).
Proof. unfold fst_le. apply _. Defined.

(** [np.sort(a)]. *)
Definition np_sort (a : list Q) : list Q := merge_sort Qle a.

(** [np.median(a)] of a non-empty array: the middle element of the sorted
    array, or the mean of the two middle elements. *)
Definition np_median (a : list Q) : Q :=
  let s := np_sort a in
  let n := length s in
  if Nat.even n
  then (nth (n / 2 - 1) s 0 + nth (n / 2) s 0) / 2
  else nth (n / 2) s 0.

Fixpoint list_min (x0 : Q) (l : list Q) : Q :=
  match l with
  | [] => x0
  | x :: l' => list_min (Qmin x0 x) l'
  end.

Fixpoint list_max (x0 : Q) (l : list Q) : Q :=
  match l with
  | [] => x0
  | x :: l' => list_max (Qmax x0 x) l'
  end.

Definition zero_size_msg : string :=
  "zero-size array to reduction operation fmin which has no identity".

(** [np.nanmin(a)] and [np.nanmax(a)]; an empty array raises [ValueError]. *)
Definition np_nanmin (a : list Q) : result Q :=
  match a with
  | [] => raise (ValueError zero_size_msg)
  | x :: l => ret (list_min x l)
  end.

Definition np_nanmax (a : list Q) : result Q :=
  match a with
  | [] => raise (ValueError zero_size_msg)
  | x :: l => ret (list_max x l)
  end.

(** [np.linspace(start, stop, num_bins + 1)]: [start + i * step] for
    [i < num_bins], then [stop] itself. *)
Definition np_linspace (start stop : Q) (num_bins : nat) : list Q :=
  match num_bins with
  | O => [start]
  | _ =>
      let step := (stop - start) / inject_Z (Z.of_nat num_bins) in
      map (fun i : nat => start + inject_Z (Z.of_nat i) * step) (seq 0 num_bins) ++ [stop]
  end.

(** [np.searchsorted(a, v, side='right')] on a sorted array: the number of
    leading elements [<= v]. *)
Fixpoint searchsorted_right (a : list Q) (v : Q) : nat :=
  match a with
  | [] => O
  | b :: a' => if Qle_bool b v then S (searchsorted_right a' v) else O
  end.

Fixpoint is_non_decreasing (a : list Q) : bool :=
  match a with
  | x :: ((y :: _) as a') => Qle_bool x y && is_non_decreasing a'
  | _ => true
  end.

Fixpoint is_non_increasing (a : list Q) : bool :=
  match a with
  | x :: ((y :: _) as a') => Qle_bool y x && is_non_increasing a'
  | _ => true
  end.

(** [np.digitize(x, bins)] (right=False). *)
Definition np_digitize (x bins : list Q) : result (list nat) :=
  if is_non_decreasing bins then
    ret (map (searchsorted_right bins) x)
  else if is_non_increasing bins then
    ret (map (fun v => length bins - searchsorted_right (reverse bins) v)%nat x)
  else raise (ValueError "bins must be monotonically increasing or decreasing").

(** [a[mask]] for a boolean mask. *)
Fixpoint bool_index {A} (a : list A) (mask : list bool) : list A :=
  match a, mask with
  | v :: a', b :: mask' => if b then v :: bool_index a' mask' else bool_index a' mask'
  | _, _ => []
  end.

(** [np.argsort(a)]: indices that sort [a]; ties keep their input order
    (the order among equal [x] does not reach the fitted knots, which merge
    equal [x]). *)
Definition np_argsort (a : list Q) : list nat :=
  map snd (merge_sort fst_le (zip a (seq 0 (length a)))).

(** [a[idx]] for an index array that stays in range. *)
Definition take_indices (a : list Q) (idx : list nat) : list Q :=
  map (fun i => nth i a 0) idx.

(** The first element of each run of equal first components. *)
Fixpoint run_heads (prev : option Q) (l : list (Q * nat)) : list (Q * nat) :=
  match l with
  | [] => []
  | (v, i) :: l' =>
      let keep := match prev with
                  | Some p => negb (Qeq_bool p v)
                  | None => true
                  end in
      if keep then (v, i) :: run_heads (Some v) l' else run_heads (Some v) l'
  end.

(** [np.unique(a, return_index=True)]: the sorted distinct values, each with
    the index of its first occurrence. *)
Definition np_unique (a : list Q) : list (Q * nat) :=
  run_heads None (merge_sort fst_le (zip a (seq 0 (length a)))).

(** [np.clip(v, lo, hi)] is [minimum(maximum(v, lo), hi)]. *)
Definition np_clip (v lo hi : Q) : Q := Qmin (Qmax v lo) hi.

(** Linear interpolation right of the knot [(x0, y0)]. *)
Fixpoint interp_from (x x0 y0 : Q) (rest : list (Q * Q)) : Q :=
  match rest with
  | [] => y0
  | (x1, y1) :: rest' =>
      if Qlt_bool x x1 then (y1 - y0) / (x1 - x0) * (x - x0) + y0
      else interp_from x x1 y1 rest'
  end.

(** [np.interp(x, xp, fp)] for increasing [xp]: [fp[0]] left of the knots,
    [fp[-1]] right of them, the chord between the two enclosing knots inside. *)
Definition np_interp (x : Q) (xp fp : list Q) : result Q :=
  if negb (bool_decide (length xp = length fp)) then
    raise (ValueError "fp and xp are not of the same length.")
  else
    match zip xp fp with
    | [] => raise (ValueError "array of sample points is empty")
    | (x0, y0) :: rest => ret (if Qlt_bool x x0 then y0 else interp_from x x0 y0 rest)
    end.

(** ** sklearn.isotonic.IsotonicRegression(increasing=True, out_of_bounds='clip')

    [fit_transform(X, y)] sorts the samples by [X], merges samples of equal
    [X] into their mean with the multiplicity as weight, pools adjacent
    violators, and evaluates the piecewise-linear curve through the pooled
    values at every [X]. The library also drops interior knots whose value
    equals both neighbours before it interpolates; the curve is the same. *)

Module IsotonicRegression.

(** A block of pooled samples: weighted sum, weight, number of knots. *)
Record Block : Type := {
  b_wy : Q;
  b_w : Q;
  b_len : nat;
}.

Definition block_mean (b : Block) : Q := b_wy b / b_w b.

Definition pool (p b : Block) : Block :=
  {| b_wy := b_wy p + b_wy b; b_w := b_w p + b_w b; b_len := b_len p + b_len b |}.

(** Add a block on the right; while the block to its left is not strictly
    below it, pool the two. The stack holds the rightmost block first. *)
Fixpoint push_block (b : Block) (st : list Block) : list Block :=
  match st with
  | [] => [b]
  | p :: st' =>
      if Qlt_bool (block_mean p) (block_mean b) then b :: p :: st'
      else push_block (pool p b) st'
  end.

Definition expand (b : Block) : list Q := replicate (b_len b) (block_mean b).

(** [isotonic_regression(y, sample_weight=w)]: pool adjacent violators. *)
Definition isotonic_regression (yw : list (Q * Q)) : list Q :=
  let st :=
    foldl (fun st (p : Q * Q) =>
             push_block {| b_wy := p.2 * p.1; b_w := p.2; b_len := 1 |} st) [] yw in
  flat_map expand (reverse st).

(** [_make_unique]: runs of equal [X] in the sorted samples become one
    sample [(X, (sum of y, count))]. *)
Fixpoint make_unique (acc : option (Q * (Q * Q))) (l : list (Q * Q))
  : list (Q * (Q * Q)) :=
  match l with
  | [] => match acc with Some a => [a] | None => [] end
  | (x, y) :: l' =>
      match acc with
      | Some (cx, (sy, w)) =>
          if Qeq_bool cx x then make_unique (Some (cx, (sy + y, w + 1))) l'
          else (cx, (sy, w)) :: make_unique (Some (x, (y, 1))) l'
      | None => make_unique (Some (x, (y, 1))) l'
      end
  end.

(** The fitted knots [(X_thresholds_, y_thresholds_)] before trimming. *)
Definition fit (X y : list Q) : list Q * list Q :=
  let u := make_unique None (merge_sort fst_le (zip X y)) in
  let unique_X := map fst u in
  let unique_yw := map (fun a : Q * (Q * Q) => (a.2.1 / a.2.2, a.2.2)) u in
  (unique_X, isotonic_regression unique_yw).

Definition fit_transform (X y : list Q) : result (list Q) :=
  match X with
  | [] =>
      raise (ValueError
        "Found array with 0 sample(s) (shape=(0,)) while a minimum of 1 is required.")
  | x0 :: Xtl =>
      if negb (bool_decide (length X = length y)) then
        raise (ValueError "Found input variables with inconsistent numbers of samples")
      else
        let '(kx, ky) := fit X y in
        let X_min := list_min x0 Xtl in
        let X_max := list_max x0 Xtl in
        foldr (fun t acc =>
                 let* v := np_interp (np_clip t X_min X_max) kx ky in
                 let* vs := acc in
                 ret (v :: vs))
              (ret []) X
  end.

End IsotonicRegression.

(** ** scipy.interpolate.PchipInterpolator(x, y, extrapolate=True)

    Derivatives at the knots by the weighted harmonic mean of the adjacent
    slopes (zero where the slopes change sign), one-sided three-point
    estimates at both ends, then the cubic Hermite polynomial of each
    interval in powers of the distance to its left knot. *)

Module PchipInterpolator.

Definition sign (v : Q) : Z :=
  if Qlt_bool v 0 then (-1)%Z else if Qlt_bool 0 v then 1%Z else 0%Z.

Definition _edge_case (h0 h1 m0 m1 : Q) : Q :=
  let d := ((2 * h0 + h1) * m0 - h0 * m1) / (h0 + h1) in
  if negb (bool_decide (sign d = sign m0)) then 0
  else if negb (bool_decide (sign m0 = sign m1)) && Qlt_bool (3 * Qabs m0) (Qabs d)
       then 3 * m0
       else d.

(** [a[1:] - a[:-1]]. *)
Fixpoint diffs (a : list Q) : list Q :=
  match a with
  | u :: ((v :: _) as a') => (v - u) :: diffs a'
  | _ => []
  end.

Definition interior (h0 m0 h1 m1 : Q) : Q :=
  if negb (bool_decide (sign m1 = sign m0)) || Qeq_bool m1 0 || Qeq_bool m0 0 then 0
  else
    let w1 := 2 * h1 + h0 in
    let w2 := h1 + 2 * h0 in
    let whmean := (w1 / m0 + w2 / m1) / (w1 + w2) in
    1 / whmean.

(** [dk[1:-1]] from the lists of spacings and slopes. *)
Fixpoint interiors (hm : list (Q * Q)) : list Q :=
  match hm with
  | (h0, m0) :: (((h1, m1) :: _) as hm') => interior h0 m0 h1 m1 :: interiors hm'
  | _ => []
  end.

Definition _find_derivatives (x y : list Q) : list Q :=
  let hk := diffs x in
  let mk := zip_with Qdiv (diffs y) hk in
  match hk, mk with
  | [_], [m] => [m; m]
  | h0 :: h1 :: _, m0 :: m1 :: _ =>
      let rh := reverse hk in
      let rm := reverse mk in
      [_edge_case h0 h1 m0 m1]
        ++ interiors (zip hk mk)
        ++ [_edge_case (nth 0 rh 0) (nth 1 rh 0) (nth 0 rm 0) (nth 1 rm 0)]
  | _, _ => []
  end.

(** One polynomial piece: left knot and the coefficients [c0..c3]. *)
Record Piece : Type := {
  p_x : Q;
  c0 : Q; c1 : Q; c2 : Q; c3 : Q;
}.

(** The coefficients built by [CubicHermiteSpline]. *)
Fixpoint pieces (knots : list (Q * (Q * Q))) : list Piece :=
  match knots with
  | (xa, (ya, da)) :: (((xb, (yb, db)) :: _) as knots') =>
      let dx := xb - xa in
      let slope := (yb - ya) / dx in
      let t := (da + db - 2 * slope) / dx in
      {| p_x := xa; c0 := t / dx; c1 := (slope - da) / dx - t; c2 := da; c3 := ya |}
        :: pieces knots'
  | _ => []
  end.

Definition eval_piece (p : Piece) (x : Q) : Q :=
  let s := x - p_x p in
  c0 p * (s * s * s) + c1 p * (s * s) + c2 p * s + c3 p.

(** The piece whose interval holds [x]; the first and last pieces also
    serve the points outside the knots. *)
Fixpoint find_piece (p : Piece) (rest : list Piece) (x : Q) : Piece :=
  match rest with
  | [] => p
  | q :: rest' => if Qlt_bool x (p_x q) then p else find_piece q rest' x
  end.

Fixpoint strictly_increasing (a : list Q) : bool :=
  match a with
  | u :: ((v :: _) as a') => Qlt_bool u v && strictly_increasing a'
  | _ => true
  end.

(** Construction followed by one evaluation. *)
Definition interpolate (xk yk : list Q) (x : Q) : result Q :=
  if negb (bool_decide (length xk = length yk)) then
    raise (ValueError "x and y arrays must be equal in length along interpolation axis.")
  else if bool_decide (length xk < 2)%nat then
    raise (ValueError "`x` must contain at least 2 elements.")
  else if negb (strictly_increasing xk) then
    raise (ValueError "`x` must be strictly increasing sequence.")
  else
    match pieces (zip xk (zip yk (_find_derivatives xk yk))) with
    | [] => raise (ValueError "`x` must contain at least 2 elements.")
    | p :: rest => ret (eval_piece (find_piece p rest x) x)
    end.

End PchipInterpolator.

(** ** dto/model_meta.py *)

Record ModelMeta : Type := {
  kind : string;
  context : string;
  x_knots : list Q;
  y_knots : list Q;
  clip_lo : Q;
  clip_hi : Q;
}.

(** Modelled from the spec: [dto/enums/model_kind.py] is imported by the
    fitter, the predictor and the trainer but is not among the sources. The
    two values are the model-kind selectors [isotonic] and [pchip] that
    [main.py] accepts and [ModelMeta.kind] documents. *)
Module ModelKind.
Definition ISOTONIC : string := "isotonic".
Definition PCHIP : string := "pchip".
End ModelKind.

(** ** service/ml/binned_median_fitter.py *)

Module BinnedMedianFitter.

(** [mask = indices == bin_idx]. *)
Definition bin_mask (indices : list Z) (bin_idx : nat) : list bool :=
  map (fun i => bool_decide (i = Z.of_nat bin_idx)) indices.

(** The [for bin_idx in range(len(bins) - 1)] loop. *)
Fixpoint bins_loop (x y : list Q) (indices : list Z) (bin_idxs : list nat)
  : list Q * list Q :=
  match bin_idxs with
  | [] => ([], [])
  | bin_idx :: rest =>
      let mask := bin_mask indices bin_idx in
      let '(x_medians, y_medians) := bins_loop x y indices rest in
      if existsb id mask
      then (np_median (bool_index x mask) :: x_medians,
            np_median (bool_index y mask) :: y_medians)
      else (x_medians, y_medians)
  end.

(** [x] and [y] are columns of one DataFrame and have the same length. *)
Definition fit (x y bins : list Q) : result (list Q * list Q) :=
  let* d := np_digitize x bins in
  let indices := map (fun k : nat => (Z.of_nat k - 1)%Z) d in
  ret (bins_loop x y indices (seq 0 (length bins - 1))).

End BinnedMedianFitter.

(** ** service/ml/model_fitter.py *)

Module ModelFitter.

Definition DEFAULT_CLIP_RANGE : Q * Q := (35, 220).
Definition DEFAULT_NUM_BINS : nat := 15.
Definition MIN_POINTS_FOR_PCHIP : nat := 3.

Definition fit_isotonic (x y : list Q) (context : string) (clip_range : Q * Q)
  : result ModelMeta :=
  let sort_order := np_argsort x in
  let x_sorted := take_indices x sort_order in
  let y_sorted := take_indices y sort_order in
  let* y_fitted := IsotonicRegression.fit_transform x_sorted y_sorted in
  let u := np_unique x_sorted in
  let x_knots := map fst u in
  let unique_indices := map snd u in
  let y_knots := take_indices y_fitted unique_indices in
  ret {| kind := ModelKind.ISOTONIC;
         context := context;
         x_knots := x_knots;
         y_knots := y_knots;
         clip_lo := clip_range.1;
         clip_hi := clip_range.2 |}.

Definition fit_pchip_from_binned (x y : list Q) (context : string)
    (clip_range : Q * Q) (num_bins : nat) : result ModelMeta :=
  let* x_min := np_nanmin x in
  let* x_max := np_nanmax x in
  let bins := np_linspace x_min x_max num_bins in
  let* (binned_x, binned_y) := BinnedMedianFitter.fit x y bins in
  let unique_indices := map snd (np_unique binned_x) in
  let binned_x' := take_indices binned_x unique_indices in
  let binned_y' := take_indices binned_y unique_indices in
  if bool_decide (length binned_x' < MIN_POINTS_FOR_PCHIP)%nat then
    fit_isotonic x y context clip_range
  else
    ret {| kind := ModelKind.PCHIP;
           context := context;
           x_knots := binned_x';
           y_knots := binned_y';
           clip_lo := clip_range.1;
           clip_hi := clip_range.2 |}.

End ModelFitter.

(** ** service/ml/model_predictor.py *)

(** [mapM] over the elements of an input array. *)
Fixpoint traverse {A B} (f : A → result B) (l : list A) : result (list B) :=
  match l with
  | [] => ret []
  | a :: l' =>
      let* b := f a in
      let* bs := traverse f l' in
      ret (b :: bs)
  end.

Module ModelPredictor.

Definition apply_model (meta : ModelMeta) (x : list Q) : result (list Q) :=
  match x_knots meta with
  | [] => raise (IndexError "list index out of range")
  | k0 :: ktl =>
      let x_clipped := map (fun v => np_clip v k0 (List.last ktl k0)) x in
      if bool_decide (kind meta = ModelKind.ISOTONIC) then
        traverse (fun v => np_interp v (x_knots meta) (y_knots meta)) x_clipped
      else if bool_decide (kind meta = ModelKind.PCHIP) then
        let* y_predicted :=
          traverse (PchipInterpolator.interpolate (x_knots meta) (y_knots meta))
                   x_clipped in
        ret (map (fun v => np_clip v (clip_lo meta) (clip_hi meta)) y_predicted)
      else raise (ValueError ("Unknown model kind: " +:+ kind meta))
  end.

End ModelPredictor.

(** ** The isotonic predictor on IEEE doubles

    Where rounding decides a property, the isotonic branch of [apply_model]
    is evaluated as numpy evaluates it, in binary64: the operations are
    those of the IEEE 754 specification of the Standard Library at
    precision 53 and maximal exponent 1024, every one rounding to nearest,
    ties to even. *)

Module Binary64.

Definition float : Type := SpecFloat.spec_float.

(** The double [m * 2^e]. *)
Definition double (m : positive) (e : Z) : float := SpecFloat.S754_finite false m e.


Definition add : float → float → float := SpecFloat.SFadd 53 1024.
Definition sub : float → float → float := SpecFloat.SFsub 53 1024.
Definition mul : float → float → float := SpecFloat.SFmul 53 1024.
Definition div : float → float → float := SpecFloat.SFdiv 53 1024.
Definition ltb : float → float → bool := SpecFloat.SFltb.
Definition eqb : float → float → bool := SpecFloat.SFeqb.

(** [np.clip(v, lo, hi)] is [minimum(maximum(v, lo), hi)]. *)
Definition np_clip (v lo hi : float) : float :=
  let a := if ltb v lo then lo else v in
  if ltb hi a then hi else a.

(** Right of the knot [(x0, y0)]: numpy returns [fp[j]] when [x] is the
    knot [xp[j]] itself and [slope * (x - xp[j]) + fp[j]] otherwise. *)
Fixpoint interp_from (x x0 y0 : float) (rest : list (float * float)) : float :=
  match rest with
  | [] => y0
  | (x1, y1) :: rest' =>
      if ltb x x1 then
        if eqb x x0 then y0
        else add (mul (div (sub y1 y0) (sub x1 x0)) (sub x x0)) y0
      else interp_from x x1 y1 rest'
  end.

(** [np.interp(x, xp, fp)] for increasing [xp]. *)
Definition np_interp (x : float) (xp fp : list float) : result float :=
  if negb (bool_decide (length xp = length fp)) then
    raise (ValueError "fp and xp are not of the same length.")
  else
    match zip xp fp with
    | [] => raise (ValueError "array of sample points is empty")
    | (x0, y0) :: rest => ret (if ltb x x0 then y0 else interp_from x x0 y0 rest)
    end.


End Binary64.

(** ** service/ml/contextual_model_trainer.py *)

(** Values stored in the [results] dictionary. *)
Inductive ResultValue : Type :=
| RMetrics (rows : list MetricsRow)
| RCount (n : Z)
| RModel (meta : ModelMeta).

Module ContextualModelTrainer.

Definition MIN_SAMPLES_PER_CONTEXT : nat := 30.

(** The attributes set by [__init__]; the three services are stateless. *)
Record t : Type := {
  model_kind : string;
  min_scan_coverage_s : Z;
  local_tz : string;
}.

(** [__init__] with its defaults. *)
Definition init (model_kind : option string) (min_scan_coverage_s : option Z)
    (local_tz : option string) : t :=
  {| model_kind := default ModelKind.PCHIP model_kind;
     min_scan_coverage_s := default 30%Z min_scan_coverage_s;
     local_tz := default "Europe/Rome" local_tz |}.

Definition _split_by_context (df : list PairedRecord)
  : list PairedRecord * list PairedRecord :=
  let rest_data := filter (fun r => (sleep_status r > 0)%Z) df in
  let active_data :=
    filter (fun r => is_sport r = true ∨ sleep_status r = 0%Z) df in
  (rest_data, active_data).

(** Assignment of the column [y_hat]. *)
Definition set_y_hat (df : list PairedRecord) (y : list Q) : list ScoredRecord :=
  zip_with (fun r v => {| rec := r; y_hat := v |}) df y.

Definition _train_context_model (self : t) (context_data : list PairedRecord)
    (context_name : string) (results : gmap string ResultValue)
  : result (option ModelMeta * gmap string ResultValue) :=
  if bool_decide (length context_data < MIN_SAMPLES_PER_CONTEXT)%nat then
    ret (None, results)
  else
    let x_values := map scan_bpm context_data in
    let y_values := map t10_bpm context_data in
    let* model_meta :=
      if bool_decide (model_kind self = ModelKind.PCHIP) then
        ModelFitter.fit_pchip_from_binned x_values y_values context_name
          ModelFitter.DEFAULT_CLIP_RANGE ModelFitter.DEFAULT_NUM_BINS
      else if bool_decide (model_kind self = ModelKind.ISOTONIC) then
        ModelFitter.fit_isotonic x_values y_values context_name
          ModelFitter.DEFAULT_CLIP_RANGE
      else raise (ValueError ("Unknown model kind: " +:+ model_kind self)) in
    let* y_predicted := ModelPredictor.apply_model model_meta x_values in
    let context_data' := set_y_hat context_data y_predicted in
    let results1 :=
      <[context_name +:+ "_metrics" :=
          RMetrics (MetricsCalculator.calculate_metrics context_data')]> results in
    let results2 :=
      <[context_name +:+ "_n" := RCount (Z.of_nat (length context_data'))]> results1 in
    let results3 := <[context_name +:+ "_model" := RModel model_meta]> results2 in
    ret (Some model_meta, results3).

(** [float(self.predictor.apply_model(model, np.array([scan_bpm]))[0])]. *)
Definition predict_one (model : ModelMeta) (scan_bpm : Q) : result Q :=
  let* out := ModelPredictor.apply_model model [scan_bpm] in
  match out with
  | v :: _ => ret v
  | [] => raise (IndexError "index 0 is out of bounds for axis 0 with size 0")
  end.

(** [context_models[key]]. *)
Definition getitem (context_models : gmap string ModelMeta) (key : string)
  : result ModelMeta :=
  match context_models !! key with
  | Some m => ret m
  | None => raise (KeyError key)
  end.

(** [key in context_models]. *)
Definition contains (context_models : gmap string ModelMeta) (key : string) : bool :=
  bool_decide (is_Some (context_models !! key)).

(** The closure [predict_for_row] of [_apply_contextual_predictions]. *)
Definition predict_for_row (context_models : gmap string ModelMeta)
    (row : PairedRecord) : result Q :=
  let scan_bpm := scan_bpm row in
  if contains context_models "rest"
     && negb (bool_decide (sleep_status row = 0%Z))
     && bool_decide (sleep_status row > 0)%Z
  then
    let* m := getitem context_models "rest" in predict_one m scan_bpm
  else if contains context_models "active" then
    let* m := getitem context_models "active" in predict_one m scan_bpm
  else if contains context_models "rest" then
    let* m := getitem context_models "rest" in predict_one m scan_bpm
  else raise (ValueError "No suitable model available for prediction").

Definition _apply_global_fallback (self : t) (pairs : list PairedRecord)
    (results : gmap string ResultValue)
  : result (list ScoredRecord * gmap string ResultValue) :=
  let x_values := map scan_bpm pairs in
  let y_values := map t10_bpm pairs in
  let* global_model :=
    ModelFitter.fit_pchip_from_binned x_values y_values "global"
      ModelFitter.DEFAULT_CLIP_RANGE ModelFitter.DEFAULT_NUM_BINS in
  let* y_predicted := ModelPredictor.apply_model global_model x_values in
  let pairs' := set_y_hat pairs y_predicted in
  let results1 :=
    <["global_metrics" := RMetrics (MetricsCalculator.calculate_metrics pairs')]> results in
  let results2 := <["global_n" := RCount (Z.of_nat (length pairs'))]> results1 in
  let results3 := <["global_model" := RModel global_model]> results2 in
  ret (pairs', results3).

Definition _apply_contextual_predictions (self : t) (pairs : list PairedRecord)
    (context_models : gmap string ModelMeta) (results : gmap string ResultValue)
  : result (list ScoredRecord * gmap string ResultValue) :=
  if bool_decide (context_models = ∅) then
    _apply_global_fallback self pairs results
  else
    let* y := traverse (predict_for_row context_models) pairs in
    let pairs' := set_y_hat pairs y in
    let results1 :=
      <["all_metrics" := RMetrics (MetricsCalculator.calculate_metrics pairs')]> results in
    let results2 := <["all_n" := RCount (Z.of_nat (length pairs'))]> results1 in
    ret (pairs', results2).

Record ExportData : Type := {
  chosen_models : gmap string ModelMeta;
  metrics : gmap string ResultValue;
}.

Definition _prepare_export_data (context_models : gmap string ModelMeta)
    (results : gmap string ResultValue) : ExportData :=
  {| chosen_models := context_models; metrics := results |}.

(** [train_and_apply] from the paired dataset on: [pairs] is what
    [DataPairBuilder.build_pairs] returned. *)
Definition train_and_apply (self : t) (pairs : list PairedRecord)
  : result (list ScoredRecord * ExportData) :=
  match pairs with
  | [] => raise (RuntimeError "No paired minutes after filtering.")
  | _ =>
      let '(rest_data, active_data) := _split_by_context pairs in
      let results : gmap string ResultValue := ∅ in
      let context_models : gmap string ModelMeta := ∅ in
      let* (rest_model, results) :=
        _train_context_model self rest_data "rest" results in
      let context_models :=
        match rest_model with
        | Some m => <["rest" := m]> context_models
        | None => context_models
        end in
      let* (active_model, results) :=
        _train_context_model self active_data "active" results in
      let context_models :=
        match active_model with
        | Some m => <["active" := m]> context_models
        | None => context_models
        end in
      let* (pairs', results) :=
        _apply_contextual_predictions self pairs context_models results in
      ret (pairs', _prepare_export_data context_models results)
  end.

End ContextualModelTrainer.


(** ** Concrete inputs used by the examples *)

Module SelectionSample.

Definition line_model : ModelMeta :=
  {| kind := ModelKind.ISOTONIC; context := "active";
     x_knots := [40; 100]; y_knots := [45; 105];
     clip_lo := 35; clip_hi := 220 |}.

Definition active_only : gmap string ModelMeta := {["active" := line_model]}.

Definition asleep_row : PairedRecord :=
  {| window_utc := 0; t10_bpm := 58; t10_points := 4; scan_bpm := 61;
     scan_coverage_s := 60; sleep_status := 2; is_sport := false |}.

End SelectionSample.

Module FallbackSample.

(** A trainer configured for isotonic models. *)
Definition isotonic_trainer : ContextualModelTrainer.t :=
  ContextualModelTrainer.init (Some ModelKind.ISOTONIC) None None.

Definition awake_row : PairedRecord :=
  {| window_utc := 60000000000; t10_bpm := 72; t10_points := 3; scan_bpm := 70;
     scan_coverage_s := 60; sleep_status := 0; is_sport := false |}.

Definition two_pairs : list PairedRecord := [SelectionSample.asleep_row; awake_row].

End FallbackSample.

Module SleepSample.

(** A one-minute bin and two sleep intervals that overlap it by 5 s and
    by 10 s. *)
Definition bin_start : Z := 0.
Definition bin_end : Z := 60000000000.
Definition light : SleepInterval :=
  {| sleep_start_utc := -100000000000; sleep_end_utc := 5000000000; status := 1 |}.
Definition deep : SleepInterval :=
  {| sleep_start_utc := 50000000000; sleep_end_utc := 200000000000; status := 3 |}.

End SleepSample.

Module ScanSample.

(** One scan row: 60 s at 70 bpm, then 20 s at 80 bpm, from the start of a
    one-minute bin. *)
Definition one_minute : Z := 60000000000.
Definition scan_df : list ScanRow :=
  [ {| start_utc := 0; durations := Some [Some 60%Z; Some 20%Z];
       values := Some [70; 80] |} ].

End ScanSample.


Module RoundTripSample.

(** The four points of the round-trip property. *)
Definition knots_x : list Q := [40; 60; 80; 100].
Definition knots_y : list Q := [45; 65; 85; 105].

End RoundTripSample.

Module HalfSecondSample.

(** A one-second segment that starts half a second before the boundary
    between the first and the second one-minute bin. *)
Definition half_second_start : Z := 59500000000.
Definition half_second_end : Z := 60500000000.
Definition half_second_df : list ScanRow :=
  [ {| start_utc := half_second_start; durations := Some [Some 1%Z];
       values := Some [70] |} ].

End HalfSecondSample.

Module FittedSample.

(** The model fitted on the four round-trip points. *)
Definition pchip_model : ModelMeta :=
  {| kind := ModelKind.PCHIP; context := "global";
     x_knots := [40; 60; 80]; y_knots := [45; 65; 85];
     clip_lo := 35; clip_hi := 220 |}.

(** The isotonic model fitted on the same points. *)
Definition isotonic_model : ModelMeta :=
  Eval vm_compute in
    match ModelFitter.fit_isotonic RoundTripSample.knots_x RoundTripSample.knots_y
            "global" ModelFitter.DEFAULT_CLIP_RANGE with
    | inr m => m
    | inl _ => pchip_model
    end.

End FittedSample.

Module RoundingSample.

(** The doubles 30.2, 62.3 and 62.4, and the double next below 62.3
    (62.29999999999999). *)
Definition d30_2 : Binary64.float := Binary64.double 8500544296661811 (-48).
Definition d62_3 : Binary64.float := Binary64.double 8767945524536934 (-47).
Definition d62_4 : Binary64.float := Binary64.double 8782019273372467 (-47).

(** Two samples that are already monotone: the isotonic fit keeps them as
    its knots. *)
Definition xs : list Binary64.float := [d30_2; d62_3].
Definition ys : list Binary64.float := [d30_2; d62_4].

End RoundingSample.

Module ReversedClipSample.

(** A clip range given upper bound first. *)
Definition clip_range : Q * Q := (220, 35).

(** The PCHIP model fitted on the round-trip points with that range. *)
Definition model : ModelMeta :=
  {| kind := ModelKind.PCHIP; context := "global";
     x_knots := [40; 60; 80]; y_knots := [45; 65; 85];
     clip_lo := 220; clip_hi := 35 |}.

End ReversedClipSample.


(** * Further definitions

    Measures and the remaining functions of the sources, used by the
    properties beyond the claims. *)

(** Sum of the durations [_process_row] does not skip. *)
Definition entries_seconds (dv : list (option Z * Q)) : Z :=
  foldr (fun (e : option Z * Q) (s : Z) =>
           if _is_valid_segment e.1 then (default 0%Z e.1 + s)%Z else s)
        0%Z dv.

(** Whole seconds a scan row feeds into the bins: the sum of its positive
    durations when the row passes [_is_valid_row_data], else nothing. *)
Definition valid_seconds (row : ScanRow) : Z :=
  if _is_valid_row_data (durations row) (values row) then
    entries_seconds (zip (default [] (durations row)) (default [] (values row)))
  else 0%Z.

(** The entries of a row that [_process_row] does not skip. *)
Definition valid_entries (dv : list (option Z * Q)) : list (option Z * Q) :=
  filter (fun e : option Z * Q => _is_valid_segment e.1 = true) dv.

(** The row without its skipped entries (unchanged when the row itself is
    rejected by [_is_valid_row_data]). *)
Definition drop_invalid (row : ScanRow) : ScanRow :=
  if _is_valid_row_data (durations row) (values row) then
    let kept := valid_entries (zip (default [] (durations row)) (default [] (values row))) in
    {| start_utc := start_utc row;
       durations := Some (map fst kept);
       values := Some (map snd kept) |}
  else row.

Global Instance Qlt_decision (a b : Q) : Decision (a < b).
Proof.
  destruct (Qlt_le_dec a b) as [H|H]; [left; exact H|right].
  intros Hlt. exact (Qlt_not_le _ _ Hlt H).
Defined.

(** ** util/time_utlis.py *)

(** [ts.dt.floor(freq)] on a column of UTC timestamps, with [freq] given as
    its [Timedelta]. *)
Definition floor_to_bin (ts : list Z) (freq : Z) : list Z :=
  map (fun t => floor t freq) ts.

(** ** service/t10_data_processor.py *)

(** One row of the heart-rate table once [timestamp_utc] has been computed
    from its [time]; [heartRate] holds a number in every row. *)
Record HeartRateSample : Type := {
  timestamp_utc : Z;
  heartRate : Q;
}.

(** One row of the aggregated T10 frame. *)
Record T10Minute : Type := {
  t_window_utc : Z;
  t_t10_bpm : Q;
  t_t10_points : Z;
}.

(** [DataFrame.groupby('window_utc')]: one group per distinct bin start, in
    increasing order, rows of a group in their original order. *)
Definition groupby_window {A} (key : A → Z) (df : list A) : list (Z * list A) :=
  let keys := merge_sort Z.le (remove_dups (map key df)) in
  map (fun k => (k, filter (fun r => key r = k) df)) keys.

Definition t10_window_le (a b : T10Minute) : Prop := (t_window_utc a ≤ t_window_utc b)%Z.
Global Instance t10_window_le_dec a b : Decision (t10_window_le a b).
Proof. unfold t10_window_le. apply _. Defined.

Module T10DataProcessor.

(** The aggregation [agg(t10_bpm=('heartRate', 'mean'),
    t10_points=('heartRate', 'size'))] of one group. *)
Definition agg (g : Z * list (HeartRateSample * Z)) : T10Minute :=
  {| t_window_utc := g.1;
     t_t10_bpm := mean (map (fun r => heartRate r.1) g.2);
     t_t10_points := Z.of_nat (length g.2) |}.

(** [process_heart_rate_data] from the frame with [timestamp_utc] on. *)
Definition process_heart_rate_data (df_hr : list HeartRateSample) (bin_size : Z)
  : list T10Minute :=
  match df_hr with
  | [] => []
  | _ =>
      let window_utc := floor_to_bin (map timestamp_utc df_hr) bin_size in
      let df_hr' := zip df_hr window_utc in
      let t10_min := map agg (groupby_window snd df_hr') in
      merge_sort t10_window_le t10_min
  end.

End T10DataProcessor.

(** ** service/ml/data_pair_builder.py *)

Module DataPairBuilder.

Definition HR_VALID_RANGE : Q * Q := (30, 230).
Definition MIN_T10_POINTS : Z := 1.

(** One row of the joined frame; [None] is [np.nan]. *)
Record JoinedRow : Type := {
  j_window_utc : Z;
  j_t10_bpm : Q;
  j_t10_points : Z;
  j_scan_bpm : option Q;
  j_scan_coverage_s : Q;
}.

Definition join_row (t : T10Minute) (p : ResampledPoint) : JoinedRow :=
  {| j_window_utc := t_window_utc t; j_t10_bpm := t_t10_bpm t;
     j_t10_points := t_t10_points t; j_scan_bpm := rp_scan_bpm p;
     j_scan_coverage_s := rp_scan_coverage_s p |}.

(** [pd.merge(left, right, on='window_utc', how='inner')]: every pair of a
    left and a right row with the same key, in the order of the left rows. *)
Definition merge (left : list T10Minute) (right : list ResampledPoint)
  : list JoinedRow :=
  flat_map (fun t =>
              map (join_row t)
                  (filter (fun p => rp_window_utc p = t_window_utc t) right))
           left.

(** [Series.between(lo, hi)]: both ends included; [np.nan] is not between. *)
Definition between (v : option Q) (range : Q * Q) : bool :=
  match v with
  | Some q => Qle_bool range.1 q && Qle_bool q range.2
  | None => false
  end.

(** The rows of [df[hr_filter & points_filter]]; a row that passes has a
    number in [scan_bpm]. *)
Definition _apply_filters (df : list JoinedRow) : list MinuteRow :=
  omap (fun r =>
          let hr_filter :=
            between (Some (j_t10_bpm r)) HR_VALID_RANGE
            && between (j_scan_bpm r) HR_VALID_RANGE in
          let points_filter := bool_decide (j_t10_points r >= MIN_T10_POINTS)%Z in
          if hr_filter && points_filter then
            match j_scan_bpm r with
            | Some scan =>
                Some {| m_window_utc := j_window_utc r; m_t10_bpm := j_t10_bpm r;
                        m_t10_points := j_t10_points r; m_scan_bpm := scan;
                        m_scan_coverage_s := j_scan_coverage_s r |}
            | None => None
            end
          else None)
       df.

(** A paired row with its temporal features. *)
Record PairRow : Type := {
  pair : PairedRecord;
  hour : Z;
  dow : Z;
}.

(** [Series.dt.hour] and [Series.dt.dayofweek] (Monday is 0) of a UTC
    timestamp; the epoch was a Thursday. *)
Definition dt_hour (ts : Z) : Z := ((ts / (3600 * NS_PER_S)) mod 24)%Z.
Definition dt_dayofweek (ts : Z) : Z := ((ts / (86400 * NS_PER_S) + 3) mod 7)%Z.

Definition _add_temporal_features (df : list PairedRecord) : list PairRow :=
  map (fun r => {| pair := r; hour := dt_hour (window_utc r);
                   dow := dt_dayofweek (window_utc r) |}) df.

Definition pair_window_le (a b : PairRow) : Prop :=
  (window_utc (pair a) ≤ window_utc (pair b))%Z.
Global Instance pair_window_le_dec a b : Decision (pair_window_le a b).
Proof. unfold pair_window_le. apply _. Defined.

(** [build_pairs] from the frames the two loaders returned ([sw_raw] from
    [get_scanwatch_data]; [t10_resampled], [df_sleep] and [df_sport] from
    [get_t10_data]), with [window_utc] a timestamp column in both frames
    that are joined. *)
Definition build_pairs (sw_raw : list ScanRow) (t10_resampled : list T10Minute)
    (df_sleep : list SleepInterval) (df_sport : list SportInterval)
    (bin_size : Z) (min_scan_coverage_s : Z) : list PairRow :=
  let sw_resampled := resample_scanwatch_by_overlap sw_raw min_scan_coverage_s bin_size in
  let paired_df := merge t10_resampled sw_resampled in
  let paired_df := _apply_filters paired_df in
  let paired_df := annotate_context paired_df df_sleep df_sport bin_size in
  let paired_df := _add_temporal_features paired_df in
  merge_sort pair_window_le paired_df.

End DataPairBuilder.

Module WholeSecondSample.

(** Two rows on whole seconds: 90 s from 00:00:50 and 30 s from 00:05:00,
    with one skipped entry each. *)
Definition rows : list ScanRow :=
  [ {| start_utc := 50000000000;
       durations := Some [Some 40%Z; None; Some 50%Z];
       values := Some [60; 61; 62] |};
    {| start_utc := 300000000000;
       durations := Some [Some 0%Z; Some 30%Z];
       values := Some [80; 90] |} ].

(** What the resampler returns for [rows] with one-minute bins and a
    minimum coverage of 30 s. *)
Definition points : list ResampledPoint :=
  Eval vm_compute in resample_scanwatch_by_overlap rows 30 60000000000.

End WholeSecondSample.

Module AnnotateSample.

(** Two joined rows on one-minute bins, one sleep interval over the first
    bin and one sport interval that starts inside the second. *)
Definition minute_rows : list MinuteRow :=
  [ {| m_window_utc := 0; m_t10_bpm := 55; m_t10_points := 3;
       m_scan_bpm := 57; m_scan_coverage_s := 60 |};
    {| m_window_utc := 60000000000; m_t10_bpm := 120; m_t10_points := 2;
       m_scan_bpm := 117; m_scan_coverage_s := 45 |} ].
Definition sleep_df : list SleepInterval :=
  [ {| sleep_start_utc := -1000000000; sleep_end_utc := 40000000000; status := 2 |} ].
Definition sport_df : list SportInterval :=
  [ {| sport_start_utc := 90000000000; sport_end_utc := 900000000000 |} ].

End AnnotateSample.

(** The four zone labels in the order [groupby] sorts them (by code point:
    digits come before [<] and [>]). *)
Definition zone_labels_sorted : list string :=
  [HeartRateZone.LOW; HeartRateZone.MODERATE; HeartRateZone.VERY_LOW; HeartRateZone.HIGH].

Module MetricsSample.

Definition scored (scan t10 pred : Q) : ScoredRecord :=
  {| rec := {| window_utc := 0; t10_bpm := t10; t10_points := 1; scan_bpm := scan;
               scan_coverage_s := 60; sleep_status := 0; is_sport := false |};
     y_hat := pred |}.

(** One record below 60, two in [60, 90) and one from 120 on. *)
Definition records : list ScoredRecord :=
  [scored 130 128 131; scored 55 57 56; scored 70 72 69; scored 80 78 81].

(** Their metrics. *)
Definition rows : list MetricsRow :=
  Eval vm_compute in MetricsCalculator.calculate_metrics records.

End MetricsSample.

Module TrainSample.

(** Thirty awake, non-sport minutes with rising heart rates. *)
Definition active_row (i : nat) : PairedRecord :=
  {| window_utc := 60000000000 * Z.of_nat i;
     t10_bpm := inject_Z (62 + Z.of_nat i); t10_points := 3;
     scan_bpm := inject_Z (60 + Z.of_nat i);
     scan_coverage_s := 60; sleep_status := 0; is_sport := false |}.

Definition active_rows : list PairedRecord := map active_row (seq 0 30).

End TrainSample.

Module T10Sample.

(** Three samples in the first minute, one in the third. *)
Definition samples : list HeartRateSample :=
  [ {| timestamp_utc := 130000000000; heartRate := 90 |};
    {| timestamp_utc := 5000000000; heartRate := 60 |};
    {| timestamp_utc := 59999999999; heartRate := 66 |};
    {| timestamp_utc := 0; heartRate := 63 |} ].

Definition minutes : list T10Minute :=
  Eval vm_compute in T10DataProcessor.process_heart_rate_data samples 60000000000.

End T10Sample.

Module BuilderSample.

(** The ScanWatch row of [ScanSample] paired with the T10 minutes of
    [T10Sample], annotated with the intervals of [AnnotateSample]. *)
Definition pairs : list DataPairBuilder.PairRow :=
  Eval vm_compute in
    DataPairBuilder.build_pairs ScanSample.scan_df T10Sample.minutes
      AnnotateSample.sleep_df AnnotateSample.sport_df ScanSample.one_minute 30.

End BuilderSample.
(** * Properties *)

(** ** Comparisons on rationals *)

Lemma Qlt_bool_iff a b : Qlt_bool a b = true ↔ a < b.
Proof.
  unfold Qlt_bool. rewrite negb_true_iff. split.
  - intros H. apply Qnot_le_lt. intros Hle.
    apply Qle_bool_iff in Hle. congruence.
  - intros H. destruct (Qle_bool b a) eqn:E; [|done].
    apply Qle_bool_iff in E. lra.
Qed.

Lemma Qlt_bool_false a b : Qlt_bool a b = false ↔ b <= a.
Proof.
  unfold Qlt_bool. rewrite negb_false_iff. apply Qle_bool_iff.
Qed.

Lemma Qle_bool_false a b : Qle_bool a b = false ↔ b < a.
Proof.
  split.
  - intros H. apply Qnot_le_lt. intros Hle. apply Qle_bool_iff in Hle. congruence.
  - intros H. destruct (Qle_bool a b) eqn:E; [|done].
    apply Qle_bool_iff in E. lra.
Qed.

(** ** Contextual trainer: model selection (C2) *)

Section Selection.
Import ContextualModelTrainer.

Variable context_models : gmap string ModelMeta.
Variable row : PairedRecord.

Lemma contains_true key m :
  context_models !! key = Some m → contains context_models key = true.
Proof. intros H. unfold contains. rewrite H. by apply bool_decide_eq_true. Qed.

Lemma contains_false key :
  context_models !! key = None → contains context_models key = false.
Proof.
  intros H. unfold contains. rewrite H. apply bool_decide_eq_false.
  by intros [? ?].
Qed.

Lemma asleep_test :
  negb (bool_decide (sleep_status row = 0%Z)) && bool_decide (sleep_status row > 0)%Z
  = bool_decide (sleep_status row > 0)%Z.
Proof. repeat case_bool_decide; simpl; try done; lia. Qed.

(** C2. The model a record is predicted with follows the priority order:
    the rest model when [sleep_status > 0] and a rest model exists, else
    the active model when it exists, else the rest model when it exists,
    else the "no suitable model" error; so a record with [sleep_status = 2]
    and only an active model is predicted with the active model. *)
Theorem C2_selection_priority :
  (∀ m, context_models !! "rest" = Some m → (sleep_status row > 0)%Z →
        predict_for_row context_models row = predict_one m (scan_bpm row))
  ∧ (∀ m, ¬ ((sleep_status row > 0)%Z ∧ is_Some (context_models !! "rest")) →
        context_models !! "active" = Some m →
        predict_for_row context_models row = predict_one m (scan_bpm row))
  ∧ (∀ m, ¬ (sleep_status row > 0)%Z → context_models !! "active" = None →
        context_models !! "rest" = Some m →
        predict_for_row context_models row = predict_one m (scan_bpm row))
  ∧ (context_models !! "rest" = None → context_models !! "active" = None →
        predict_for_row context_models row
        = raise (ValueError "No suitable model available for prediction"))
  ∧ (∀ m, sleep_status row = 2%Z → context_models !! "rest" = None →
        context_models !! "active" = Some m →
        predict_for_row context_models row = predict_one m (scan_bpm row)).
Proof.
  unfold predict_for_row.
  rewrite <- andb_assoc, asleep_test.
  repeat split.
  - intros m Hr Hs. rewrite (contains_true _ _ Hr). simpl.
    rewrite bool_decide_eq_true_2 by done.
    unfold getitem. by rewrite Hr.
  - intros m Hno Ha.
    destruct (contains context_models "rest" && bool_decide (sleep_status row > 0)%Z) eqn:E.
    + apply andb_true_iff in E as [E1 E2].
      apply bool_decide_eq_true in E1, E2. tauto.
    + rewrite (contains_true _ _ Ha). unfold getitem. by rewrite Ha.
  - intros m Hs Ha Hr. rewrite (contains_true _ _ Hr), (contains_false _ Ha). simpl.
    rewrite bool_decide_eq_false_2 by done.
    unfold getitem. by rewrite Hr.
  - intros Hr Ha. by rewrite (contains_false _ Hr), (contains_false _ Ha).
  - intros m Hs Hr Ha. rewrite (contains_false _ Hr), (contains_true _ _ Ha). simpl.
    unfold getitem. by rewrite Ha.
Qed.
End Selection.

Lemma C2_selection_priority_witness :
  ContextualModelTrainer.predict_for_row SelectionSample.active_only SelectionSample.asleep_row
  = ContextualModelTrainer.predict_one SelectionSample.line_model 61.
Proof.
  destruct (C2_selection_priority SelectionSample.active_only SelectionSample.asleep_row)
    as (_ & _ & _ & _ & H).
  apply H; reflexivity.
Defined.

(** ** Contextual trainer: global fallback (C10) *)

Section GlobalFallback.
Import ContextualModelTrainer.

Lemma train_below_minimum self data name results :
  (length data < MIN_SAMPLES_PER_CONTEXT)%nat →
  _train_context_model self data name results = ret (None, results).
Proof.
  intros H. unfold _train_context_model. by rewrite bool_decide_eq_true_2.
Qed.

(** C10. When both contexts stay below the minimum sample count, the
    trainer fits the model of the run with [fit_pchip_from_binned] on all
    pairs, whatever [model_kind] the trainer was configured with: the
    outcome does not mention [model_kind]. *)
Theorem C10_global_fallback_ignores_model_kind (self : t) (pairs : list PairedRecord) :
  pairs ≠ [] →
  (length (_split_by_context pairs).1 < MIN_SAMPLES_PER_CONTEXT)%nat →
  (length (_split_by_context pairs).2 < MIN_SAMPLES_PER_CONTEXT)%nat →
  train_and_apply self pairs =
    let x_values := map scan_bpm pairs in
    let* global_model :=
      ModelFitter.fit_pchip_from_binned x_values (map t10_bpm pairs) "global"
        ModelFitter.DEFAULT_CLIP_RANGE ModelFitter.DEFAULT_NUM_BINS in
    let* y_predicted := ModelPredictor.apply_model global_model x_values in
    let scored := set_y_hat pairs y_predicted in
    ret (scored,
         {| chosen_models := ∅;
            metrics :=
              <["global_model" := RModel global_model]>
                (<["global_n" := RCount (Z.of_nat (length scored))]>
                   (<["global_metrics" :=
                        RMetrics (MetricsCalculator.calculate_metrics scored)]> ∅)) |}).
Proof.
  intros Hne Hrest Hactive. unfold train_and_apply.
  destruct pairs as [|p pairs']; [done|].
  destruct (_split_by_context (p :: pairs')) as [rest_data active_data] eqn:Hsplit.
  simpl in Hrest, Hactive.
  rewrite (train_below_minimum _ _ _ _ Hrest). simpl.
  rewrite (train_below_minimum _ _ _ _ Hactive). simpl.
  unfold _apply_contextual_predictions.
  rewrite bool_decide_eq_true_2 by done.
  unfold _apply_global_fallback.
  destruct (ModelFitter.fit_pchip_from_binned _ _ _ _ _) as [e|m]; [done|]. simpl.
  by destruct (ModelPredictor.apply_model m _) as [e|y].
Qed.
End GlobalFallback.

Lemma C10_global_fallback_ignores_model_kind_witness :
  ContextualModelTrainer.train_and_apply FallbackSample.isotonic_trainer FallbackSample.two_pairs =
    let x_values := map scan_bpm FallbackSample.two_pairs in
    let* global_model :=
      ModelFitter.fit_pchip_from_binned x_values (map t10_bpm FallbackSample.two_pairs) "global"
        ModelFitter.DEFAULT_CLIP_RANGE ModelFitter.DEFAULT_NUM_BINS in
    let* y_predicted := ModelPredictor.apply_model global_model x_values in
    let scored := ContextualModelTrainer.set_y_hat FallbackSample.two_pairs y_predicted in
    ret (scored,
         {| ContextualModelTrainer.chosen_models := ∅;
            ContextualModelTrainer.metrics :=
              <["global_model" := RModel global_model]>
                (<["global_n" := RCount (Z.of_nat (length scored))]>
                   (<["global_metrics" :=
                        RMetrics (MetricsCalculator.calculate_metrics scored)]> ∅)) |}).
Proof.
  apply (C10_global_fallback_ignores_model_kind FallbackSample.isotonic_trainer FallbackSample.two_pairs).
  - discriminate.
  - vm_compute. lia.
  - vm_compute. lia.
Defined.

(** ** Model fitter: empty input (C8) *)

(** C8. Fitting on an empty [x] fails for both model kinds: the isotonic
    path raises the regression's "0 samples, minimum of 1 required"
    [ValueError], the binned path raises the [ValueError] of the minimum
    over an empty array; neither is caught, so the caller receives it. *)
Theorem C8_fit_empty_fails (y : list Q) (context : string) (clip_range : Q * Q)
    (num_bins : nat) :
  ModelFitter.fit_isotonic [] y context clip_range
  = raise (ValueError
      "Found array with 0 sample(s) (shape=(0,)) while a minimum of 1 is required.")
  ∧ ModelFitter.fit_pchip_from_binned [] y context clip_range num_bins
    = raise (ValueError zero_size_msg).
Proof. split; reflexivity. Qed.

(** ** Context annotator: largest-overlap sleep status (C5) *)

Section SleepStatus.
Local Open Scope Z_scope.

Variables window_start window_end : Z.

(** Overlap of a sleep interval with the bin, as the code computes it. *)
Definition bin_overlap (iv : SleepInterval) : Z :=
  _calculate_time_overlap window_start window_end (sleep_start_utc iv) (sleep_end_utc iv).

(** Loop invariant of the scan over the sleep intervals. *)
Lemma sleep_fold_spec (l : list SleepInterval) (b0 m0 : Z) :
  let r := foldl (sleep_step window_start window_end) (b0, m0) l in
  m0 ≤ r.2
  ∧ (∀ iv, iv ∈ l → bin_overlap iv ≤ r.2)
  ∧ ((r = (b0, m0) ∧ ∀ iv, iv ∈ l → bin_overlap iv ≤ m0)
     ∨ (m0 < r.2 ∧ ∃ k iv, l !! k = Some iv ∧ bin_overlap iv = r.2 ∧ status iv = r.1
                            ∧ ∀ j iv', (j < k)%nat → l !! j = Some iv' →
                                       bin_overlap iv' < r.2)).
Proof.
  revert b0 m0. induction l as [|a l IH]; intros b0 m0; simpl.
  - split; [lia|]. split; [intros iv H; by apply elem_of_nil in H|].
    left. split; [done|]. intros iv H. by apply elem_of_nil in H.
  - unfold sleep_step at 2. fold (bin_overlap a).
    case_bool_decide as Hgt.
    + destruct (IH (status a) (bin_overlap a)) as (Hle & Hall & Hcase).
      set (r := foldl _ _ l) in *.
      split; [lia|]. split.
      { intros iv Hin. apply elem_of_cons in Hin as [-> | Hin]; [lia|by apply Hall]. }
      right. split; [lia|].
      destruct Hcase as [[Hr Hmax]|(Hlt & k & iv & Hk & Hov & Hst & Hbefore)].
      * exists 0%nat, a. rewrite Hr. simpl. repeat split; try done.
        intros j iv' Hj. lia.
      * exists (S k), iv. repeat split; try done.
        intros [|j] iv' Hj Hlook; simpl in Hlook.
        -- injection Hlook as <-. lia.
        -- apply (Hbefore j); [lia|done].
    + destruct (IH b0 m0) as (Hle & Hall & Hcase).
      set (r := foldl _ _ l) in *.
      split; [lia|]. split.
      { intros iv Hin. apply elem_of_cons in Hin as [-> | Hin]; [lia|by apply Hall]. }
      destruct Hcase as [[Hr Hmax]|(Hlt & k & iv & Hk & Hov & Hst & Hbefore)].
      * left. split; [done|].
        intros iv Hin. apply elem_of_cons in Hin as [-> | Hin]; [lia|by apply Hmax].
      * right. split; [lia|].
        exists (S k), iv. repeat split; try done.
        intros [|j] iv' Hj Hlook; simpl in Hlook.
        -- injection Hlook as <-. lia.
        -- apply (Hbefore j); [lia|done].
Qed.

Lemma sleep_status_none (l : list SleepInterval) :
  (∀ iv, iv ∈ l → bin_overlap iv ≤ 0) →
  window_sleep_status window_start window_end l = 0.
Proof.
  intros Hnone. unfold window_sleep_status.
  destruct (sleep_fold_spec l 0 0) as (Hle & Hall & Hcase).
  destruct Hcase as [[Hr _]|(Hlt & k & iv & Hk & Hov & _)].
  - by rewrite Hr.
  - apply list_elem_of_lookup_2 in Hk. specialize (Hnone _ Hk). lia.
Qed.

Lemma sleep_status_first_max (l : list SleepInterval) (k : nat) (iv : SleepInterval) :
  l !! k = Some iv →
  0 < bin_overlap iv →
  (∀ iv', iv' ∈ l → bin_overlap iv' ≤ bin_overlap iv) →
  (∀ j iv', (j < k)%nat → l !! j = Some iv' → bin_overlap iv' < bin_overlap iv) →
  window_sleep_status window_start window_end l = status iv.
Proof.
  intros Hk Hpos Hmax Hfirst. unfold window_sleep_status.
  destruct (sleep_fold_spec l 0 0) as (Hle & Hall & Hcase).
  set (r := foldl _ _ l) in *.
  assert (Hin : iv ∈ l) by (by apply list_elem_of_lookup_2 in Hk).
  destruct Hcase as [[_ Hzero]|(Hlt & k' & iv' & Hk' & Hov & Hst & Hbefore)].
  - specialize (Hzero _ Hin). lia.
  - assert (Hin' : iv' ∈ l) by (by apply list_elem_of_lookup_2 in Hk').
    assert (Heq : bin_overlap iv = r.2).
    { specialize (Hmax _ Hin'). specialize (Hall _ Hin). lia. }
    destruct (lt_eq_lt_dec k k') as [[Hlt' | ->] | Hgt].
    + specialize (Hbefore _ _ Hlt' Hk). lia.
    + rewrite Hk in Hk'. injection Hk' as ->. done.
    + specialize (Hfirst _ _ Hgt Hk'). lia.
Qed.
End SleepStatus.

Lemma time_overlap_intersection (start1 end1 start2 end2 : Z) :
  (start1 < end1)%Z → (start2 < end2)%Z →
  _calculate_time_overlap start1 end1 start2 end2
  = Z.max 0 (Z.min end1 end2 - Z.max start1 start2).
Proof.
  intros H1 H2. unfold _calculate_time_overlap.
  repeat case_bool_decide; simpl; lia.
Qed.

(** C5. The status stored for bin [i] is 0 when no sleep interval overlaps
    the bin (in particular when there is none); otherwise it is the status
    of the interval of greatest overlap, the first one among equals; with
    two intervals overlapping by 5 s and 10 s it is the status of the
    second. The overlap is the length of the intersection with the bin. *)
Theorem C5_sleep_status_largest_overlap (window_starts window_ends : list Z)
    (df_sleep : list SleepInterval) (i : nat) (ws we : Z) :
  window_starts !! i = Some ws →
  window_ends !! i = Some we →
  ∃ s : Z,
    _calculate_sleep_status window_starts window_ends df_sleep !! i = Some s
    ∧ ((∀ iv, iv ∈ df_sleep → (bin_overlap ws we iv ≤ 0)%Z) → s = 0%Z)
    ∧ (∀ k iv, df_sleep !! k = Some iv →
         (0 < bin_overlap ws we iv)%Z →
         (∀ iv', iv' ∈ df_sleep → (bin_overlap ws we iv' ≤ bin_overlap ws we iv)%Z) →
         (∀ j iv', (j < k)%nat → df_sleep !! j = Some iv' →
                   (bin_overlap ws we iv' < bin_overlap ws we iv)%Z) →
         s = status iv)
    ∧ (∀ a b, df_sleep = [a; b] →
         bin_overlap ws we a = Timedelta_seconds 5 →
         bin_overlap ws we b = Timedelta_seconds 10 →
         s = status b)
    ∧ (∀ iv, (ws < we)%Z → (sleep_start_utc iv < sleep_end_utc iv)%Z →
         bin_overlap ws we iv
         = Z.max 0 (Z.min we (sleep_end_utc iv) - Z.max ws (sleep_start_utc iv))).
Proof.
  intros Hws Hwe.
  assert (Hres : _calculate_sleep_status window_starts window_ends df_sleep !! i
                 = Some (window_sleep_status ws we df_sleep)).
  { unfold _calculate_sleep_status. destruct df_sleep as [|iv0 rest].
    - rewrite list_lookup_fmap, Hws. reflexivity.
    - rewrite list_lookup_fmap.
      assert (Hz : zip window_starts window_ends !! i = Some (ws, we)).
      { rewrite lookup_zip_with, Hws. simpl. by rewrite Hwe. }
      by rewrite Hz. }
  exists (window_sleep_status ws we df_sleep).
  split; [exact Hres|]. split; [apply sleep_status_none|].
  split; [intros k iv; apply sleep_status_first_max|].
  split.
  - intros a b -> Ha Hb.
    apply (sleep_status_first_max ws we [a; b] 1 b); [done| | |].
    + rewrite Hb. done.
    + intros iv' Hin. rewrite Hb.
      apply elem_of_cons in Hin as [-> | Hin].
      * rewrite Ha. done.
      * apply list_elem_of_singleton in Hin as ->. rewrite Hb. done.
    + intros [|j] iv' Hj Hlook; [|lia].
      injection Hlook as <-. rewrite Ha, Hb. done.
  - intros iv H1 H2. by apply time_overlap_intersection.
Qed.

Lemma C5_sleep_status_largest_overlap_witness :
  _calculate_sleep_status [SleepSample.bin_start] [SleepSample.bin_end]
                          [SleepSample.light; SleepSample.deep] !! 0%nat
  = Some 3%Z.
Proof.
  destruct (C5_sleep_status_largest_overlap
              [SleepSample.bin_start] [SleepSample.bin_end]
              [SleepSample.light; SleepSample.deep] 0 SleepSample.bin_start SleepSample.bin_end
              eq_refl eq_refl)
    as (s & Hs & _ & _ & Hpair & _).
  rewrite Hs. f_equal.
  apply (Hpair SleepSample.light SleepSample.deep); reflexivity.
Defined.

(** ** Metrics calculator: zone-stratified errors (C6) *)

Lemma map_fst_graph {K B : Type} (h : K → B) (l : list K) :
  map fst (map (λ k, (k, h k)) l) = l.
Proof. induction l as [|k l IH]; [done|]. simpl. by rewrite IH. Qed.

Section Grouping.
Context {A : Type} (key : A → string).

Lemma groupby_fst (df : list A) :
  map fst (groupby key df) = merge_sort string_le (remove_dups (map key df)).
Proof. unfold groupby. apply map_fst_graph. Qed.

Lemma groupby_shape (df : list A) :
  groupby key df
  = map (λ k, (k, filter (λ r, key r = k) df)) (map fst (groupby key df)).
Proof. rewrite groupby_fst. reflexivity. Qed.

Lemma groupby_keys (df : list A) (k : string) :
  k ∈ map fst (groupby key df) ↔ ∃ r, r ∈ df ∧ key r = k.
Proof.
  rewrite groupby_fst, merge_sort_Permutation, elem_of_remove_dups.
  change (map key df) with (key <$> df). rewrite list_elem_of_fmap.
  split; intros (r & H1 & H2); exists r; done.
Qed.

Lemma groupby_keys_NoDup (df : list A) : NoDup (map fst (groupby key df)).
Proof.
  rewrite groupby_fst, merge_sort_Permutation. apply NoDup_remove_dups.
Qed.
End Grouping.

(** Selecting by key among images of a duplicate-free key list. *)
Lemma filter_key_image {B : Type} (f : B → string) (g : string → B)
    (keys : list string) (z : string) :
  (∀ k, f (g k) = k) → NoDup keys →
  filter (λ m, f m = z) (map g keys) = if decide (z ∈ keys) then [g z] else [].
Proof.
  intros Hfg Hnd. induction Hnd as [|k keys Hk Hnd IH].
  - destruct (decide (z ∈ [])) as [Hin | _]; [|done].
    by apply elem_of_nil in Hin.
  - change (map g (k :: keys)) with (g k :: map g keys).
    rewrite filter_cons, Hfg, IH.
    destruct (decide (k = z)) as [-> | Hne].
    + destruct (decide (z ∈ keys)) as [Hin | _]; [done|].
      destruct (decide (z ∈ z :: keys)) as [_ | Hnin]; [done|].
      exfalso. apply Hnin. apply elem_of_cons. by left.
    + destruct (decide (z ∈ keys)) as [Hin | Hnin].
      * destruct (decide (z ∈ k :: keys)) as [_ | Hnin]; [done|].
        exfalso. apply Hnin. apply elem_of_cons. by right.
      * destruct (decide (z ∈ k :: keys)) as [Hin | _]; [|done].
        apply elem_of_cons in Hin as [-> | Hin]; done.
Qed.

Lemma filter_map_comm {A B : Type} (f : A → B) (P : B → Prop)
    `{∀ b, Decision (P b)} (l : list A) :
  filter P (map f l) = map f (filter (λ a, P (f a)) l).
Proof.
  induction l as [|a l IH]; [done|]. simpl.
  rewrite !filter_cons. destruct (decide (P (f a))); simpl; by rewrite IH.
Qed.

Section Zones.
Import HeartRateZone HeartRateZoneClassifier.

Lemma classify_boundaries (h : Q) :
  (classify h = VERY_LOW ↔ h < 60)
  ∧ (classify h = LOW ↔ 60 <= h ∧ h < 90)
  ∧ (classify h = MODERATE ↔ 90 <= h ∧ h < 120)
  ∧ (classify h = HIGH ↔ 120 <= h).
Proof.
  unfold classify.
  destruct (Qlt_bool h 60) eqn:E1;
    [apply Qlt_bool_iff in E1 | apply Qlt_bool_false in E1];
    [repeat split; intros; try discriminate; try lra|].
  destruct (Qlt_bool h 90) eqn:E2;
    [apply Qlt_bool_iff in E2 | apply Qlt_bool_false in E2];
    [repeat split; intros; try discriminate; try lra|].
  destruct (Qlt_bool h 120) eqn:E3;
    [apply Qlt_bool_iff in E3 | apply Qlt_bool_false in E3];
    repeat split; intros; try discriminate; try lra.
Qed.
End Zones.

Section Metrics.
Import MetricsCalculator.

(** The records of [df] whose input value [scan_bpm] falls in zone [z]. *)
Definition zone_members (df : list ScoredRecord) (z : string) : list ScoredRecord :=
  filter (λ r, HeartRateZoneClassifier.classify (scan_bpm (rec r)) = z) df.

(** C6. For every zone label, the metrics hold no row for the zone when no
    record's input value falls in it, and otherwise exactly one row, with
    the count of those records, the mean of [|reference - predicted|] and
    the mean of [reference - predicted] over them; the zones are [<60],
    [60, 90), [90, 120) and [120, ...) of the input value. *)
Theorem C6_zone_metrics (df : list ScoredRecord) (z : string) :
  filter (λ m, zone m = z) (calculate_metrics df)
  = match zone_members df z with
    | [] => []
    | _ :: _ =>
        [ {| zone := z;
             n := length (zone_members df z);
             MAE := mean (map (λ r, Qabs (t10_bpm (rec r) - y_hat r)) (zone_members df z));
             bias := mean (map (λ r, t10_bpm (rec r) - y_hat r) (zone_members df z)) |} ]
    end
  ∧ ∀ h : Q,
      (HeartRateZoneClassifier.classify h = HeartRateZone.VERY_LOW ↔ h < 60)
      ∧ (HeartRateZoneClassifier.classify h = HeartRateZone.LOW ↔ 60 <= h ∧ h < 90)
      ∧ (HeartRateZoneClassifier.classify h = HeartRateZone.MODERATE ↔ 90 <= h ∧ h < 120)
      ∧ (HeartRateZoneClassifier.classify h = HeartRateZone.HIGH ↔ 120 <= h).
Proof.
  split; [|apply classify_boundaries].
  unfold calculate_metrics.
  set (df_copy := map with_errors df).
  rewrite (groupby_shape row_zone df_copy), map_map. simpl.
  rewrite (filter_key_image zone _ _ z); [|done|apply groupby_keys_NoDup].
  assert (Hmem : filter (λ r, row_zone r = z) df_copy = map with_errors (zone_members df z)).
  { unfold df_copy, zone_members. by rewrite filter_map_comm. }
  destruct (decide (z ∈ map fst (groupby row_zone df_copy))) as [Hin | Hnin].
  - apply groupby_keys in Hin as (e & He & Hz).
    rewrite Hmem, !map_map, length_map. simpl.
    destruct (zone_members df z) as [|r0 rs] eqn:Hzm; [|done].
    exfalso. unfold df_copy in He.
    change (map with_errors df) with (with_errors <$> df) in He.
    apply list_elem_of_fmap in He as (r & -> & Hr).
    assert (Hrm : r ∈ zone_members df z).
    { unfold zone_members. apply list_elem_of_filter. split; [exact Hz|exact Hr]. }
    rewrite Hzm in Hrm. by apply elem_of_nil in Hrm.
  - destruct (zone_members df z) as [|r0 rs] eqn:Hzm; [done|].
    exfalso. apply Hnin. apply groupby_keys.
    assert (Hr0 : r0 ∈ zone_members df z) by (rewrite Hzm; apply elem_of_cons; by left).
    unfold zone_members in Hr0. apply list_elem_of_filter in Hr0 as [Hz Hr0].
    exists (with_errors r0). split; [|exact Hz].
    unfold df_copy. change (map with_errors df) with (with_errors <$> df).
    by apply list_elem_of_fmap_2.
Qed.
End Metrics.

(** ** Overlap resampler: coverage filter and output order (C7) *)

Global Instance window_le_total : Total window_le.
Proof. intros p q. unfold window_le. lia. Qed.

Global Instance window_le_trans : Transitive window_le.
Proof. intros p q r. unfold window_le. lia. Qed.

(** Strict ascending order of the bin starts. *)
Definition window_lt (p q : ResampledPoint) : Prop :=
  (rp_window_utc p < rp_window_utc q)%Z.

Lemma sorted_distinct_strict (l : list ResampledPoint) :
  StronglySorted window_le l → NoDup (map rp_window_utc l) →
  StronglySorted window_lt l.
Proof.
  induction l as [|p l IH]; intros Hs Hnd; [constructor|].
  apply StronglySorted_inv in Hs as [Hs Hall].
  simpl in Hnd. apply NoDup_cons in Hnd as [Hnotin Hnd].
  constructor; [by apply IH|].
  apply Forall_forall. intros q Hq.
  assert (Hle : window_le p q).
  { rewrite Forall_forall in Hall. apply Hall. exact Hq. }
  unfold window_le in Hle. unfold window_lt.
  assert (rp_window_utc p ≠ rp_window_utc q).
  { intros Heq. apply Hnotin. rewrite Heq.
    change (map rp_window_utc l) with (rp_window_utc <$> l).
    by apply list_elem_of_fmap_2. }
  lia.
Qed.

Lemma strict_filter (P : ResampledPoint → Prop) `{∀ p, Decision (P p)}
    (l : list ResampledPoint) :
  StronglySorted window_lt l → StronglySorted window_lt (filter P l).
Proof.
  induction 1 as [|p l Hs IH Hall]; [constructor|].
  rewrite filter_cons. destruct (decide (P p)); [|exact IH].
  constructor; [exact IH|].
  apply Forall_forall. intros q Hq.
  apply list_elem_of_filter in Hq as [_ Hq].
  rewrite Forall_forall in Hall. by apply Hall.
Qed.

Lemma result_rows_distinct (window_data : gmap Z WindowAcc) :
  NoDup (map rp_window_utc (map result_row (map_to_list window_data))).
Proof.
  rewrite map_map. simpl.
  change (map (λ x : Z * WindowAcc, x.1) (map_to_list window_data))
    with ((map_to_list window_data).*1).
  apply NoDup_fst_map_to_list.
Qed.

Lemma resample_unfold (df : list ScanRow) (min_coverage_s step : Z) :
  resample_scanwatch_by_overlap df min_coverage_s step
  = _build_result_dataframe (accumulate df step) step min_coverage_s.
Proof.
  unfold resample_scanwatch_by_overlap. destruct df as [|r df]; [done|].
  case_bool_decide as He; [|done]. rewrite He. done.
Qed.

Lemma build_result_elem (window_data : gmap Z WindowAcc) (step mcs : Z)
    (p : ResampledPoint) :
  p ∈ _build_result_dataframe window_data step mcs
  ↔ (∃ ws acc, window_data !! ws = Some acc ∧ p = result_row (ws, acc))
    ∧ inject_Z (Z.min mcs (freq_seconds step)) <= rp_scan_coverage_s p.
Proof.
  unfold _build_result_dataframe, _apply_coverage_filter.
  rewrite list_elem_of_filter, merge_sort_Permutation, Qle_bool_iff.
  change (map result_row (map_to_list window_data))
    with (result_row <$> map_to_list window_data).
  rewrite list_elem_of_fmap. split.
  - intros (Hcov & [ws acc] & -> & Hin). apply elem_of_map_to_list in Hin.
    split; [|exact Hcov]. by exists ws, acc.
  - intros ((ws & acc & Hl & ->) & Hcov). split; [exact Hcov|].
    exists (ws, acc). split; [done|]. by apply elem_of_map_to_list.
Qed.

Lemma build_result_sorted (window_data : gmap Z WindowAcc) (step mcs : Z) :
  StronglySorted window_lt (_build_result_dataframe window_data step mcs).
Proof.
  unfold _build_result_dataframe, _apply_coverage_filter.
  apply strict_filter. apply sorted_distinct_strict.
  - apply StronglySorted_merge_sort; apply _.
  - assert (Hp : map rp_window_utc (merge_sort window_le (map result_row (map_to_list window_data)))
                 ≡ₚ map rp_window_utc (map result_row (map_to_list window_data))).
    { apply Permutation_map. apply merge_sort_Permutation. }
    rewrite Hp. apply result_rows_distinct.
Qed.



(** ** Binned medians: the points at [max(x)] (C9) *)

Section Extremes.

Lemma list_min_le (x0 : Q) (l : list Q) :
  list_min x0 l <= x0 ∧ ∀ v, v ∈ l → list_min x0 l <= v.
Proof.
  revert x0. induction l as [|a l IH]; intros x0; simpl.
  - split; [lra|]. intros v Hv. by apply elem_of_nil in Hv.
  - destruct (IH (Qmin x0 a)) as [H0 Hl].
    pose proof (Q.le_min_l x0 a). pose proof (Q.le_min_r x0 a).
    split; [lra|]. intros v Hv.
    apply elem_of_cons in Hv as [-> | Hv]; [lra|by apply Hl].
Qed.

Lemma list_max_ge (x0 : Q) (l : list Q) :
  x0 <= list_max x0 l ∧ ∀ v, v ∈ l → v <= list_max x0 l.
Proof.
  revert x0. induction l as [|a l IH]; intros x0; simpl.
  - split; [lra|]. intros v Hv. by apply elem_of_nil in Hv.
  - destruct (IH (Qmax x0 a)) as [H0 Hl].
    pose proof (Q.le_max_l x0 a). pose proof (Q.le_max_r x0 a).
    split; [lra|]. intros v Hv.
    apply elem_of_cons in Hv as [-> | Hv]; [lra|by apply Hl].
Qed.

Lemma nanmin_le_nanmax (x : list Q) (x_min x_max : Q) :
  np_nanmin x = ret x_min → np_nanmax x = ret x_max → x_min <= x_max.
Proof.
  destruct x as [|x0 l]; [discriminate|]. simpl.
  intros [= <-] [= <-].
  pose proof (list_min_le x0 l) as [H1 _].
  pose proof (list_max_ge x0 l) as [H2 _]. lra.
Qed.

End Extremes.

Section Linspace.
Variables (start stop : Q) (num_bins : nat).
Hypothesis Hle : start <= stop.
Hypothesis Hpos : (0 < num_bins)%nat.

Let step : Q := (stop - start) / inject_Z (Z.of_nat num_bins).
Let point (i : nat) : Q := start + inject_Z (Z.of_nat i) * step.

Lemma num_bins_positive : 0 < inject_Z (Z.of_nat num_bins).
Proof. change 0 with (inject_Z 0). rewrite <- Zlt_Qlt. lia. Qed.

Lemma step_nonneg : 0 <= step.
Proof.
  unfold step. pose proof num_bins_positive as Hn.
  apply Qle_shift_div_l; [exact Hn|]. lra.
Qed.

Lemma step_total : inject_Z (Z.of_nat num_bins) * step == stop - start.
Proof.
  unfold step. pose proof num_bins_positive as Hn. field. lra.
Qed.

Lemma point_succ (i : nat) : point (S i) == point i + step.
Proof.
  unfold point. rewrite Nat2Z.inj_succ. unfold Z.succ.
  rewrite inject_Z_plus. ring.
Qed.

Lemma point_le_stop (i : nat) : (i ≤ num_bins)%nat → point i <= stop.
Proof.
  intros Hi. unfold point.
  assert (H1 : inject_Z (Z.of_nat i) <= inject_Z (Z.of_nat num_bins)).
  { rewrite <- Zle_Qle. lia. }
  pose proof step_nonneg as Hs. pose proof step_total as Ht.
  assert (H2 : inject_Z (Z.of_nat i) * step <= inject_Z (Z.of_nat num_bins) * step).
  { by apply Qmult_le_compat_r. }
  lra.
Qed.

Lemma linspace_unfold :
  np_linspace start stop num_bins = map point (seq 0 num_bins) ++ [stop].
Proof. unfold np_linspace. destruct num_bins; [lia|]. reflexivity. Qed.

Lemma grid_non_decreasing (m k : nat) :
  (k + m ≤ num_bins)%nat →
  is_non_decreasing (map point (seq k m) ++ [stop]) = true.
Proof.
  revert k. induction m as [|m IH]; intros k Hk; [done|].
  change (map point (seq k (S m)) ++ [stop])
    with (point k :: (map point (seq (S k) m) ++ [stop])).
  specialize (IH (S k) ltac:(lia)).
  destruct m as [|m'].
  - simpl. rewrite andb_true_r. apply Qle_bool_iff. apply point_le_stop. lia.
  - change (map point (seq (S k) (S m')) ++ [stop])
      with (point (S k) :: (map point (seq (S (S k)) m') ++ [stop])) in *.
    simpl. simpl in IH. rewrite IH, andb_true_r.
    apply Qle_bool_iff. rewrite point_succ. pose proof step_nonneg. lra.
Qed.

Lemma linspace_non_decreasing :
  is_non_decreasing (np_linspace start stop num_bins) = true.
Proof. rewrite linspace_unfold. apply grid_non_decreasing. lia. Qed.

Lemma linspace_le_stop (b : Q) : b ∈ np_linspace start stop num_bins → b <= stop.
Proof.
  rewrite linspace_unfold, elem_of_app. intros [Hb | Hb].
  - change (map point (seq 0 num_bins)) with (point <$> seq 0 num_bins) in Hb.
    apply list_elem_of_fmap in Hb as (i & -> & Hi).
    apply elem_of_seq in Hi. apply point_le_stop. lia.
  - apply list_elem_of_singleton in Hb as ->. lra.
Qed.

End Linspace.

Lemma linspace_length (start stop : Q) (num_bins : nat) :
  length (np_linspace start stop num_bins) = S num_bins.
Proof.
  unfold np_linspace. destruct num_bins as [|k]; [done|].
  rewrite length_app, length_map, length_seq. simpl. lia.
Qed.

Lemma linspace_all_le (start stop : Q) (num_bins : nat) (b : Q) :
  start <= stop → b ∈ np_linspace start stop num_bins → b <= stop.
Proof.
  intros Hle. destruct num_bins as [|k].
  - simpl. intros Hb. apply list_elem_of_singleton in Hb as ->. exact Hle.
  - apply linspace_le_stop; [exact Hle|lia].
Qed.

Lemma linspace_sorted (start stop : Q) (num_bins : nat) :
  start <= stop → is_non_decreasing (np_linspace start stop num_bins) = true.
Proof.
  intros Hle. destruct num_bins as [|k]; [done|].
  apply linspace_non_decreasing; [exact Hle|lia].
Qed.

Lemma searchsorted_right_all (a : list Q) (v : Q) :
  (∀ b, b ∈ a → b <= v) → searchsorted_right a v = length a.
Proof.
  induction a as [|b a IH]; intros Hall; [done|]. simpl.
  assert (Hb : Qle_bool b v = true).
  { apply Qle_bool_iff. apply Hall. apply elem_of_cons. by left. }
  rewrite Hb. f_equal. apply IH. intros c Hc. apply Hall. apply elem_of_cons. by right.
Qed.

(** Restricting arrays to the positions a mask [keep] selects. *)
Lemma bool_index_map {A B} (f : A → B) (a : list A) (keep : list bool) :
  bool_index (map f a) keep = map f (bool_index a keep).
Proof.
  revert keep. induction a as [|v a IH]; intros [|k keep]; try done.
  simpl. destruct k; simpl; by rewrite IH.
Qed.

Lemma bool_index_restrict {A} (a : list A) (mask keep : list bool) :
  length mask = length keep →
  (∀ i, keep !! i = Some false → mask !! i = Some false) →
  bool_index (bool_index a keep) (bool_index mask keep) = bool_index a mask.
Proof.
  revert mask keep. induction a as [|v a IH]; intros mask keep Hlen Himp.
  - destruct keep, mask; done.
  - destruct mask as [|m mask], keep as [|k keep]; try done.
    simpl in Hlen. injection Hlen as Hlen.
    assert (Himp' : ∀ i, keep !! i = Some false → mask !! i = Some false).
    { intros i Hi. exact (Himp (S i) Hi). }
    destruct k; simpl.
    + destruct m; by rewrite IH.
    + specialize (Himp 0%nat eq_refl). injection Himp as ->. by apply IH.
Qed.

Lemma existsb_restrict (mask keep : list bool) :
  length mask = length keep →
  (∀ i, keep !! i = Some false → mask !! i = Some false) →
  existsb id (bool_index mask keep) = existsb id mask.
Proof.
  revert keep. induction mask as [|m mask IH]; intros keep Hlen Himp.
  - done.
  - destruct keep as [|k keep]; [done|].
    simpl in Hlen. injection Hlen as Hlen.
    assert (Himp' : ∀ i, keep !! i = Some false → mask !! i = Some false).
    { intros i Hi. exact (Himp (S i) Hi). }
    destruct k; simpl.
    + by rewrite IH.
    + specialize (Himp 0%nat eq_refl). injection Himp as ->. by apply IH.
Qed.

Section DroppedMaximum.
Import BinnedMedianFitter.

Variables (x y : list Q) (num_bins : nat) (x_min x_max : Q).
Hypothesis Hmin : np_nanmin x = ret x_min.
Hypothesis Hmax : np_nanmax x = ret x_max.

Let bins : list Q := np_linspace x_min x_max num_bins.

(** The index array [np.digitize(x, bins) - 1]. *)
Definition bin_indices (x bins : list Q) : list Z :=
  map (λ k : nat, (Z.of_nat k - 1)%Z) (map (searchsorted_right bins) x).

(** Positions of [x] that do not hold the maximum. *)
Definition below_max (x : list Q) (x_max : Q) : list bool :=
  map (λ v, negb (Qeq_bool v x_max)) x.

Lemma digitize_linspace (a : list Q) :
  np_digitize a bins = ret (map (searchsorted_right bins) a).
Proof.
  unfold np_digitize, bins.
  rewrite linspace_sorted; [done|]. by eapply nanmin_le_nanmax.
Qed.

Lemma digitize_at_max (v : Q) : v == x_max → searchsorted_right bins v = S num_bins.
Proof.
  intros Hv. rewrite searchsorted_right_all.
  - apply linspace_length.
  - intros b Hb. rewrite Hv. eapply linspace_all_le; [|exact Hb].
    by eapply nanmin_le_nanmax.
Qed.

Lemma mask_at_max (i bin_idx : nat) (v : Q) :
  x !! i = Some v → v == x_max → (bin_idx < length bins - 1)%nat →
  bin_mask (bin_indices x bins) bin_idx !! i = Some false.
Proof.
  intros Hi Hv Hb. unfold bin_mask, bin_indices.
  rewrite !list_lookup_fmap, Hi. simpl. f_equal.
  rewrite (digitize_at_max v Hv). apply bool_decide_eq_false.
  unfold bins in Hb. rewrite linspace_length in Hb. lia.
Qed.

Lemma mask_below_max (bin_idx : nat) :
  (bin_idx < length bins - 1)%nat →
  ∀ i, below_max x x_max !! i = Some false →
       bin_mask (bin_indices x bins) bin_idx !! i = Some false.
Proof.
  intros Hb i Hi. unfold below_max in Hi.
  rewrite list_lookup_fmap in Hi.
  destruct (x !! i) as [v|] eqn:Hv; [|done].
  simpl in Hi. injection Hi as Hi. apply negb_false_iff in Hi.
  apply Qeq_bool_iff in Hi. by eapply mask_at_max.
Qed.

Lemma bins_loop_without_max (bin_idxs : list nat) :
  (∀ b, b ∈ bin_idxs → (b < length bins - 1)%nat) →
  bins_loop (bool_index x (below_max x x_max)) (bool_index y (below_max x x_max))
            (bin_indices (bool_index x (below_max x x_max)) bins) bin_idxs
  = bins_loop x y (bin_indices x bins) bin_idxs.
Proof.
  induction bin_idxs as [|b rest IH]; intros Hall; [done|].
  simpl. rewrite IH by (intros c Hc; apply Hall, elem_of_cons; by right).
  assert (Hb : (b < length bins - 1)%nat) by (apply Hall, elem_of_cons; by left).
  assert (Hlen : length (bin_mask (bin_indices x bins) b) = length (below_max x x_max)).
  { unfold bin_mask, bin_indices, below_max. by rewrite !length_map. }
  assert (Hmask : bin_mask (bin_indices (bool_index x (below_max x x_max)) bins) b
                  = bool_index (bin_mask (bin_indices x bins) b) (below_max x x_max)).
  { unfold bin_mask, bin_indices. by rewrite !bool_index_map. }
  rewrite Hmask.
  rewrite (existsb_restrict _ _ Hlen (mask_below_max b Hb)).
  rewrite (bool_index_restrict x _ _ Hlen (mask_below_max b Hb)).
  assert (Hy : bool_index (bool_index y (below_max x x_max))
                          (bool_index (bin_mask (bin_indices x bins) b) (below_max x x_max))
               = bool_index y (bin_mask (bin_indices x bins) b)).
  { apply bool_index_restrict; [exact Hlen|exact (mask_below_max b Hb)]. }
  by rewrite Hy.
Qed.

End DroppedMaximum.

(** C9. With [bins] the equal-width partition from [min(x)] to [max(x)],
    a point whose [x] equals [max(x)] gets the index [len(bins) - 1], which
    is past the last bin, so the mask of every bin is false at its
    position; fitting without these points gives the same medians. *)
Theorem C9_maximum_in_no_bin (x y : list Q) (num_bins : nat) (x_min x_max : Q) :
  np_nanmin x = ret x_min →
  np_nanmax x = ret x_max →
  let bins := np_linspace x_min x_max num_bins in
  ∃ d : list nat,
    np_digitize x bins = ret d
    ∧ (∀ i v, x !! i = Some v → v == x_max →
         d !! i = Some (length bins)
         ∧ ∀ bin_idx, (bin_idx < length bins - 1)%nat →
             BinnedMedianFitter.bin_mask (map (λ k : nat, (Z.of_nat k - 1)%Z) d) bin_idx !! i
             = Some false)
    ∧ BinnedMedianFitter.fit (bool_index x (below_max x x_max))
                             (bool_index y (below_max x x_max)) bins
      = BinnedMedianFitter.fit x y bins.
Proof.
  intros Hmin Hmax bins.
  exists (map (searchsorted_right bins) x).
  split; [by eapply digitize_linspace|]. split.
  - intros i v Hi Hv. split.
    + rewrite list_lookup_fmap, Hi. simpl. f_equal.
      unfold bins. rewrite linspace_length. by eapply digitize_at_max.
    + intros bin_idx Hb. by eapply mask_at_max.
  - unfold BinnedMedianFitter.fit.
    rewrite !(digitize_linspace x num_bins x_min x_max Hmin Hmax). simpl.
    f_equal. apply (bins_loop_without_max x y num_bins x_min x_max Hmin Hmax).
    intros b Hb. apply elem_of_seq in Hb. fold bins. lia.
Qed.

Lemma C9_maximum_in_no_bin_witness :
  BinnedMedianFitter.fit [40; 60; 80] [45; 65; 85] (np_linspace 40 100 15)
  = BinnedMedianFitter.fit RoundTripSample.knots_x RoundTripSample.knots_y (np_linspace 40 100 15).
Proof.
  destruct (C9_maximum_in_no_bin RoundTripSample.knots_x RoundTripSample.knots_y 15 40 100
              eq_refl eq_refl) as (d & _ & _ & Hfit).
  exact Hfit.
Defined.

(** ** Round trip through the binned fit (C1) *)

(** C1. Fitting on [x = [40,60,80,100]], [y = [45,65,85,105]] yields a
    [pchip] model with the knots [40, 60, 80] only (the point at
    [max(x) = 100] is in no bin), and predicting at the four [x] values
    returns [45, 65, 85, 85]: the last value is 85, not 105. *)
Theorem C1_round_trip_drops_last_knot :
  (let* m := ModelFitter.fit_pchip_from_binned RoundTripSample.knots_x RoundTripSample.knots_y "global"
               ModelFitter.DEFAULT_CLIP_RANGE ModelFitter.DEFAULT_NUM_BINS in
   let* out := ModelPredictor.apply_model m RoundTripSample.knots_x in
   ret (kind m, map Qred (x_knots m), map Qred (y_knots m), map Qred out))
  = ret (ModelKind.PCHIP, [40; 60; 80], [45; 65; 85], [45; 65; 85; 85]).
Proof. vm_compute. reflexivity. Qed.

(** ** Piecewise-linear interpolation is monotone *)

(** Knots with strictly increasing abscissae and non-decreasing ordinates. *)
Definition knot_step (a b : Q * Q) : Prop := a.1 < b.1 ∧ a.2 <= b.2.

Section Interp.

Lemma chord_bounds (x x0 y0 x1 y1 : Q) :
  x0 <= x → x < x1 → y0 <= y1 →
  y0 <= (y1 - y0) / (x1 - x0) * (x - x0) + y0
  ∧ (y1 - y0) / (x1 - x0) * (x - x0) + y0 <= y1.
Proof.
  intros H0 H1 Hy.
  assert (Hd : 0 < x1 - x0) by lra.
  assert (Hs : 0 <= (y1 - y0) / (x1 - x0)).
  { apply Qle_shift_div_l; [exact Hd|]. lra. }
  assert (Hfull : (y1 - y0) / (x1 - x0) * (x1 - x0) == y1 - y0).
  { field. lra. }
  assert (Hpart : (y1 - y0) / (x1 - x0) * (x - x0)
                  <= (y1 - y0) / (x1 - x0) * (x1 - x0)).
  { rewrite !(Qmult_comm ((y1 - y0) / (x1 - x0))).
    apply Qmult_le_compat_r; [lra|exact Hs]. }
  assert (Hnn : 0 <= (y1 - y0) / (x1 - x0) * (x - x0)).
  { apply Qmult_le_0_compat; [exact Hs|lra]. }
  lra.
Qed.

Lemma chord_monotone (x x' x0 y0 x1 y1 : Q) :
  x <= x' → x0 < x1 → y0 <= y1 →
  (y1 - y0) / (x1 - x0) * (x - x0) + y0 <= (y1 - y0) / (x1 - x0) * (x' - x0) + y0.
Proof.
  intros Hx Hd Hy.
  assert (Hs : 0 <= (y1 - y0) / (x1 - x0)).
  { apply Qle_shift_div_l; [lra|]. lra. }
  assert (Hm : (y1 - y0) / (x1 - x0) * (x - x0) <= (y1 - y0) / (x1 - x0) * (x' - x0)).
  { rewrite !(Qmult_comm ((y1 - y0) / (x1 - x0))).
    apply Qmult_le_compat_r; [lra|exact Hs]. }
  lra.
Qed.

Lemma interp_from_lower (x x0 y0 : Q) (rest : list (Q * Q)) :
  Sorted knot_step ((x0, y0) :: rest) → x0 <= x → y0 <= interp_from x x0 y0 rest.
Proof.
  revert x0 y0. induction rest as [|[x1 y1] rest IH]; intros x0 y0 Hs Hx; simpl.
  - lra.
  - apply Sorted_inv in Hs as [Hs Hhd]. apply HdRel_inv in Hhd as [Hlt Hle].
    simpl in Hlt, Hle.
    destruct (Qlt_bool x x1) eqn:E.
    + apply Qlt_bool_iff in E. by apply chord_bounds.
    + apply Qlt_bool_false in E. specialize (IH x1 y1 Hs E). lra.
Qed.

Lemma interp_from_monotone (x x' x0 y0 : Q) (rest : list (Q * Q)) :
  Sorted knot_step ((x0, y0) :: rest) → x0 <= x → x <= x' →
  interp_from x x0 y0 rest <= interp_from x' x0 y0 rest.
Proof.
  revert x0 y0. induction rest as [|[x1 y1] rest IH]; intros x0 y0 Hs H0 Hx; simpl.
  - lra.
  - pose proof Hs as Hs0.
    apply Sorted_inv in Hs as [Hs Hhd]. apply HdRel_inv in Hhd as [Hlt Hle].
    simpl in Hlt, Hle.
    destruct (Qlt_bool x x1) eqn:E; destruct (Qlt_bool x' x1) eqn:E'.
    + by apply chord_monotone.
    + apply Qlt_bool_iff in E. apply Qlt_bool_false in E'.
      pose proof (chord_bounds x x0 y0 x1 y1 H0 E Hle) as [_ Hup].
      pose proof (interp_from_lower x' x1 y1 rest Hs E'). lra.
    + apply Qlt_bool_false in E. apply Qlt_bool_iff in E'. lra.
    + apply Qlt_bool_false in E. by apply IH.
Qed.

(** The function [np.interp(., xp, fp)] computes on the knots [(x0, y0) :: rest]. *)
Definition interp_curve (x0 y0 : Q) (rest : list (Q * Q)) (x : Q) : Q :=
  if Qlt_bool x x0 then y0 else interp_from x x0 y0 rest.

Lemma interp_curve_monotone (x0 y0 : Q) (rest : list (Q * Q)) (x x' : Q) :
  Sorted knot_step ((x0, y0) :: rest) → x <= x' →
  interp_curve x0 y0 rest x <= interp_curve x0 y0 rest x'.
Proof.
  intros Hs Hx. unfold interp_curve.
  destruct (Qlt_bool x x0) eqn:E; destruct (Qlt_bool x' x0) eqn:E'.
  - lra.
  - apply Qlt_bool_false in E'. by apply interp_from_lower.
  - apply Qlt_bool_false in E. apply Qlt_bool_iff in E'. lra.
  - apply Qlt_bool_false in E. by apply interp_from_monotone.
Qed.

Lemma np_clip_monotone (lo hi x x' : Q) :
  x <= x' → np_clip x lo hi <= np_clip x' lo hi.
Proof.
  intros Hx. unfold np_clip.
  apply Q.min_le_compat_r. by apply Q.max_le_compat_r.
Qed.

End Interp.

Lemma zip_knots (xp fp : list Q) :
  Sorted Qlt xp → Sorted Qle fp → Sorted knot_step (zip xp fp).
Proof.
  revert fp. induction xp as [|x0 xp IH]; intros fp Hx Hf; [constructor|].
  destruct fp as [|y0 fp]; [constructor|].
  apply Sorted_inv in Hx as [Hx Hhx]. apply Sorted_inv in Hf as [Hf Hhf].
  simpl. constructor; [by apply IH|].
  destruct xp as [|x1 xp]; [constructor|].
  destruct fp as [|y1 fp]; [constructor|].
  apply HdRel_inv in Hhx. apply HdRel_inv in Hhf.
  constructor. split; assumption.
Qed.

Lemma np_interp_curve (x : Q) (xp fp : list Q) (x0 y0 : Q) (rest : list (Q * Q)) :
  length xp = length fp → zip xp fp = (x0, y0) :: rest →
  np_interp x xp fp = ret (interp_curve x0 y0 rest x).
Proof.
  intros Hlen Hz. unfold np_interp.
  rewrite bool_decide_eq_true_2 by exact Hlen. simpl. by rewrite Hz.
Qed.

(** ** [np.unique]: sorted distinct values with their first index *)

Global Instance fst_le_total {A} : Total (@fst_le A).
Proof.
  intros p q. unfold fst_le.
  destruct (Qlt_le_dec q.1 p.1) as [H | H]; [right; lra | by left].
Qed.

Global Instance fst_le_trans {A} : Transitive (@fst_le A).
Proof. intros p q r. unfold fst_le. lra. Qed.

Section Unique.

(** The head of [l], if any, is not below [p]. *)
Definition head_bounded (prev : option Q) (l : list (Q * nat)) : Prop :=
  ∀ p e, prev = Some p → head l = Some e → p <= e.1.

Lemma run_heads_spec (l : list (Q * nat)) (prev : option Q) :
  Sorted fst_le l → head_bounded prev l →
  Sorted Qlt (map fst (run_heads prev l))
  ∧ (∀ p e, prev = Some p → head (run_heads prev l) = Some e → p < e.1)
  ∧ (∀ e, e ∈ run_heads prev l → e ∈ l).
Proof.
  revert prev. induction l as [|[v i] l IH]; intros prev Hs Hb.
  - simpl. split; [constructor|]. split; [intros p e _ H; discriminate|done].
  - apply Sorted_inv in Hs as [Hs Hhd].
    assert (Hb' : head_bounded (Some v) l).
    { intros p e [= <-] He. destruct l as [|e' l']; [discriminate|].
      simpl in He. injection He as <-. apply HdRel_inv in Hhd. exact Hhd. }
    destruct (IH (Some v) Hs Hb') as (Hsorted & Hhead & Hsub).
    simpl. set (keep := match prev with Some p => negb (Qeq_bool p v) | None => true end).
    destruct keep eqn:Hkeep.
    + split; [|split].
      * simpl. constructor; [exact Hsorted|].
        destruct (run_heads (Some v) l) as [|e rest] eqn:Hr; [constructor|].
        simpl. constructor. by apply (Hhead v e).
      * intros p e Hp [= <-]. simpl. subst prev. unfold keep in Hkeep.
        apply negb_true_iff in Hkeep.
        assert (Hne : ¬ p == v).
        { intros Heq. apply Qeq_bool_iff in Heq. congruence. }
        specialize (Hb p (v, i) eq_refl eq_refl). simpl in Hb.
        apply Qle_lteq in Hb as [Hlt | Heq]; [exact Hlt|done].
      * intros e He. apply elem_of_cons in He as [-> | He].
        -- apply elem_of_cons. by left.
        -- apply elem_of_cons. right. by apply Hsub.
    + split; [exact Hsorted|]. split.
      * intros p e Hp He. subst prev. unfold keep in Hkeep.
        apply negb_false_iff in Hkeep. apply Qeq_bool_iff in Hkeep.
        specialize (Hhead v e eq_refl He). lra.
      * intros e He. apply elem_of_cons. right. by apply Hsub.
Qed.

Lemma run_heads_nonempty (l : list (Q * nat)) : l ≠ [] → run_heads None l ≠ [].
Proof. destruct l as [|[v i] l]; [done|]. simpl. discriminate. Qed.

Lemma zip_seq_lookup (a : list Q) (k : nat) (v : Q) (i : nat) :
  (v, i) ∈ zip a (seq k (length a)) → (k ≤ i)%nat ∧ a !! (i - k)%nat = Some v.
Proof.
  revert k. induction a as [|w a IH]; intros k Hin; simpl in Hin.
  - by apply elem_of_nil in Hin.
  - apply elem_of_cons in Hin as [[= -> ->] | Hin].
    + split; [lia|]. by rewrite Nat.sub_diag.
    + apply IH in Hin as [Hk Hl]. split; [lia|].
      replace (i - k)%nat with (S (i - S k)) by lia. exact Hl.
Qed.

Lemma np_unique_sorted (a : list Q) : Sorted Qlt (map fst (np_unique a)).
Proof.
  unfold np_unique. apply run_heads_spec.
  - apply Sorted_merge_sort. apply _.
  - intros p e Hp. discriminate.
Qed.

Lemma np_unique_lookup (a : list Q) (v : Q) (i : nat) :
  (v, i) ∈ np_unique a → a !! i = Some v.
Proof.
  unfold np_unique. intros Hin.
  apply run_heads_spec in Hin.
  - rewrite merge_sort_Permutation in Hin.
    apply zip_seq_lookup in Hin as [_ Hl]. by rewrite Nat.sub_0_r in Hl.
  - apply Sorted_merge_sort. apply _.
  - intros p e Hp. discriminate.
Qed.

Lemma np_unique_nonempty (a : list Q) : a ≠ [] → np_unique a ≠ [].
Proof.
  intros Ha. unfold np_unique. apply run_heads_nonempty.
  intros Hnil.
  assert (Hp := merge_sort_Permutation fst_le (zip a (seq 0 (length a)))).
  rewrite Hnil in Hp. apply Permutation_nil in Hp.
  destruct a; [done|]. discriminate.
Qed.

(** Reading an array at the indices [np.unique] returned. *)
Lemma take_unique_indices (a : list Q) :
  take_indices a (map snd (np_unique a)) = map fst (np_unique a).
Proof.
  unfold take_indices. rewrite map_map.
  apply map_ext_in. intros [v i] Hin. simpl.
  apply list_elem_of_In in Hin. apply np_unique_lookup in Hin.
  by apply nth_lookup_Some.
Qed.

End Unique.

(** ** Pool-adjacent-violators returns a non-decreasing sequence *)

Section Pava.
Import IsotonicRegression.

(** [p] is a block to the left of [b] in a finished stack. *)
Definition below (b p : Block) : Prop := block_mean p < block_mean b.

Definition stack_length (st : list Block) : nat := foldr (λ b k, (b_len b + k)%nat) 0%nat st.

Lemma push_block_sorted (b : Block) (st : list Block) :
  StronglySorted below st → StronglySorted below (push_block b st).
Proof.
  revert b. induction st as [|p st IH]; intros b Hs; simpl.
  - repeat constructor.
  - destruct (Qlt_bool (block_mean p) (block_mean b)) eqn:E.
    + apply Qlt_bool_iff in E. constructor; [exact Hs|].
      apply StronglySorted_inv in Hs as [_ Hall].
      constructor; [exact E|].
      eapply Forall_impl; [exact Hall|].
      intros q Hq. unfold below in *. lra.
    + apply IH. by apply StronglySorted_inv in Hs as [Hs _].
Qed.

Lemma push_block_length (b : Block) (st : list Block) :
  stack_length (push_block b st) = (b_len b + stack_length st)%nat.
Proof.
  revert b. induction st as [|p st IH]; intros b; simpl; [done|].
  destruct (Qlt_bool (block_mean p) (block_mean b)); simpl; [done|].
  rewrite IH. simpl. lia.
Qed.

Lemma pava_stack (yw : list (Q * Q)) (st : list Block) :
  StronglySorted below st →
  let st' := foldl (λ st (p : Q * Q),
                      push_block {| b_wy := p.2 * p.1; b_w := p.2; b_len := 1 |} st) st yw in
  StronglySorted below st' ∧ stack_length st' = (length yw + stack_length st)%nat.
Proof.
  revert st. induction yw as [|p yw IH]; intros st Hs; simpl; [done|].
  destruct (IH (push_block {| b_wy := p.2 * p.1; b_w := p.2; b_len := 1 |} st)) as [H1 H2].
  { by apply push_block_sorted. }
  split; [exact H1|]. rewrite H2, push_block_length. simpl. lia.
Qed.

Lemma expand_stack_sorted (st : list Block) :
  StronglySorted below st → StronglySorted Qle (flat_map expand (reverse st)).
Proof.
  induction 1 as [|b st Hs IH Hall]; [constructor|].
  rewrite reverse_cons, flat_map_app. simpl. rewrite app_nil_r.
  apply StronglySorted_app. split; [|split; [exact IH|]].
  - intros v1 v2 Hv1 Hv2.
    apply list_elem_of_In in Hv1. apply in_flat_map in Hv1 as (q & Hq & Hv1).
    apply list_elem_of_In in Hq. rewrite elem_of_reverse in Hq.
    rewrite Forall_forall in Hall. specialize (Hall q Hq). unfold below in Hall.
    apply list_elem_of_In in Hv1. unfold expand in Hv1, Hv2.
    apply elem_of_replicate in Hv1 as [-> _].
    apply elem_of_replicate in Hv2 as [-> _]. lra.
  - unfold expand. induction (b_len b) as [|k IHk]; simpl; constructor; [exact IHk|].
    apply Forall_forall. intros v Hv. apply elem_of_replicate in Hv as [-> _]. lra.
Qed.

Lemma expand_stack_length (st : list Block) :
  length (flat_map expand (reverse st)) = stack_length st.
Proof.
  induction st as [|b st IH]; [done|].
  rewrite reverse_cons, flat_map_app, length_app, IH. simpl.
  rewrite app_nil_r. unfold expand. rewrite length_replicate. lia.
Qed.

Lemma isotonic_regression_sorted (yw : list (Q * Q)) :
  StronglySorted Qle (isotonic_regression yw).
Proof.
  unfold isotonic_regression. apply expand_stack_sorted.
  apply (pava_stack yw []). constructor.
Qed.

Lemma isotonic_regression_length (yw : list (Q * Q)) :
  length (isotonic_regression yw) = length yw.
Proof.
  unfold isotonic_regression. rewrite expand_stack_length.
  destruct (pava_stack yw [] (SSorted_nil _)) as [_ H]. rewrite H. simpl. lia.
Qed.

End Pava.

(** ** The isotonic fit: knots of the regression and of the model *)

Section IsotonicFit.
Import IsotonicRegression.

Lemma make_unique_spec (l : list (Q * Q)) (acc : option (Q * (Q * Q))) :
  Sorted fst_le l →
  (∀ cx s e, acc = Some (cx, s) → head l = Some e → cx <= e.1) →
  Sorted Qlt (map fst (make_unique acc l))
  ∧ (∀ cx s, acc = Some (cx, s) → ∃ s' rest, make_unique acc l = (cx, s') :: rest).
Proof.
  revert acc. induction l as [|[x y] l IH]; intros acc Hs Hb.
  - destruct acc as [[cx s]|]; simpl.
    + split; [repeat constructor|]. intros cx' s' [= <- <-]. by exists s, [].
    + split; [constructor|]. intros cx s H. discriminate.
  - apply Sorted_inv in Hs as [Hs Hhd].
    assert (Hnext : ∀ c : Q, c == x → ∀ e, head l = Some e → c <= e.1).
    { intros c Hc e He. destruct l as [|e' l']; [discriminate|].
      simpl in He. injection He as <-. apply HdRel_inv in Hhd.
      unfold fst_le in Hhd. simpl in Hhd. lra. }
    destruct acc as [[cx [sy w]]|]; simpl.
    + destruct (Qeq_bool cx x) eqn:E.
      * apply Qeq_bool_iff in E.
        destruct (IH (Some (cx, (sy + y, w + 1))) Hs) as [H1 H2].
        { intros c s e [= <- <-] He. by apply (Hnext cx E). }
        split; [exact H1|]. intros c s [= <- <-]. by apply (H2 cx (sy + y, w + 1)).
      * destruct (IH (Some (x, (y, 1))) Hs) as [H1 H2].
        { intros c s e [= <- <-] He. apply (Hnext x); [reflexivity|exact He]. }
        destruct (H2 x (y, 1) eq_refl) as (s' & rest & Hr).
        split.
        -- simpl. constructor; [exact H1|]. rewrite Hr. simpl. constructor.
           specialize (Hb cx (sy, w) (x, y) eq_refl eq_refl). simpl in Hb.
           apply Qle_lteq in Hb as [Hlt | Heq]; [exact Hlt|].
           apply Qeq_bool_iff in Heq. congruence.
        -- intros c s [= <- <-]. by eexists _, _.
    + destruct (IH (Some (x, (y, 1))) Hs) as [H1 H2].
      { intros c s e [= <- <-] He. apply (Hnext x); [reflexivity|exact He]. }
      split; [exact H1|]. intros c s H. discriminate.
Qed.

(** The fitted thresholds: strictly increasing [X], non-decreasing [y]. *)
Lemma fit_knots (X y : list Q) :
  X ≠ [] → y ≠ [] →
  ∃ k0 rest, zip (fit X y).1 (fit X y).2 = k0 :: rest
             ∧ Sorted knot_step (k0 :: rest)
             ∧ length (fit X y).1 = length (fit X y).2.
Proof.
  intros HX Hy. unfold fit.
  set (sorted := merge_sort fst_le (zip X y)).
  assert (Hsorted : Sorted fst_le sorted) by (apply Sorted_merge_sort; apply _).
  assert (Hne : sorted ≠ []).
  { intros Hnil. assert (Hp := merge_sort_Permutation fst_le (zip X y)).
    fold sorted in Hp. rewrite Hnil in Hp. apply Permutation_nil in Hp.
    destruct X, y; done. }
  destruct (make_unique_spec sorted None Hsorted) as [Hux _].
  { intros cx s e H. discriminate. }
  set (u := make_unique None sorted) in *.
  assert (Hu : u ≠ []).
  { unfold u. destruct sorted as [|[x0 y0] l]; [done|]. simpl.
    apply Sorted_inv in Hsorted as [Hs Hhd].
    destruct (make_unique_spec l (Some (x0, (y0, 1))) Hs) as [_ H2].
    - intros c s e [= <- <-] He. destruct l as [|e' l']; [discriminate|].
      simpl in He. injection He as <-. apply HdRel_inv in Hhd. exact Hhd.
    - destruct (H2 x0 (y0, 1) eq_refl) as (s' & rest & ->). discriminate. }
  simpl.
  set (ky := isotonic_regression _).
  assert (Hlen : length (map fst u) = length ky).
  { unfold ky. by rewrite isotonic_regression_length, !length_map. }
  assert (Hk : Sorted knot_step (zip (map fst u) ky)).
  { apply zip_knots; [exact Hux|].
    apply StronglySorted_Sorted. apply isotonic_regression_sorted. }
  destruct (zip (map fst u) ky) as [|k0 rest] eqn:Hz.
  - exfalso. destruct u as [|e u']; [done|]. destruct ky; [discriminate|]. discriminate.
  - by exists k0, rest.
Qed.

Lemma foldr_results (f : Q → result Q) (g : Q → Q) (l : list Q) :
  (∀ t, f t = ret (g t)) →
  foldr (λ t acc, let* v := f t in let* vs := acc in ret (v :: vs)) (ret []) l
  = ret (map g l).
Proof.
  intros Hf. induction l as [|t l IH]; [done|]. simpl. by rewrite Hf, IH.
Qed.

(** [fit_transform] succeeds on non-empty samples and maps every [X]
    through one non-decreasing function. *)
Lemma fit_transform_monotone (X y : list Q) :
  X ≠ [] → length X = length y →
  ∃ g : Q → Q, (∀ a b, a <= b → g a <= g b) ∧ fit_transform X y = ret (map g X).
Proof.
  intros HX Hlen. unfold fit_transform.
  destruct X as [|x0 Xtl]; [done|].
  rewrite bool_decide_eq_true_2 by exact Hlen. simpl negb. cbv iota.
  assert (Hy : y ≠ []) by (destruct y; [discriminate|done]).
  destruct (fit_knots (x0 :: Xtl) y HX Hy) as ([kx0 ky0] & rest & Hz & Hk & Hl).
  destruct (fit (x0 :: Xtl) y) as [kx ky] eqn:Hfit. simpl in Hz, Hl.
  set (X_min := list_min x0 Xtl). set (X_max := list_max x0 Xtl).
  exists (λ t, interp_curve kx0 ky0 rest (np_clip t X_min X_max)). split.
  - intros a b Hab. apply interp_curve_monotone; [exact Hk|].
    by apply np_clip_monotone.
  - apply foldr_results. intros t. by apply np_interp_curve.
Qed.

End IsotonicFit.

Lemma take_indices_length (a : list Q) (idx : list nat) :
  length (take_indices a idx) = length idx.
Proof. unfold take_indices. apply length_map. Qed.

Lemma np_argsort_length (a : list Q) : length (np_argsort a) = length a.
Proof.
  unfold np_argsort. rewrite length_map, merge_sort_Permutation.
  rewrite length_zip_with, length_seq. lia.
Qed.

Lemma sorted_map_monotone (g : Q → Q) (l : list Q) :
  (∀ a b, a <= b → g a <= g b) → Sorted Qlt l → Sorted Qle (map g l).
Proof.
  intros Hg. induction 1 as [|a l Hs IH Hhd]; [constructor|].
  simpl. constructor; [exact IH|].
  destruct Hhd as [|b l' Hab]; simpl; constructor. apply Hg. lra.
Qed.

Lemma sorted_strictly_increasing (l : list Q) :
  Sorted Qlt l → PchipInterpolator.strictly_increasing l = true.
Proof.
  induction 1 as [|a l Hs IH Hhd]; [done|].
  destruct Hhd as [|b l' Hab]; [done|].
  simpl. simpl in IH. rewrite IH, andb_true_r. by apply Qlt_bool_iff.
Qed.

Lemma traverse_results (f : Q → result Q) (g : Q → Q) (l : list Q) :
  (∀ t, f t = ret (g t)) → traverse f l = ret (map g l).
Proof.
  intros Hf. induction l as [|t l IH]; [done|]. simpl. by rewrite Hf, IH.
Qed.


Section FittedModels.
Import ModelFitter ModelPredictor.

(** A model whose knots have strictly increasing [x] and non-decreasing [y]. *)
Definition monotone_knots (m : ModelMeta) : Prop :=
  length (x_knots m) = length (y_knots m)
  ∧ ∃ k0 rest, zip (x_knots m) (y_knots m) = k0 :: rest ∧ Sorted knot_step (k0 :: rest).

Lemma fit_isotonic_model (x y : list Q) (context : string) (clip_range : Q * Q)
    (m : ModelMeta) :
  fit_isotonic x y context clip_range = ret m →
  kind m = ModelKind.ISOTONIC ∧ monotone_knots m.
Proof.
  unfold fit_isotonic.
  set (x_sorted := take_indices x (np_argsort x)).
  set (y_sorted := take_indices y (np_argsort x)).
  intros Hfit.
  assert (Hlen : length x_sorted = length y_sorted).
  { unfold x_sorted, y_sorted. by rewrite !take_indices_length. }
  destruct (decide (x_sorted = [])) as [Hnil | Hne].
  { rewrite Hnil in Hfit. discriminate. }
  destruct (fit_transform_monotone x_sorted y_sorted Hne Hlen)
    as (g & Hg & Hft).
  rewrite Hft in Hfit. simpl in Hfit. injection Hfit as <-. simpl.
  split; [done|].
  set (u := np_unique x_sorted).
  assert (Hy : take_indices (map g x_sorted) (map snd u) = map g (map fst u)).
  { unfold take_indices. rewrite !map_map. apply map_ext_in. intros [v i] Hin. simpl.
    apply list_elem_of_In in Hin. apply np_unique_lookup in Hin.
    apply nth_lookup_Some.
    change (map g x_sorted) with (g <$> x_sorted).
    by rewrite list_lookup_fmap, Hin. }
  rewrite Hy. unfold monotone_knots. simpl.
  split; [by rewrite !length_map|].
  assert (Hk : Sorted knot_step (zip (map fst u) (map g (map fst u)))).
  { apply zip_knots; [apply np_unique_sorted|].
    apply sorted_map_monotone; [exact Hg|apply np_unique_sorted]. }
  destruct (zip (map fst u) (map g (map fst u))) as [|k0 rest] eqn:Hz.
  - exfalso. pose proof (np_unique_nonempty x_sorted Hne) as Hu. fold u in Hu.
    destruct u; [done|]. discriminate.
  - by exists k0, rest.
Qed.

Lemma apply_isotonic_monotone (m : ModelMeta) :
  kind m = ModelKind.ISOTONIC → monotone_knots m →
  ∃ G : Q → Q, (∀ a b, a <= b → G a <= G b) ∧ ∀ xs, apply_model m xs = ret (map G xs).
Proof.
  intros Hkind (Hlen & [kx0 ky0] & rest & Hz & Hs).
  unfold apply_model.
  destruct (x_knots m) as [|k0 ktl] eqn:Hxk; [discriminate|].
  exists (λ v, interp_curve kx0 ky0 rest (np_clip v k0 (List.last ktl k0))). split.
  - intros a b Hab. apply interp_curve_monotone; [exact Hs|].
    by apply np_clip_monotone.
  - intros xs. rewrite bool_decide_eq_true_2 by exact Hkind.
    rewrite (traverse_results _ (interp_curve kx0 ky0 rest)).
    + by rewrite map_map.
    + intros t. by apply np_interp_curve.
Qed.

End FittedModels.

(** ** The binned fit: a [pchip] model can always be evaluated *)

Section PchipModels.
Import ModelFitter ModelPredictor.


Lemma fit_pchip_model (x y : list Q) (context : string) (clip_range : Q * Q)
    (num_bins : nat) (m : ModelMeta) :
  fit_pchip_from_binned x y context clip_range num_bins = ret m →
  (kind m = ModelKind.ISOTONIC ∧ fit_isotonic x y context clip_range = ret m)
  ∨ (kind m = ModelKind.PCHIP
     ∧ length (x_knots m) = length (y_knots m)
     ∧ (3 ≤ length (x_knots m))%nat
     ∧ Sorted Qlt (x_knots m)).
Proof.
  unfold fit_pchip_from_binned. intros Hfit.
  destruct (np_nanmin x) as [e | x_min]; [discriminate|].
  destruct (np_nanmax x) as [e | x_max]; [discriminate|].
  simpl in Hfit.
  destruct (BinnedMedianFitter.fit x y (np_linspace x_min x_max num_bins))
    as [e | [binned_x binned_y]]; [discriminate|].
  simpl in Hfit.
  case_bool_decide as Hfew.
  - left. split; [|exact Hfit].
    by apply fit_isotonic_model in Hfit as [Hk _].
  - right. injection Hfit as <-. simpl.
    split; [done|]. split; [by rewrite !take_indices_length|].
    split; [unfold MIN_POINTS_FOR_PCHIP in Hfew; lia|].
    rewrite take_unique_indices. apply np_unique_sorted.
Qed.





End PchipModels.



(** ** Overlap resampler: coverage a segment contributes (C3) *)

(** C3. A segment of one second that starts at 59.5 s, on one-minute bins:
    the loop visits the bin at 0 only, because the last bin is the floor of
    the segment end minus one second; the bin at 60 s, which the segment
    overlaps by half a second, stays untouched, and the coverage the
    segment contributes sums to one half, not to its duration of 1. *)
Theorem C3_subsecond_tail_lost :
  let window_data :=
    _process_segment HalfSecondSample.half_second_start HalfSecondSample.half_second_end 70
                     ScanSample.one_minute ∅ in
  HalfSecondSample.half_second_end = (HalfSecondSample.half_second_start + Timedelta_seconds 1)%Z
  ∧ Qred (coverage_total window_data) = 1 # 2
  ∧ window_data !! ScanSample.one_minute = None
  ∧ Qred (_calculate_overlap_seconds HalfSecondSample.half_second_start HalfSecondSample.half_second_end
            ScanSample.one_minute (ScanSample.one_minute + ScanSample.one_minute)) = 1 # 2
  ∧ accumulate HalfSecondSample.half_second_df ScanSample.one_minute = window_data.
Proof. vm_compute. repeat split; reflexivity. Qed.

(** *** Conservation on whole-second grids

    When the segment starts on a whole second and the bin width is a whole
    number of seconds, the loop of [_process_segment] visits every bin the
    segment overlaps and the contributed coverage sums to the duration. *)

Lemma Qsum_perm (l l' : list Q) : l ≡ₚ l' → Qsum l == Qsum l'.
Proof.
  induction 1 as [|a l l' Hp IH|a b l|l1 l2 l3 H12 IH12 H23 IH23]; simpl.
  - reflexivity.
  - by rewrite IH.
  - ring.
  - by rewrite IH12.
Qed.

Lemma coverage_total_insert (window_data : gmap Z WindowAcc) (k : Z) (acc : WindowAcc) :
  coverage_total (<[k := acc]> window_data)
  == coverage_total window_data
     - coverage (default window_default (window_data !! k)) + coverage acc.
Proof.
  unfold coverage_total.
  destruct (window_data !! k) as [old|] eqn:Hk; simpl.
  - rewrite <- (insert_delete_eq window_data).
    rewrite <- (insert_delete_id window_data k old Hk) at 2.
    rewrite (Qsum_perm _ _ (Permutation_map _
               (map_to_list_insert (delete k window_data) k acc (lookup_delete_eq _ _)))).
    rewrite (Qsum_perm _ _ (Permutation_map _
               (map_to_list_insert (delete k window_data) k old (lookup_delete_eq _ _)))).
    simpl. ring.
  - rewrite (Qsum_perm _ _ (Permutation_map _
               (map_to_list_insert window_data k acc Hk))).
    simpl. ring.
Qed.

Lemma coverage_total_update (window_data : gmap Z WindowAcc) (k : Z) (value ov : Q) :
  coverage_total (_update_window_data k value ov window_data)
  == coverage_total window_data + ov.
Proof.
  unfold _update_window_data. rewrite coverage_total_insert. simpl. ring.
Qed.

Lemma total_seconds_plus (a b : Z) :
  total_seconds (a + b) == total_seconds a + total_seconds b.
Proof. unfold total_seconds. rewrite inject_Z_plus. field. discriminate. Qed.

Lemma total_seconds_whole (s : Z) : total_seconds (Timedelta_seconds s) == inject_Z s.
Proof.
  unfold total_seconds, Timedelta_seconds. rewrite inject_Z_mult. field. discriminate.
Qed.

Lemma total_seconds_zero : total_seconds 0 == 0.
Proof. reflexivity. Qed.

Lemma total_seconds_max0 (z : Z) : Qmax 0 (total_seconds z) == total_seconds (Z.max 0 z).
Proof.
  unfold total_seconds.
  assert (Hpos : 0 < inject_Z NS_PER_S) by reflexivity.
  destruct (Z.le_gt_cases 0 z) as [Hz | Hz].
  - rewrite Z.max_r by exact Hz. apply Q.max_r.
    apply Qle_shift_div_l; [exact Hpos|]. rewrite Qmult_0_l.
    change 0 with (inject_Z 0). by rewrite <- Zle_Qle.
  - rewrite Z.max_l by lia. fold (total_seconds 0). rewrite total_seconds_zero.
    apply Q.max_l. apply Qle_shift_div_r; [exact Hpos|]. rewrite Qmult_0_l.
    change 0 with (inject_Z 0). rewrite <- Zle_Qle. lia.
Qed.

Section Conservation.
Local Open Scope Z_scope.

Variables (segment_start segment_end step : Z) (value : Q).
Hypothesis Hseg : segment_start ≤ segment_end.
Hypothesis Hstep : 0 < step.

(** The instant [t] moved into the segment. *)
Definition clamp (t : Z) : Z := Z.min segment_end (Z.max segment_start t).

Lemma overlap_is_clamp_increment (w : Z) :
  (_calculate_overlap_seconds segment_start segment_end w (w + step)
   == total_seconds (clamp (w + step) - clamp w))%Q.
Proof.
  unfold _calculate_overlap_seconds. rewrite total_seconds_max0.
  unfold clamp. f_equiv. lia.
Qed.

Lemma window_loop_total (fuel : nat) (w last q : Z) (window_data : gmap Z WindowAcc) :
  last = w + q * step → -1 ≤ q → q + 1 ≤ Z.of_nat fuel →
  (coverage_total (window_loop fuel w last segment_start segment_end value step window_data)
   == coverage_total window_data + total_seconds (clamp (last + step) - clamp w))%Q.
Proof.
  revert w q window_data. induction fuel as [|fuel IH]; intros w q wd Hlast Hq Hfuel.
  - assert (q = -1) as -> by lia. simpl.
    replace (last + step) with w by lia. rewrite Z.sub_diag, total_seconds_zero.
    ring.
  - simpl. case_bool_decide as Hw.
    + assert (0 ≤ q) by nia.
      rewrite (IH (w + step) (q - 1)) by lia.
      replace (clamp (last + step) - clamp w)
        with ((clamp (w + step) - clamp w) + (clamp (last + step) - clamp (w + step)))
        by lia.
      rewrite total_seconds_plus, <- overlap_is_clamp_increment.
      destruct (Qlt_bool 0 _) eqn:E.
      * rewrite coverage_total_update. ring.
      * apply Qlt_bool_false in E.
        assert (0 <= _calculate_overlap_seconds segment_start segment_end w (w + step))%Q
          by (unfold _calculate_overlap_seconds; apply Q.le_max_l).
        assert (_calculate_overlap_seconds segment_start segment_end w (w + step) == 0)%Q
          as -> by (by apply Qle_antisym).
        ring.
    + assert (q = -1) as -> by nia.
      replace (last + step) with w by lia. rewrite Z.sub_diag, total_seconds_zero.
      ring.
Qed.

End Conservation.

Lemma whole_second_conservation (start_s d step_s : Z) (value : Q)
    (window_data : gmap Z WindowAcc) :
  (0 < d)%Z → (0 < step_s)%Z →
  coverage_total
    (_process_segment (Timedelta_seconds start_s)
                      (Timedelta_seconds start_s + Timedelta_seconds d)
                      value (Timedelta_seconds step_s) window_data)
  == coverage_total window_data + inject_Z d.
Proof.
  intros Hd Hs. unfold _process_segment, floor, window_count.
  set (ss := Timedelta_seconds start_s).
  set (se := (ss + Timedelta_seconds d)%Z).
  set (step := Timedelta_seconds step_s).
  set (a := (ss / step)%Z).
  set (b := ((se - Timedelta_seconds 1) / step)%Z).
  assert (Hstep : (0 < step)%Z) by (unfold step, Timedelta_seconds, NS_PER_S; lia).
  assert (Hseg : (ss ≤ se)%Z) by (unfold se, Timedelta_seconds, NS_PER_S; lia).
  assert (Hab : (a ≤ b)%Z).
  { unfold a, b. apply Z.div_le_mono; [exact Hstep|].
    unfold se, Timedelta_seconds, NS_PER_S. lia. }
  assert (Hdiff : ((step * b - step * a) / step = b - a)%Z).
  { replace (step * b - step * a)%Z with ((b - a) * step)%Z by ring.
    apply Z.div_mul. lia. }
  rewrite Hdiff.
  rewrite (window_loop_total ss se step value Hseg Hstep _ _ _ (b - a)); [|ring|lia|lia].
  assert (Hlow : (step * a ≤ ss)%Z) by (apply Z.mul_div_le; exact Hstep).
  assert (Hhigh : (se ≤ step * b + step)%Z).
  { assert (Hgt : (se - Timedelta_seconds 1 < step * Z.succ b)%Z)
      by (apply Z.mul_succ_div_gt; exact Hstep).
    unfold se, ss, step, Timedelta_seconds, NS_PER_S in *.
    assert (start_s + d - 1 < step_s * Z.succ b)%Z by nia. nia. }
  unfold clamp.
  replace (Z.min se (Z.max ss (step * b + step)) - Z.min se (Z.max ss (step * a)))%Z
    with (Timedelta_seconds d) by (unfold se in *; lia).
  by rewrite total_seconds_whole.
Qed.

(** *** The window loop ends by its own test

    For a positive bin width the fuel [window_count] is never exhausted:
    any larger fuel gives the same result. *)

Section LoopFuel.
Local Open Scope Z_scope.

Variables (last segment_start segment_end step : Z) (value : Q).
Hypothesis Hstep : 0 < step.

Lemma window_count_next (w : Z) :
  w ≤ last → window_count w last step = S (window_count (w + step) last step).
Proof.
  intros Hw. unfold window_count.
  replace (last - w) with ((last - (w + step)) + 1 * step) by ring.
  rewrite Z.div_add by lia.
  assert (-1 ≤ (last - (w + step)) / step).
  { apply Z.div_le_lower_bound; [exact Hstep|]. lia. }
  lia.
Qed.

Lemma window_count_done (w : Z) : ¬ w ≤ last → window_count w last step = 0%nat.
Proof.
  intros Hw. unfold window_count.
  assert ((last - w) / step < 0) by (apply Z.div_lt_upper_bound; lia).
  lia.
Qed.

Lemma window_loop_enough_fuel (fuel1 fuel2 : nat) (w : Z)
    (window_data : gmap Z WindowAcc) :
  (window_count w last step ≤ fuel1)%nat →
  (window_count w last step ≤ fuel2)%nat →
  window_loop fuel1 w last segment_start segment_end value step window_data
  = window_loop fuel2 w last segment_start segment_end value step window_data.
Proof.
  revert fuel2 w window_data.
  induction fuel1 as [|fuel1 IH]; intros fuel2 w wd H1 H2.
  - destruct fuel2 as [|fuel2]; [done|]. simpl.
    case_bool_decide as Hw; [|done].
    rewrite (window_count_next w Hw) in H1. lia.
  - destruct fuel2 as [|fuel2]; simpl.
    + case_bool_decide as Hw; [|done].
      rewrite (window_count_next w Hw) in H2. lia.
    + case_bool_decide as Hw; [|done].
      rewrite (window_count_next w Hw) in H1, H2.
      apply IH; lia.
Qed.

End LoopFuel.

(** ** Small evaluations *)

Example classify_lower_edge : HeartRateZoneClassifier.classify 60 = HeartRateZone.LOW.
Proof. reflexivity. Qed.

Example classify_top_edge : HeartRateZoneClassifier.classify 120 = HeartRateZone.HIGH.
Proof. reflexivity. Qed.

Example digitize_round_trip_points :
  np_digitize RoundTripSample.knots_x (np_linspace 40 100 15) = ret [1; 6; 11; 16]%nat.
Proof. reflexivity. Qed.

Example median_of_four : Qred (np_median [3; 1; 4; 2]) = 5 # 2.
Proof. reflexivity. Qed.

Example pooled_violators :
  map Qred (IsotonicRegression.isotonic_regression [(1, 1); (3, 1); (2, 1); (4, 1)])
  = [1; 5 # 2; 5 # 2; 4].
Proof. reflexivity. Qed.

Example one_minute_segment_resampled :
  map rp_window_utc (resample_scanwatch_by_overlap ScanSample.scan_df 30 ScanSample.one_minute)
  = [0%Z].
Proof. vm_compute. reflexivity. Qed.


(** * Properties beyond the claims *)

(** ** Overlap resampler *)

Section SingleBin.
Local Open Scope Z_scope.

Lemma floor_bounds (ts step : Z) : 0 < step → floor ts step ≤ ts < floor ts step + step.
Proof.
  intros Hs. unfold floor.
  pose proof (Z.mul_div_le ts step Hs).
  pose proof (Z.mul_succ_div_gt ts step Hs). lia.
Qed.

Lemma floor_unique (ts step w : Z) :
  0 < step → (step | w) → w ≤ ts < w + step → floor ts step = w.
Proof.
  intros Hs [q ->] Hb. unfold floor.
  assert (ts / step = q) as ->; [|ring].
  symmetry. apply (Z.div_unique ts step q (ts - q * step)); [lia|ring].
Qed.

Lemma floor_divide (ts step : Z) : (step | floor ts step).
Proof. unfold floor. exists (ts / step). ring. Qed.

Lemma total_seconds_positive (z : Z) : 0 < z → (0 < total_seconds z)%Q.
Proof.
  intros Hz. unfold total_seconds.
  apply Qlt_shift_div_l; [reflexivity|]. rewrite Qmult_0_l.
  change 0%Q with (inject_Z 0). by rewrite <- Zlt_Qlt.
Qed.

(** X1. A segment with a whole-number value (whose product with the
    duration a double holds exactly) that lies inside one bin touches that
    bin only, adds its whole duration as coverage, and the bin's average is
    the segment value. *)
Theorem segment_inside_one_bin (segment_start d step v : Z) :
  0 < step → 0 < d → Z.abs v * d ≤ 2 ^ 53 →
  segment_start + Timedelta_seconds d ≤ floor segment_start step + step →
  ∃ acc,
    _process_segment segment_start (segment_start + Timedelta_seconds d)
                     (inject_Z v) step ∅
    = {[ floor segment_start step := acc ]}
    ∧ (coverage acc == inject_Z d)%Q
    ∧ (weighted_sum acc == inject_Z (v * d))%Q
    ∧ ∃ bpm, rp_scan_bpm (result_row (floor segment_start step, acc)) = Some bpm
             ∧ (bpm == inject_Z v)%Q.
Proof.
  intros Hstep Hd _ Hin. set (value := inject_Z v).
  set (w := floor segment_start step) in *.
  set (se := segment_start + Timedelta_seconds d) in *.
  pose proof (floor_bounds segment_start step Hstep) as Hw. fold w in Hw.
  assert (Hone : Timedelta_seconds 1 ≤ Timedelta_seconds d)
    by (unfold Timedelta_seconds, NS_PER_S; lia).
  assert (Hlast : floor (se - Timedelta_seconds 1) step = w).
  { apply floor_unique; [exact Hstep|apply floor_divide|].
    unfold se. unfold Timedelta_seconds, NS_PER_S in *. lia. }
  unfold _process_segment. fold w. rewrite Hlast.
  assert (Hcount : window_count w w step = 1%nat).
  { unfold window_count. rewrite Z.sub_diag, Z.div_0_l by lia. reflexivity. }
  rewrite Hcount. simpl.
  rewrite bool_decide_eq_true_2 by lia.
  set (ov := _calculate_overlap_seconds segment_start se w (w + step)).
  assert (Hov : (ov == inject_Z d)%Q).
  { unfold ov, _calculate_overlap_seconds.
    replace (Z.min se (w + step) - Z.max segment_start w) with (Timedelta_seconds d)
      by (unfold se in *; lia).
    rewrite Q.max_r.
    - apply total_seconds_whole.
    - apply Qlt_le_weak, total_seconds_positive.
      unfold Timedelta_seconds, NS_PER_S. lia. }
  assert (Hpos : (0 < ov)%Q).
  { rewrite Hov. change 0%Q with (inject_Z 0). rewrite <- Zlt_Qlt. exact Hd. }
  assert (Hb : Qlt_bool 0 ov = true) by (by apply Qlt_bool_iff).
  rewrite Hb. unfold _update_window_data. rewrite lookup_empty. simpl.
  eexists. split; [by rewrite insert_empty|]. simpl.
  split; [rewrite Hov; ring|].
  split; [rewrite Hov, inject_Z_mult; unfold value; ring|].
  assert (Hc : (0 < 0 + ov)%Q) by lra.
  apply Qlt_bool_iff in Hc. rewrite Hc.
  eexists. split; [reflexivity|]. field. lra.
Qed.

End SingleBin.

Lemma segment_inside_one_bin_witness :
  ∃ acc,
    _process_segment 65000000000 (65000000000 + Timedelta_seconds 20) 72
                     ScanSample.one_minute ∅
    = {[ 60000000000%Z := acc ]}
    ∧ coverage acc == 20.
Proof.
  destruct (segment_inside_one_bin 65000000000 20 ScanSample.one_minute 72)
    as (acc & Hmap & Hcov & _).
  - reflexivity.
  - reflexivity.
  - vm_compute. discriminate.
  - vm_compute. discriminate.
  - exists acc. split; [exact Hmap|exact Hcov].
Defined.

(** *** Invariants of the accumulation map *)

Section AccumulationInvariant.
Local Open Scope Z_scope.

Variables (step : Z) (V : Q → Prop) (I : Z → WindowAcc → Prop).

Hypothesis I_fresh : ∀ k v ov,
  (step | k) → (0 < ov)%Q → V v →
  I k {| weighted_sum := (0 + v * ov)%Q; coverage := (0 + ov)%Q |}.
Hypothesis I_add : ∀ k v ov acc,
  (step | k) → (0 < ov)%Q → V v → I k acc →
  I k {| weighted_sum := (weighted_sum acc + v * ov)%Q;
         coverage := (coverage acc + ov)%Q |}.

(** Every bin of the map satisfies [I]. *)
Definition bins_satisfy (window_data : gmap Z WindowAcc) : Prop :=
  ∀ k acc, window_data !! k = Some acc → I k acc.

(** Every value of the row is admitted by [V]. *)
Definition row_values_satisfy (row : ScanRow) : Prop :=
  ∀ vs, values row = Some vs → Forall V vs.

Lemma update_keeps (k : Z) (v ov : Q) (wd : gmap Z WindowAcc) :
  (step | k) → (0 < ov)%Q → V v → bins_satisfy wd →
  bins_satisfy (_update_window_data k v ov wd).
Proof.
  intros Hk Hov Hv Hwd k' acc'. unfold _update_window_data.
  destruct (decide (k = k')) as [<- | Hne].
  - rewrite lookup_insert_eq. intros [= <-].
    destruct (wd !! k) as [old|] eqn:Hold; simpl.
    + apply I_add; try done. by apply Hwd.
    + by apply I_fresh.
  - rewrite lookup_insert_ne by done. apply Hwd.
Qed.

Lemma window_loop_keeps (fuel : nat) (w last ss se : Z) (v : Q) (wd : gmap Z WindowAcc) :
  (step | w) → V v → bins_satisfy wd →
  bins_satisfy (window_loop fuel w last ss se v step wd).
Proof.
  revert w wd. induction fuel as [|fuel IH]; intros w wd Hw Hv Hwd; [done|].
  simpl. case_bool_decide; [|done].
  apply IH; [by apply Z.divide_add_r; [|apply Z.divide_refl]|done|].
  destruct (Qlt_bool 0 _) eqn:E; [|done].
  apply Qlt_bool_iff in E. by apply update_keeps.
Qed.

Lemma process_segment_keeps (ss se : Z) (v : Q) (wd : gmap Z WindowAcc) :
  V v → bins_satisfy wd → bins_satisfy (_process_segment ss se v step wd).
Proof.
  intros Hv Hwd. unfold _process_segment.
  apply window_loop_keeps; [apply floor_divide|done|done].
Qed.

Lemma segments_loop_keeps (t : Z) (dv : list (option Z * Q)) (wd : gmap Z WindowAcc) :
  Forall (λ e, V e.2) dv → bins_satisfy wd → bins_satisfy (segments_loop t dv step wd).
Proof.
  revert t wd. induction dv as [|[d v] dv IH]; intros t wd Hall Hwd; [done|].
  apply Forall_cons in Hall as [Hv Hall]. simpl.
  destruct (_is_valid_segment d); [|by apply IH].
  apply IH; [done|]. by apply process_segment_keeps.
Qed.

Lemma process_row_keeps (row : ScanRow) (wd : gmap Z WindowAcc) :
  row_values_satisfy row → bins_satisfy wd → bins_satisfy (_process_row row step wd).
Proof.
  intros Hrow Hwd. unfold _process_row.
  destruct (_is_valid_row_data _ _); simpl; [|done].
  apply segments_loop_keeps; [|done].
  destruct (values row) as [vs|] eqn:Hvs; simpl.
  - specialize (Hrow vs Hvs). rewrite Forall_forall in Hrow.
    apply Forall_forall. intros [d v] Hin. simpl.
    apply Hrow. apply elem_of_zip_r in Hin. exact Hin.
  - rewrite zip_with_nil_r. constructor.
Qed.

Lemma accumulate_keeps_from (df : list ScanRow) (wd : gmap Z WindowAcc) :
  Forall row_values_satisfy df → bins_satisfy wd →
  bins_satisfy (foldl (λ window_data row, _process_row row step window_data) wd df).
Proof.
  revert wd. induction df as [|row df IH]; intros wd Hall Hwd; [done|].
  apply Forall_cons in Hall as [Hrow Hall]. simpl.
  apply IH; [done|]. by apply process_row_keeps.
Qed.

Lemma accumulate_keeps (df : list ScanRow) :
  Forall row_values_satisfy df → bins_satisfy (accumulate df step).
Proof.
  intros Hall. unfold accumulate. apply accumulate_keeps_from; [done|].
  intros k acc Hk. by rewrite lookup_empty in Hk.
Qed.

End AccumulationInvariant.

Lemma resample_elem (df : list ScanRow) (mcs step : Z) (p : ResampledPoint) :
  p ∈ resample_scanwatch_by_overlap df mcs step →
  ∃ acc, accumulate df step !! rp_window_utc p = Some acc
         ∧ p = result_row (rp_window_utc p, acc).
Proof.
  rewrite resample_unfold. intros Hp.
  apply build_result_elem in Hp as [(ws & acc & Hl & ->) _]. by exists acc.
Qed.

Lemma whole_second_points :
  resample_scanwatch_by_overlap WholeSecondSample.rows 30 ScanSample.one_minute
  = WholeSecondSample.points.
Proof. vm_compute. reflexivity. Qed.

(** X2. Every point the resampler returns starts on the bin grid (a
    multiple of the bin width), has positive coverage, and has a defined
    average: no emitted [scan_bpm] is missing. *)
Theorem resampled_points_well_formed (df : list ScanRow) (mcs step : Z)
    (p : ResampledPoint) :
  p ∈ resample_scanwatch_by_overlap df mcs step →
  (step | rp_window_utc p)%Z
  ∧ 0 < rp_scan_coverage_s p
  ∧ is_Some (rp_scan_bpm p).
Proof.
  intros Hp. apply resample_elem in Hp as (acc & Hl & ->).
  pose proof (accumulate_keeps step (λ _, True)
                (λ k acc, (step | k)%Z ∧ 0 < coverage acc)) as Hinv.
  assert (Hacc : (step | rp_window_utc p)%Z ∧ 0 < coverage acc).
  { eapply Hinv; [| | |exact Hl].
    - intros k v ov Hk Hov _. simpl. split; [done|lra].
    - intros k v ov a Hk Hov _ [_ Ha]. simpl. split; [done|lra].
    - apply Forall_forall. intros row _ vs _. apply Forall_forall. done. }
  destruct Hacc as [Hdiv Hpos]. simpl.
  split; [exact Hdiv|]. split; [exact Hpos|].
  apply Qlt_bool_iff in Hpos. rewrite Hpos. by eexists.
Qed.

Lemma resampled_points_well_formed_witness :
  ∃ p, p ∈ resample_scanwatch_by_overlap WholeSecondSample.rows 30 ScanSample.one_minute
       ∧ (ScanSample.one_minute | rp_window_utc p)%Z ∧ is_Some (rp_scan_bpm p).
Proof.
  destruct WholeSecondSample.points as [|p rest] eqn:Hpts; [discriminate|].
  assert (Hp : p ∈ resample_scanwatch_by_overlap WholeSecondSample.rows 30
                     ScanSample.one_minute).
  { rewrite whole_second_points, Hpts. apply list_elem_of_here. }
  exists p. split; [exact Hp|].
  destruct (resampled_points_well_formed WholeSecondSample.rows 30
              ScanSample.one_minute p Hp) as (H1 & _ & H3).
  split; [exact H1|exact H3].
Defined.



(** *** Coverage of whole rows *)

Lemma coverage_total_empty : coverage_total ∅ == 0.
Proof. unfold coverage_total. rewrite map_to_list_empty. reflexivity. Qed.

Lemma timedelta_seconds_plus (a b : Z) :
  (Timedelta_seconds a + Timedelta_seconds b)%Z = Timedelta_seconds (a + b).
Proof. unfold Timedelta_seconds. ring. Qed.

Lemma segments_loop_conservation (dv : list (option Z * Q)) (start_s step_s : Z)
    (wd : gmap Z WindowAcc) :
  (0 < step_s)%Z →
  coverage_total (segments_loop (Timedelta_seconds start_s) dv (Timedelta_seconds step_s) wd)
  == coverage_total wd + inject_Z (entries_seconds dv).
Proof.
  intros Hs. revert start_s wd.
  induction dv as [|[d v] dv IH]; intros start_s wd; simpl.
  - change (inject_Z 0) with 0. ring.
  - destruct (_is_valid_segment d) eqn:Hd; [|apply IH].
    destruct d as [d|]; [|discriminate]. simpl in *.
    apply bool_decide_eq_true in Hd.
    rewrite timedelta_seconds_plus, IH.
    rewrite <- timedelta_seconds_plus, whole_second_conservation by done.
    rewrite inject_Z_plus. ring.
Qed.

Lemma process_row_conservation (row : ScanRow) (step_s : Z) (wd : gmap Z WindowAcc) :
  (0 < step_s)%Z → (NS_PER_S | start_utc row)%Z →
  coverage_total (_process_row row (Timedelta_seconds step_s) wd)
  == coverage_total wd + inject_Z (valid_seconds row).
Proof.
  intros Hs [q Hq]. unfold _process_row, valid_seconds.
  destruct (_is_valid_row_data _ _); simpl.
  - rewrite Hq. change (q * NS_PER_S)%Z with (Timedelta_seconds q).
    by apply segments_loop_conservation.
  - change (inject_Z 0) with 0. ring.
Qed.

(** X4. On whole-second row starts and a bin width of whole seconds, the
    coverage over all bins equals the sum of the positive durations of the
    rows that pass the row check: nothing is lost or counted twice. *)
Theorem whole_second_rows_conserve_coverage (df : list ScanRow) (step_s : Z) :
  (0 < step_s)%Z →
  (∀ row, row ∈ df → (NS_PER_S | start_utc row)%Z) →
  coverage_total (accumulate df (Timedelta_seconds step_s))
  == inject_Z (foldr (λ row s, (valid_seconds row + s)%Z) 0%Z df).
Proof.
  intros Hs Hrows. unfold accumulate.
  assert (Hgen : ∀ wd,
    coverage_total (foldl (λ window_data row,
                             _process_row row (Timedelta_seconds step_s) window_data) wd df)
    == coverage_total wd + inject_Z (foldr (λ row s, (valid_seconds row + s)%Z) 0%Z df)).
  { induction df as [|row df IH]; intros wd; simpl.
    - change (inject_Z 0) with 0. ring.
    - rewrite IH by (intros r Hr; apply Hrows, elem_of_cons; by right).
      rewrite process_row_conservation;
        [|done|apply Hrows, elem_of_cons; by left].
      rewrite inject_Z_plus. ring. }
  rewrite Hgen, coverage_total_empty. ring.
Qed.

Lemma whole_second_rows_conserve_coverage_witness :
  coverage_total (accumulate WholeSecondSample.rows (Timedelta_seconds 60)) == 120.
Proof.
  apply (whole_second_rows_conserve_coverage WholeSecondSample.rows 60).
  - reflexivity.
  - intros row Hrow.
    apply elem_of_cons in Hrow as [-> | Hrow]; [by exists 50%Z|].
    apply elem_of_cons in Hrow as [-> | Hrow]; [by exists 300%Z|].
    by apply elem_of_nil in Hrow.
Defined.



(** *** Skipped entries *)

Lemma segments_loop_valid_entries (t : Z) (dv : list (option Z * Q)) (step : Z)
    (wd : gmap Z WindowAcc) :
  segments_loop t (valid_entries dv) step wd = segments_loop t dv step wd.
Proof.
  revert t wd. induction dv as [|[d v] dv IH]; intros t wd; [done|].
  unfold valid_entries. rewrite filter_cons.
  destruct (decide _) as [Hv | Hv]; simpl in Hv; cbn [segments_loop].
  - rewrite Hv. apply IH.
  - apply not_true_is_false in Hv. rewrite Hv. apply IH.
Qed.

Lemma zip_fst_snd {A B} (l : list (A * B)) : zip (map fst l) (map snd l) = l.
Proof. induction l as [|[a b] l IH]; [done|]. simpl. by rewrite IH. Qed.

(** X6. Entries whose duration is [None], zero or negative are skipped
    and do not advance the clock of the row: a row and the same row
    without those entries accumulate alike. *)
Theorem skipped_entries_leave_no_trace (row : ScanRow) (step : Z)
    (wd : gmap Z WindowAcc) :
  _process_row (drop_invalid row) step wd = _process_row row step wd.
Proof.
  unfold drop_invalid.
  destruct (_is_valid_row_data (durations row) (values row)) eqn:Hvalid; [|done].
  unfold _process_row. rewrite Hvalid. simpl.
  rewrite !length_map, bool_decide_eq_true_2 by done. simpl.
  rewrite zip_fst_snd. apply segments_loop_valid_entries.
Qed.

(** ** Context annotator *)

(** X7. For two non-empty intervals ([start < end] in both) the overlap is
    symmetric, lies between 0 and the length of the shorter interval, and
    is positive exactly when the presence test [_has_overlap] succeeds. *)
Theorem overlap_duration_and_presence_test (start1 end1 start2 end2 : Z) :
  (start1 < end1)%Z → (start2 < end2)%Z →
  _calculate_time_overlap start1 end1 start2 end2
  = _calculate_time_overlap start2 end2 start1 end1
  ∧ (0 ≤ _calculate_time_overlap start1 end1 start2 end2
       ≤ Z.min (end1 - start1) (end2 - start2))%Z
  ∧ (_has_overlap start1 end1 start2 end2 = true
     ↔ (0 < _calculate_time_overlap start1 end1 start2 end2)%Z).
Proof.
  intros H1 H2. unfold _calculate_time_overlap, _has_overlap.
  repeat case_bool_decide; simpl; repeat split; intros; try lia; try done.
Qed.

Lemma overlap_duration_and_presence_test_witness :
  _has_overlap 0 60 50 200 = true ↔ (0 < _calculate_time_overlap 0 60 50 200)%Z.
Proof.
  destruct (overlap_duration_and_presence_test 0 60 50 200) as (_ & _ & H).
  - reflexivity.
  - reflexivity.
  - exact H.
Defined.

Section Flags.
Local Open Scope Z_scope.

Lemma sleep_status_lookup (window_starts window_ends : list Z)
    (df_sleep : list SleepInterval) (i : nat) (ws we : Z) :
  window_starts !! i = Some ws → window_ends !! i = Some we →
  _calculate_sleep_status window_starts window_ends df_sleep !! i
  = Some (window_sleep_status ws we df_sleep).
Proof.
  intros Hws Hwe. unfold _calculate_sleep_status. destruct df_sleep as [|iv0 rest].
  - rewrite list_lookup_fmap, Hws. reflexivity.
  - rewrite list_lookup_fmap, lookup_zip_with, Hws. simpl. by rewrite Hwe.
Qed.

Lemma sport_flags_lookup (window_starts window_ends : list Z)
    (df_sport : list SportInterval) (i : nat) (ws we : Z) :
  window_starts !! i = Some ws → window_ends !! i = Some we →
  _calculate_sport_flags window_starts window_ends df_sport !! i
  = Some (existsb (λ sp, _has_overlap ws we (sport_start_utc sp) (sport_end_utc sp))
                  df_sport).
Proof.
  intros Hws Hwe. unfold _calculate_sport_flags. destruct df_sport as [|sp0 rest].
  - rewrite list_lookup_fmap, Hws. reflexivity.
  - rewrite list_lookup_fmap, lookup_zip_with, Hws. simpl. by rewrite Hwe.
Qed.

Lemma has_overlap_iff (start1 end1 start2 end2 : Z) :
  _has_overlap start1 end1 start2 end2 = true ↔ start2 < end1 ∧ end2 > start1.
Proof.
  unfold _has_overlap. rewrite andb_true_iff, !bool_decide_eq_true. done.
Qed.

Lemma sport_flag_iff (ws we : Z) (df_sport : list SportInterval) :
  existsb (λ sp, _has_overlap ws we (sport_start_utc sp) (sport_end_utc sp)) df_sport = true
  ↔ ∃ sp, sp ∈ df_sport ∧ sport_start_utc sp < we ∧ sport_end_utc sp > ws.
Proof.
  rewrite existsb_exists. split.
  - intros (sp & Hin & Hov). apply has_overlap_iff in Hov.
    exists sp. split; [by apply list_elem_of_In|done].
  - intros (sp & Hin & Hov). exists sp. split; [by apply list_elem_of_In|].
    by apply has_overlap_iff.
Qed.

Lemma sleep_status_origin (ws we : Z) (df_sleep : list SleepInterval) :
  window_sleep_status ws we df_sleep = 0
  ∨ ∃ iv, iv ∈ df_sleep ∧ 0 < bin_overlap ws we iv
          ∧ window_sleep_status ws we df_sleep = status iv.
Proof.
  unfold window_sleep_status.
  destruct (sleep_fold_spec ws we df_sleep 0 0) as (_ & _ & Hcase).
  destruct Hcase as [[Hr _] | (Hlt & k & iv & Hk & Hov & Hst & _)].
  - left. by rewrite Hr.
  - right. exists iv. split; [by apply list_elem_of_lookup_2 in Hk|].
    split; [lia|done].
Qed.

End Flags.

Lemma sleep_status_length (window_starts window_ends : list Z)
    (df_sleep : list SleepInterval) :
  length window_starts = length window_ends →
  length (_calculate_sleep_status window_starts window_ends df_sleep)
  = length window_starts.
Proof.
  intros Hlen. unfold _calculate_sleep_status. destruct df_sleep.
  - by rewrite length_map.
  - rewrite length_map, length_zip_with. lia.
Qed.

Lemma sport_flags_length (window_starts window_ends : list Z)
    (df_sport : list SportInterval) :
  length window_starts = length window_ends →
  length (_calculate_sport_flags window_starts window_ends df_sport)
  = length window_starts.
Proof.
  intros Hlen. unfold _calculate_sport_flags. destruct df_sport.
  - by rewrite length_map.
  - rewrite length_map, length_zip_with. lia.
Qed.

(** X8. The sport flag of bin [i] is true exactly when some sport interval
    starts before the bin ends and ends after the bin starts (a presence
    test, however short the overlap); without sport intervals it is false. *)
Theorem sport_flag_is_presence_test (window_starts window_ends : list Z)
    (df_sport : list SportInterval) (i : nat) (ws we : Z) :
  window_starts !! i = Some ws →
  window_ends !! i = Some we →
  ∃ flag : bool,
    _calculate_sport_flags window_starts window_ends df_sport !! i = Some flag
    ∧ (flag = true
       ↔ ∃ sp, sp ∈ df_sport ∧ (sport_start_utc sp < we)%Z ∧ (sport_end_utc sp > ws)%Z).
Proof.
  intros Hws Hwe. eexists. split; [by apply sport_flags_lookup|].
  apply sport_flag_iff.
Qed.

Lemma sport_flag_is_presence_test_witness :
  _calculate_sport_flags [0%Z; 60000000000%Z] [60000000000%Z; 120000000000%Z]
                         AnnotateSample.sport_df !! 1%nat
  = Some true.
Proof.
  destruct (sport_flag_is_presence_test
              [0%Z; 60000000000%Z] [60000000000%Z; 120000000000%Z]
              AnnotateSample.sport_df 1 60000000000 120000000000 eq_refl eq_refl)
    as (flag & Hl & Hiff).
  rewrite Hl. f_equal. apply Hiff.
  eexists. split; [apply list_elem_of_here|]. split; reflexivity.
Defined.

(** X9. [annotate_context] keeps every row, in order and with its
    columns; the [sleep_status] it adds is 0 or the status of a sleep
    interval that overlaps the row's bin, and [is_sport] is the presence
    test against the sport intervals. *)
Theorem annotate_context_rows (min_df : list MinuteRow) (df_sleep : list SleepInterval)
    (df_sport : list SportInterval) (step : Z) :
  length (annotate_context min_df df_sleep df_sport step) = length min_df
  ∧ ∀ i r, min_df !! i = Some r →
      ∃ p, annotate_context min_df df_sleep df_sport step !! i = Some p
        ∧ window_utc p = m_window_utc r
        ∧ t10_bpm p = m_t10_bpm r
        ∧ t10_points p = m_t10_points r
        ∧ scan_bpm p = m_scan_bpm r
        ∧ scan_coverage_s p = m_scan_coverage_s r
        ∧ (sleep_status p = 0%Z
           ∨ ∃ iv, iv ∈ df_sleep
                   ∧ (0 < bin_overlap (m_window_utc r) (m_window_utc r + step) iv)%Z
                   ∧ sleep_status p = status iv)
        ∧ (is_sport p = true
           ↔ ∃ sp, sp ∈ df_sport
                   ∧ (sport_start_utc sp < m_window_utc r + step)%Z
                   ∧ (sport_end_utc sp > m_window_utc r)%Z).
Proof.
  unfold annotate_context.
  destruct min_df as [|r0 rest] eqn:Hdf; [split; [done|intros i r Hr; discriminate]|].
  rewrite <- Hdf. clear Hdf r0 rest.
  set (window_starts := map m_window_utc min_df).
  set (window_ends := map (λ r, (m_window_utc r + step)%Z) min_df).
  assert (Hlook : ∀ i r, min_df !! i = Some r →
            zip (_calculate_sleep_status window_starts window_ends df_sleep)
                (_calculate_sport_flags window_starts window_ends df_sport) !! i
            = Some (window_sleep_status (m_window_utc r) (m_window_utc r + step) df_sleep,
                    existsb (λ sp, _has_overlap (m_window_utc r) (m_window_utc r + step)
                                     (sport_start_utc sp) (sport_end_utc sp)) df_sport)).
  { intros i r Hr.
    assert (Hws : window_starts !! i = Some (m_window_utc r))
      by (unfold window_starts; by rewrite list_lookup_fmap, Hr).
    assert (Hwe : window_ends !! i = Some (m_window_utc r + step)%Z)
      by (unfold window_ends; by rewrite list_lookup_fmap, Hr).
    rewrite lookup_zip_with.
    rewrite (sleep_status_lookup _ _ _ _ _ _ Hws Hwe). simpl.
    by rewrite (sport_flags_lookup _ _ _ _ _ _ Hws Hwe). }
  split.
  - assert (Hends : length window_starts = length window_ends)
      by (unfold window_starts, window_ends; by rewrite !length_map).
    rewrite !length_zip_with, sleep_status_length, sport_flags_length by exact Hends.
    unfold window_starts. rewrite length_map. lia.
  - intros i r Hr. rewrite lookup_zip_with, Hr. simpl.
    rewrite (Hlook _ _ Hr). simpl. eexists. split; [reflexivity|]. simpl.
    repeat split; try reflexivity.
    + apply sleep_status_origin.
    + apply sport_flag_iff.
    + apply sport_flag_iff.
Qed.

Lemma annotate_context_rows_witness :
  map (λ p, (window_utc p, sleep_status p, is_sport p))
      (annotate_context AnnotateSample.minute_rows AnnotateSample.sleep_df
                        AnnotateSample.sport_df 60000000000)
  = [(0%Z, 2%Z, false); (60000000000%Z, 0%Z, true)]
  ∧ length (annotate_context AnnotateSample.minute_rows AnnotateSample.sleep_df
                             AnnotateSample.sport_df 60000000000) = 2%nat.
Proof.
  split; [reflexivity|].
  destruct (annotate_context_rows AnnotateSample.minute_rows AnnotateSample.sleep_df
              AnnotateSample.sport_df 60000000000) as [Hlen _].
  exact Hlen.
Defined.

(** ** Metrics calculator *)

Section GroupCounts.
Context {A K : Type} `{EqDecision K} (key : A → K).

Lemma key_count_one (keys : list K) (z : K) :
  NoDup keys → z ∈ keys →
  sum_list_with (λ k, if decide (z = k) then 1%nat else 0%nat) keys = 1%nat.
Proof.
  induction 1 as [|k keys Hk Hnd IH]; intros Hz; [by apply elem_of_nil in Hz|].
  simpl. destruct (decide (z = k)) as [-> | Hne].
  - assert (Hzero : ∀ l : list K, k ∉ l →
              sum_list_with (λ k0, if decide (k = k0) then 1%nat else 0%nat) l = 0%nat).
    { induction l as [|a l IHl]; intros Hnot; [done|]. simpl.
      rewrite decide_False by (intros ->; apply Hnot, elem_of_cons; by left).
      apply IHl. intros Hin. apply Hnot, elem_of_cons. by right. }
    by rewrite Hzero.
  - apply elem_of_cons in Hz as [-> | Hz]; [done|]. by rewrite IH.
Qed.

Lemma group_sizes_total (keys : list K) (l : list A) :
  NoDup keys → (∀ r, r ∈ l → key r ∈ keys) →
  sum_list_with (λ k, length (filter (λ r, key r = k) l)) keys = length l.
Proof.
  intros Hnd. induction l as [|r l IH]; intros Hall.
  - clear. induction keys as [|k keys IHk]; [done|]. simpl. exact IHk.
  - assert (Hsplit : sum_list_with (λ k, length (filter (λ r0, key r0 = k) (r :: l))) keys
                     = (sum_list_with (λ k, if decide (key r = k) then 1 else 0) keys
                        + sum_list_with (λ k, length (filter (λ r0, key r0 = k) l)) keys)%nat).
    { clear. induction keys as [|k keys IHk]; [done|]. simpl.
      rewrite IHk, filter_cons. destruct (decide (key r = k)); simpl; lia. }
    rewrite Hsplit, IH by (intros r0 Hr0; apply Hall, elem_of_cons; by right).
    rewrite key_count_one; [done|exact Hnd|].
    apply Hall, elem_of_cons. by left.
Qed.

End GroupCounts.

Section MetricsFacts.
Import MetricsCalculator.

Lemma metrics_counts (df : list ScoredRecord) :
  map n (calculate_metrics df)
  = map (λ k, length (filter (λ r, row_zone r = k) (map with_errors df)))
        (map fst (groupby row_zone (map with_errors df))).
Proof.
  unfold calculate_metrics.
  rewrite (groupby_shape row_zone (map with_errors df)) at 1.
  by rewrite !map_map.
Qed.

(** X10. Every record is counted in exactly one zone row: the counts [n]
    of the metrics add up to the number of records. *)
Theorem metrics_counts_add_up (df : list ScoredRecord) :
  sum_list (map n (calculate_metrics df)) = length df.
Proof.
  rewrite metrics_counts.
  assert (Hsum : ∀ (f : string → nat) (keys : list string),
            sum_list (map f keys) = sum_list_with f keys).
  { intros f keys. induction keys as [|k keys IH]; [done|]. simpl. by rewrite IH. }
  rewrite Hsum, (group_sizes_total row_zone).
  - apply length_map.
  - apply groupby_keys_NoDup.
  - intros r Hr. apply groupby_keys. by exists r.
Qed.

End MetricsFacts.

Section MeanFacts.

Lemma Qsum_abs_triangle (l : list Q) : Qabs (Qsum l) <= Qsum (map Qabs l).
Proof.
  induction l as [|a l IH]; simpl.
  - discriminate.
  - eapply Qle_trans; [apply Qabs_triangle|]. lra.
Qed.

Lemma Qsum_abs_nonneg (l : list Q) : 0 <= Qsum (map Qabs l).
Proof.
  induction l as [|a l IH]; simpl; [lra|].
  pose proof (Qabs_nonneg a). lra.
Qed.

Lemma count_inv_nonneg (k : nat) : 0 <= / inject_Z (Z.of_nat k).
Proof.
  apply Qinv_le_0_compat. change 0 with (inject_Z 0). rewrite <- Zle_Qle. lia.
Qed.

Lemma mean_abs_nonneg (l : list Q) : 0 <= mean (map Qabs l).
Proof.
  unfold mean, Qdiv. apply Qmult_le_0_compat; [apply Qsum_abs_nonneg|apply count_inv_nonneg].
Qed.

Lemma mean_abs_triangle (l : list Q) : Qabs (mean l) <= mean (map Qabs l).
Proof.
  unfold mean, Qdiv. rewrite length_map, Qabs_Qmult.
  rewrite (Qabs_pos (/ _)) by apply count_inv_nonneg.
  apply Qmult_le_compat_r; [apply Qsum_abs_triangle|apply count_inv_nonneg].
Qed.

End MeanFacts.

Section MetricsBounds.
Import MetricsCalculator.

(** X11. In every metrics row the count is at least 1, the mean absolute
    error is not negative, and the absolute value of the bias does not
    exceed the mean absolute error. *)
Theorem metrics_row_bounds (df : list ScoredRecord) (m : MetricsRow) :
  m ∈ calculate_metrics df →
  (1 ≤ n m)%nat ∧ 0 <= MAE m ∧ Qabs (bias m) <= MAE m.
Proof.
  unfold calculate_metrics.
  rewrite (groupby_shape row_zone (map with_errors df)), map_map.
  intros Hm. change (map ?f ?l) with (f <$> l) in Hm at 1.
  apply list_elem_of_fmap in Hm as (k & -> & Hk). cbn [n MAE bias fst snd].
  rewrite filter_map_comm, length_map.
  set (members := filter (λ a, row_zone (with_errors a) = k) df).
  assert (Habs : map abs_err (map with_errors members)
                 = map Qabs (map row_bias (map with_errors members))).
  { rewrite !map_map. reflexivity. }
  rewrite Habs. split; [|split].
  - apply groupby_keys in Hk as (e & He & Hz).
    change (map with_errors df) with (with_errors <$> df) in He.
    apply list_elem_of_fmap in He as (r & -> & Hr).
    assert (Hin : r ∈ members) by (apply list_elem_of_filter; done).
    destruct members; [by apply elem_of_nil in Hin|simpl; lia].
  - apply mean_abs_nonneg.
  - apply mean_abs_triangle.
Qed.

Lemma sample_metrics_rows :
  calculate_metrics MetricsSample.records = MetricsSample.rows.
Proof. vm_compute. reflexivity. Qed.

Lemma metrics_row_bounds_witness :
  ∃ m, m ∈ calculate_metrics MetricsSample.records
       ∧ (1 ≤ n m)%nat ∧ Qabs (bias m) <= MAE m.
Proof.
  destruct MetricsSample.rows as [|m rest] eqn:Hm; [discriminate|].
  assert (Hin : m ∈ calculate_metrics MetricsSample.records)
    by (rewrite sample_metrics_rows, Hm; apply list_elem_of_here).
  exists m. split; [exact Hin|].
  destruct (metrics_row_bounds MetricsSample.records m Hin) as (H1 & _ & H3).
  split; [exact H1|exact H3].
Defined.

End MetricsBounds.

Section ZoneOrder.
Import MetricsCalculator.

Lemma classify_label (h : Q) : HeartRateZoneClassifier.classify h ∈ zone_labels_sorted.
Proof.
  unfold HeartRateZoneClassifier.classify, zone_labels_sorted.
  repeat (destruct (Qlt_bool _ _)); set_solver.
Qed.

Ltac split_label z H :=
  apply elem_of_cons in H as [-> | H];
  [|apply elem_of_cons in H as [-> | H];
    [|apply elem_of_cons in H as [-> | H];
      [|apply elem_of_cons in H as [-> | H];
        [|by apply elem_of_nil in H]]]].

Ltac find_member :=
  repeat first [apply list_elem_of_here | apply list_elem_of_further].

Ltac settle_labels Hnd :=
  first [ vm_compute; reflexivity
        | exfalso;
          match type of Hnd with
          | NoDup ?l =>
              let Hf := fresh in
              assert (Hf : bool_decide (NoDup l) = false) by (vm_compute; reflexivity);
              exact (bool_decide_eq_false_1 _ Hf Hnd)
          end ].

Lemma sorted_zone_labels (l : list string) :
  NoDup l → (∀ z, z ∈ l → z ∈ zone_labels_sorted) →
  merge_sort string_le l = filter (λ z, z ∈ l) zone_labels_sorted.
Proof.
  intros Hnd Hin.
  assert (Hlen : (length l ≤ 4)%nat).
  { change 4%nat with (length zone_labels_sorted).
    apply submseteq_length, NoDup_submseteq; done. }
  destruct l as [|a [|b [|c [|d [|e l]]]]]; simpl in Hlen; try lia.
  - reflexivity.
  - pose proof (Hin a ltac:(find_member)) as Ha.
    split_label a Ha; settle_labels Hnd.
  - pose proof (Hin a ltac:(find_member)) as Ha.
    pose proof (Hin b ltac:(find_member)) as Hb. clear Hin.
    split_label a Ha; split_label b Hb; settle_labels Hnd.
  - pose proof (Hin a ltac:(find_member)) as Ha.
    pose proof (Hin b ltac:(find_member)) as Hb.
    pose proof (Hin c ltac:(find_member)) as Hc. clear Hin.
    split_label a Ha; split_label b Hb; split_label c Hc; settle_labels Hnd.
  - pose proof (Hin a ltac:(find_member)) as Ha.
    pose proof (Hin b ltac:(find_member)) as Hb.
    pose proof (Hin c ltac:(find_member)) as Hc.
    pose proof (Hin d ltac:(find_member)) as Hd. clear Hin.
    split_label a Ha; split_label b Hb; split_label c Hc; split_label d Hd;
      settle_labels Hnd.
Qed.

(** X12. The metrics rows come in the code-point order of their labels,
    [60-90], [90-120], [<60], [>120], each zone at most once, and a zone
    has a row exactly when some record's input value falls in it. *)
Theorem metrics_rows_in_label_order (df : list ScoredRecord) :
  map zone (calculate_metrics df)
  = filter (λ z, z ∈ map (λ r, HeartRateZoneClassifier.classify (scan_bpm (rec r))) df)
           zone_labels_sorted.
Proof.
  assert (Hz : map zone (calculate_metrics df)
               = map fst (groupby row_zone (map with_errors df))).
  { unfold calculate_metrics. rewrite !map_map. reflexivity. }
  rewrite Hz, groupby_fst, sorted_zone_labels.
  - apply list_filter_iff. intros z.
    rewrite elem_of_remove_dups, map_map. reflexivity.
  - apply NoDup_remove_dups.
  - intros z Hin. rewrite elem_of_remove_dups, map_map in Hin.
    change (map ?f df) with (f <$> df) in Hin.
    apply list_elem_of_fmap in Hin as (r & -> & _). apply classify_label.
Qed.

End ZoneOrder.

Example sample_metrics_order :
  map zone (MetricsCalculator.calculate_metrics MetricsSample.records)
  = ["60-90"; "<60"; ">120"].
Proof. vm_compute. reflexivity. Qed.

(** ** Model fitter *)

Section FitterFacts.
Import ModelFitter.

Lemma unzip_knots (xs ys : list Q) :
  length xs = length ys → Sorted knot_step (zip xs ys) →
  Sorted Qlt xs ∧ Sorted Qle ys.
Proof.
  revert ys. induction xs as [|x xs IH]; intros [|y ys] Hlen Hs; try discriminate.
  { split; constructor. }
  simpl in Hlen. injection Hlen as Hlen. simpl in Hs.
  apply Sorted_inv in Hs as [Hs Hhd].
  destruct (IH ys Hlen Hs) as [Hx Hy].
  split; (constructor; [done|]).
  - destruct xs as [|x' xs]; [constructor|]. destruct ys as [|y' ys]; [done|].
    apply HdRel_inv in Hhd as [Hlt _]. by constructor.
  - destruct ys as [|y' ys]; [constructor|]. destruct xs as [|x' xs]; [done|].
    apply HdRel_inv in Hhd as [_ Hle]. by constructor.
Qed.

Lemma fit_isotonic_fields (x y : list Q) (ctx : string) (clip_range : Q * Q)
    (m : ModelMeta) :
  fit_isotonic x y ctx clip_range = ret m →
  context m = ctx ∧ clip_lo m = clip_range.1 ∧ clip_hi m = clip_range.2.
Proof.
  unfold fit_isotonic. intros Hfit.
  destruct (IsotonicRegression.fit_transform _ _) as [e | yf]; [discriminate|].
  simpl in Hfit. by injection Hfit as <-.
Qed.

Lemma fit_pchip_fields (x y : list Q) (ctx : string) (clip_range : Q * Q)
    (num_bins : nat) (m : ModelMeta) :
  fit_pchip_from_binned x y ctx clip_range num_bins = ret m →
  context m = ctx ∧ clip_lo m = clip_range.1 ∧ clip_hi m = clip_range.2.
Proof.
  unfold fit_pchip_from_binned. intros Hfit.
  destruct (np_nanmin x) as [e | x_min]; [discriminate|].
  destruct (np_nanmax x) as [e | x_max]; [discriminate|].
  simpl in Hfit.
  destruct (BinnedMedianFitter.fit x y (np_linspace x_min x_max num_bins))
    as [e | [binned_x binned_y]]; [discriminate|].
  simpl in Hfit. case_bool_decide.
  - by apply fit_isotonic_fields in Hfit.
  - by injection Hfit as <-.
Qed.

Lemma monotone_knots_sorted (m : ModelMeta) :
  monotone_knots m →
  (1 ≤ length (x_knots m))%nat ∧ Sorted Qlt (x_knots m) ∧ Sorted Qle (y_knots m).
Proof.
  intros (Hlen & k0 & rest & Hz & Hs).
  split.
  - destruct (x_knots m); [discriminate|simpl; lia].
  - apply unzip_knots; [exact Hlen|by rewrite Hz].
Qed.

(** X13. Every model either fit function returns carries the context and
    the clip bounds it was given, has as many [y] knots as [x] knots, at
    least one knot, strictly increasing [x] knots, and kind [isotonic]
    (then with non-decreasing [y] knots) or [pchip] (then with at least
    three knots). *)
Theorem fitted_model_invariants (x y : list Q) (ctx : string) (clip_range : Q * Q)
    (num_bins : nat) (m : ModelMeta) :
  fit_isotonic x y ctx clip_range = ret m
  ∨ fit_pchip_from_binned x y ctx clip_range num_bins = ret m →
  context m = ctx ∧ clip_lo m = clip_range.1 ∧ clip_hi m = clip_range.2
  ∧ length (x_knots m) = length (y_knots m)
  ∧ (1 ≤ length (x_knots m))%nat
  ∧ Sorted Qlt (x_knots m)
  ∧ ((kind m = ModelKind.ISOTONIC ∧ Sorted Qle (y_knots m))
     ∨ (kind m = ModelKind.PCHIP ∧ (3 ≤ length (x_knots m))%nat)).
Proof.
  intros Hfit.
  assert (Hfields : context m = ctx ∧ clip_lo m = clip_range.1 ∧ clip_hi m = clip_range.2).
  { destruct Hfit as [Hfit | Hfit];
      [by apply fit_isotonic_fields in Hfit|by apply fit_pchip_fields in Hfit]. }
  destruct Hfields as (Hc & Hlo & Hhi).
  repeat (split; [done|]).
  assert (Hcases : (kind m = ModelKind.ISOTONIC ∧ monotone_knots m)
                   ∨ (kind m = ModelKind.PCHIP
                      ∧ length (x_knots m) = length (y_knots m)
                      ∧ (3 ≤ length (x_knots m))%nat ∧ Sorted Qlt (x_knots m))).
  { destruct Hfit as [Hfit | Hfit].
    - left. by apply fit_isotonic_model in Hfit.
    - apply fit_pchip_model in Hfit as [[Hk Hiso] | Hp]; [|by right].
      left. by apply fit_isotonic_model in Hiso. }
  destruct Hcases as [[Hk Hmono] | (Hk & Hlen & H3 & Hs)].
  - pose proof Hmono as [Hlen _].
    apply monotone_knots_sorted in Hmono as (H1 & Hx & Hy).
    repeat (split; [done|]). left. done.
  - repeat (split; [done || lia|]). right. done.
Qed.

Lemma fitted_model_invariants_witness :
  Sorted Qlt (x_knots FittedSample.pchip_model)
  ∧ (3 ≤ length (x_knots FittedSample.pchip_model))%nat.
Proof.
  destruct (fitted_model_invariants RoundTripSample.knots_x RoundTripSample.knots_y
              "global" DEFAULT_CLIP_RANGE DEFAULT_NUM_BINS FittedSample.pchip_model)
    as (_ & _ & _ & _ & _ & Hs & Hk).
  - right. vm_compute. reflexivity.
  - split; [exact Hs|].
    destruct Hk as [[Hk _] | [_ H3]]; [discriminate Hk|exact H3].
Defined.

(** Fitting succeeds on non-empty columns of equal length. *)
Lemma fit_isotonic_succeeds (x y : list Q) (ctx : string) (clip_range : Q * Q) :
  x ≠ [] → ∃ m, fit_isotonic x y ctx clip_range = ret m.
Proof.
  intros Hx. unfold fit_isotonic.
  set (x_sorted := take_indices x (np_argsort x)).
  set (y_sorted := take_indices y (np_argsort x)).
  assert (Hlen : length x_sorted = length y_sorted).
  { unfold x_sorted, y_sorted. by rewrite !take_indices_length. }
  assert (Hne : x_sorted ≠ []).
  { intros Hnil. apply (f_equal length) in Hnil.
    unfold x_sorted in Hnil. rewrite take_indices_length, np_argsort_length in Hnil.
    destruct x; [done|discriminate]. }
  destruct (fit_transform_monotone x_sorted y_sorted Hne Hlen) as (g & _ & Hft).
  rewrite Hft. simpl. by eexists.
Qed.

Lemma binned_fit_succeeds (x y : list Q) (num_bins : nat) (x_min x_max : Q) :
  np_nanmin x = ret x_min → np_nanmax x = ret x_max →
  ∃ knots, BinnedMedianFitter.fit x y (np_linspace x_min x_max num_bins) = ret knots.
Proof.
  intros Hmin Hmax. unfold BinnedMedianFitter.fit.
  rewrite (digitize_linspace x num_bins x_min x_max Hmin Hmax). simpl. by eexists.
Qed.

Lemma fit_pchip_succeeds (x y : list Q) (ctx : string) (clip_range : Q * Q)
    (num_bins : nat) :
  x ≠ [] → ∃ m, fit_pchip_from_binned x y ctx clip_range num_bins = ret m.
Proof.
  intros Hx. unfold fit_pchip_from_binned.
  destruct x as [|x0 xtl] eqn:Hxe; [done|]. rewrite <- Hxe in *.
  assert (Hmin : np_nanmin x = ret (list_min x0 xtl)) by (by rewrite Hxe).
  assert (Hmax : np_nanmax x = ret (list_max x0 xtl)) by (by rewrite Hxe).
  rewrite Hmin, Hmax. simpl.
  destruct (binned_fit_succeeds x y num_bins _ _ Hmin Hmax) as ([bx by'] & ->).
  simpl. case_bool_decide.
  - apply fit_isotonic_succeeds. by rewrite Hxe.
  - by eexists.
Qed.

(** X14. Both fit functions succeed on every non-empty pair of columns of
    equal length, whatever the values, context, clip range and number of
    bins: only empty input makes them fail. *)
Theorem fitting_succeeds_on_data (x y : list Q) (ctx : string) (clip_range : Q * Q)
    (num_bins : nat) :
  x ≠ [] → length x = length y →
  (∃ m, fit_isotonic x y ctx clip_range = ret m)
  ∧ (∃ m, fit_pchip_from_binned x y ctx clip_range num_bins = ret m).
Proof.
  intros Hx _. split; [by apply fit_isotonic_succeeds|by apply fit_pchip_succeeds].
Qed.

Lemma fitting_succeeds_on_data_witness :
  (∃ m, fit_isotonic [70; 70] [72; 80] "rest" DEFAULT_CLIP_RANGE = ret m)
  ∧ (∃ m, fit_pchip_from_binned [70; 70] [72; 80] "rest" DEFAULT_CLIP_RANGE 15 = ret m).
Proof.
  apply (fitting_succeeds_on_data [70; 70] [72; 80] "rest" DEFAULT_CLIP_RANGE 15).
  - discriminate.
  - reflexivity.
Defined.

End FitterFacts.

(** ** Model predictor *)

Section PredictorFacts.
Import ModelPredictor.

Lemma traverse_length {A B} (f : A → result B) (l : list A) (out : list B) :
  traverse f l = ret out → length out = length l.
Proof.
  revert out. induction l as [|a l IH]; intros out; simpl.
  - by intros [= <-].
  - destruct (f a) as [e | b]; [discriminate|]. simpl.
    destruct (traverse f l) as [e | bs]; [discriminate|]. simpl.
    intros [= <-]. simpl. f_equal. by apply IH.
Qed.

(** X15. [apply_model] on a model without knots raises [IndexError]; on a
    model with knots and a kind other than [isotonic] and [pchip] it raises
    [ValueError] naming the kind; and whenever it returns, it returns one
    prediction per input. *)
Theorem apply_model_outcomes (m : ModelMeta) (xs : list Q) :
  (x_knots m = [] → apply_model m xs = raise (IndexError "list index out of range"))
  ∧ (x_knots m ≠ [] → kind m ≠ ModelKind.ISOTONIC → kind m ≠ ModelKind.PCHIP →
       apply_model m xs = raise (ValueError ("Unknown model kind: " +:+ kind m)))
  ∧ (∀ out, apply_model m xs = ret out → length out = length xs).
Proof.
  unfold apply_model. split; [|split].
  - by intros ->.
  - intros Hk Hi Hp. destruct (x_knots m); [done|].
    by rewrite !bool_decide_eq_false_2.
  - intros out. destruct (x_knots m) as [|k0 ktl]; [discriminate|].
    case_bool_decide.
    + intros Ht. apply traverse_length in Ht. by rewrite length_map in Ht.
    + case_bool_decide; [|discriminate].
      destruct (traverse _ _) as [e | ys] eqn:Ht; [discriminate|]. simpl.
      intros [= <-]. apply traverse_length in Ht.
      by rewrite !length_map in *.
Qed.

Lemma apply_model_outcomes_witness :
  apply_model {| kind := "piecewise"; context := "global"; x_knots := [40; 60];
                 y_knots := [45; 65]; clip_lo := 35; clip_hi := 220 |} [50]
  = raise (ValueError "Unknown model kind: piecewise").
Proof.
  destruct (apply_model_outcomes
              {| kind := "piecewise"; context := "global"; x_knots := [40; 60];
                 y_knots := [45; 65]; clip_lo := 35; clip_hi := 220 |} [50])
    as (_ & Hkind & _).
  apply Hkind; discriminate.
Defined.

End PredictorFacts.

(** *** Isotonic models at and around their knots *)

Section ClipFacts.

Lemma np_clip_inside (v lo hi : Q) : lo <= v → v <= hi → np_clip v lo hi = v.
Proof.
  intros Hlo Hhi. unfold np_clip, Qmax, Qmin, GenericMinMax.gmax, GenericMinMax.gmin.
  destruct (v ?= lo) eqn:E1.
  - destruct (v ?= hi) eqn:E2; first [done | apply Qgt_alt in E2; lra].
  - apply Qlt_alt in E1. lra.
  - destruct (v ?= hi) eqn:E2; first [done | apply Qgt_alt in E2; lra].
Qed.

Lemma np_clip_below (v lo hi : Q) : v <= lo → lo <= hi → np_clip v lo hi == lo.
Proof.
  intros Hv Hle. unfold np_clip.
  rewrite (Q.max_r v lo) by exact Hv. by apply Q.min_l.
Qed.

Lemma np_clip_above (v lo hi : Q) : hi <= v → lo <= hi → np_clip v lo hi == hi.
Proof.
  intros Hv Hle. unfold np_clip. apply Q.min_r.
  eapply Qle_trans; [exact Hv|]. apply Q.le_max_l.
Qed.

Lemma np_clip_proper (a b lo hi : Q) : a == b → np_clip a lo hi == np_clip b lo hi.
Proof. intros Hab. unfold np_clip. by rewrite Hab. Qed.

End ClipFacts.

Lemma last_cons {A} (a d : A) (l : list A) : List.last (a :: l) d = List.last l a.
Proof.
  revert a d. induction l as [|b l IH]; intros a d; [done|].
  change (List.last (a :: b :: l) d) with (List.last (b :: l) d).
  by rewrite !IH.
Qed.

Section KnotFacts.

Lemma interp_from_at_knot (x0 y0 : Q) (rest : list (Q * Q)) (xj yj : Q) :
  Sorted knot_step ((x0, y0) :: rest) → (xj, yj) ∈ (x0, y0) :: rest →
  x0 <= xj ∧ interp_from xj x0 y0 rest == yj.
Proof.
  revert x0 y0. induction rest as [|[x1 y1] rest IH]; intros x0 y0 Hs Hin.
  - apply list_elem_of_singleton in Hin as [= -> ->]. simpl. split; lra.
  - apply Sorted_inv in Hs as [Hs Hhd]. apply HdRel_inv in Hhd as [Hlt Hle].
    simpl in Hlt, Hle.
    apply elem_of_cons in Hin as [[= -> ->] | Hin].
    + split; [lra|]. simpl.
      assert (Hb : Qlt_bool x0 x1 = true) by (by apply Qlt_bool_iff).
      rewrite Hb. field. lra.
    + destruct (IH x1 y1 Hs Hin) as [Hge Hval].
      split; [lra|]. simpl.
      assert (Hb : Qlt_bool xj x1 = false) by (by apply Qlt_bool_false).
      by rewrite Hb.
Qed.

Lemma interp_curve_at_knot (x0 y0 : Q) (rest : list (Q * Q)) (xj yj : Q) :
  Sorted knot_step ((x0, y0) :: rest) → (xj, yj) ∈ (x0, y0) :: rest →
  interp_curve x0 y0 rest xj == yj.
Proof.
  intros Hs Hin. destruct (interp_from_at_knot x0 y0 rest xj yj Hs Hin) as [Hge Hval].
  unfold interp_curve.
  assert (Hb : Qlt_bool xj x0 = false) by (by apply Qlt_bool_false).
  by rewrite Hb.
Qed.

Lemma interp_curve_proper (x0 y0 : Q) (rest : list (Q * Q)) (a b : Q) :
  Sorted knot_step ((x0, y0) :: rest) → a == b →
  interp_curve x0 y0 rest a == interp_curve x0 y0 rest b.
Proof.
  intros Hs Hab. apply Qle_antisym; apply interp_curve_monotone; try done; lra.
Qed.

(** All abscissae of sorted knots lie between the first and the last. *)
Lemma knots_between (x0 y0 : Q) (rest : list (Q * Q)) (xj yj : Q) :
  Sorted knot_step ((x0, y0) :: rest) → (xj, yj) ∈ (x0, y0) :: rest →
  x0 <= xj ∧ xj <= (List.last rest (x0, y0)).1.
Proof.
  revert x0 y0 xj yj.
  induction rest as [|[x1 y1] rest IH]; intros x0 y0 xj yj Hs Hin.
  - apply list_elem_of_singleton in Hin as [= -> ->]. simpl. split; lra.
  - apply Sorted_inv in Hs as [Hs Hhd]. apply HdRel_inv in Hhd as [Hlt Hle].
    simpl in Hlt, Hle. rewrite last_cons.
    assert (Hfirst : x1 <= (List.last rest (x1, y1)).1).
    { apply (IH x1 y1 x1 y1 Hs). apply list_elem_of_here. }
    apply elem_of_cons in Hin as [[= -> ->] | Hin].
    + split; lra.
    + destruct (IH x1 y1 xj yj Hs Hin) as [H1 H2]. split; lra.
Qed.

Lemma last_in (x0 y0 : Q) (rest : list (Q * Q)) :
  List.last rest (x0, y0) ∈ (x0, y0) :: rest.
Proof.
  revert x0 y0. induction rest as [|[x1 y1] rest IH]; intros x0 y0.
  - apply list_elem_of_here.
  - rewrite last_cons. apply list_elem_of_further, IH.
Qed.

Lemma zip_last (xs ys : list Q) (x0 y0 : Q) :
  length xs = length ys →
  List.last (zip xs ys) (x0, y0) = (List.last xs x0, List.last ys y0).
Proof.
  revert ys x0 y0. induction xs as [|x xs IH]; intros [|y ys] x0 y0 Hlen; try done.
  simpl in Hlen. injection Hlen as Hlen.
  destruct xs as [|x' xs]; destruct ys as [|y' ys]; try done.
  change (List.last (zip (x :: x' :: xs) (y :: y' :: ys)) (x0, y0))
    with (List.last (zip (x' :: xs) (y' :: ys)) (x0, y0)).
  change (List.last (x :: x' :: xs) x0) with (List.last (x' :: xs) x0).
  change (List.last (y :: y' :: ys) y0) with (List.last (y' :: ys) y0).
  by apply IH.
Qed.

End KnotFacts.

Section IsotonicAtKnots.
Import ModelFitter ModelPredictor.

(** X16. A fitted isotonic model predicts through one function [G]: at
    every [x] knot [G] returns the [y] knot, at and left of the first knot
    it returns the first [y] knot, and at and right of the last knot the
    last one (no extrapolation). *)
Theorem isotonic_model_on_and_off_knots (x y : list Q) (ctx : string)
    (clip_range : Q * Q) (m : ModelMeta) :
  fit_isotonic x y ctx clip_range = ret m →
  ∃ G : Q → Q,
    (∀ xs, apply_model m xs = ret (map G xs))
    ∧ Forall2 (λ xk yk, G xk == yk) (x_knots m) (y_knots m)
    ∧ (∀ v, v <= hd 0 (x_knots m) → G v == hd 0 (y_knots m))
    ∧ (∀ v, List.last (x_knots m) 0 <= v → G v == List.last (y_knots m) 0).
Proof.
  intros Hfit. apply fit_isotonic_model in Hfit as [Hkind (Hlen & [kx0 ky0] & rest & Hz & Hs)].
  destruct (x_knots m) as [|k0 ktl] eqn:Hxk; [discriminate|].
  destruct (y_knots m) as [|y0 ytl] eqn:Hyk; [discriminate|].
  simpl in Hz. injection Hz as -> -> Hrest.
  assert (Hlast : List.last rest (kx0, ky0) = (List.last ktl kx0, List.last ytl ky0)).
  { rewrite <- Hrest. apply zip_last. simpl in Hlen. by injection Hlen. }
  set (xl := List.last ktl kx0). set (yl := List.last ytl ky0).
  set (F := interp_curve kx0 ky0 rest).
  assert (HF0 : F kx0 == ky0).
  { apply interp_curve_at_knot; [exact Hs|apply list_elem_of_here]. }
  assert (HFl : F xl == yl).
  { apply interp_curve_at_knot; [exact Hs|].
    fold xl yl in Hlast. rewrite <- Hlast. apply last_in. }
  assert (Hends : kx0 <= xl).
  { pose proof (knots_between kx0 ky0 rest kx0 ky0 Hs (list_elem_of_here _ _)) as [_ H].
    rewrite Hlast in H. exact H. }
  exists (λ v, F (np_clip v kx0 xl)).
  split; [|split; [|split]].
  - intros xs. unfold apply_model. rewrite Hxk.
    rewrite bool_decide_eq_true_2 by exact Hkind.
    rewrite (traverse_results _ F).
    + by rewrite map_map.
    + intros t. rewrite Hyk. apply np_interp_curve; [exact Hlen|].
      simpl. by rewrite Hrest.
  - apply Forall2_same_length_lookup_2; [exact Hlen|].
    intros i xj yj Hxj Hyj.
    assert (Hin : (xj, yj) ∈ (kx0, ky0) :: rest).
    { apply (list_elem_of_lookup_2 _ i).
      destruct i as [|i]; simpl in *.
      - by injection Hxj as <-; injection Hyj as <-.
      - rewrite <- Hrest, lookup_zip_with, Hxj. simpl. by rewrite Hyj. }
    pose proof (knots_between kx0 ky0 rest xj yj Hs Hin) as [H1 H2].
    rewrite Hlast in H2. simpl in H2. fold xl in H2.
    rewrite np_clip_inside by done. by apply interp_curve_at_knot.
  - intros v Hv. simpl in Hv. simpl.
    rewrite <- HF0. apply interp_curve_proper; [exact Hs|]. by apply np_clip_below.
  - intros v Hv. rewrite last_cons in Hv. rewrite last_cons. fold xl in Hv. fold yl.
    rewrite <- HFl. apply interp_curve_proper; [exact Hs|]. by apply np_clip_above.
Qed.

Lemma isotonic_model_on_and_off_knots_witness :
  ∃ G : Q → Q,
    (∀ xs, apply_model FittedSample.isotonic_model xs = ret (map G xs))
    ∧ Forall2 (λ xk yk, G xk == yk) (x_knots FittedSample.isotonic_model)
              (y_knots FittedSample.isotonic_model).
Proof.
  destruct (isotonic_model_on_and_off_knots RoundTripSample.knots_x RoundTripSample.knots_y
              "global" DEFAULT_CLIP_RANGE FittedSample.isotonic_model)
    as (G & Happ & Hknots & _).
  - vm_compute. reflexivity.
  - exists G. split; [exact Happ|exact Hknots].
Defined.

End IsotonicAtKnots.

(** ** The PCHIP interpolant passes through its knots *)

Section PchipAtKnots.
Import ModelFitter ModelPredictor PchipInterpolator.

Lemma diffs_length (a : list Q) : length (diffs a) = (length a - 1)%nat.
Proof.
  induction a as [|u [|v a] IH]; [done|done|].
  change (diffs (u :: v :: a)) with ((v - u) :: diffs (v :: a)).
  cbn [length] in *. rewrite IH. lia.
Qed.

Lemma interiors_length (hm : list (Q * Q)) :
  length (interiors hm) = (length hm - 1)%nat.
Proof.
  induction hm as [|[h0 m0] [|[h1 m1] hm] IH]; [done|done|].
  change (interiors ((h0, m0) :: (h1, m1) :: hm))
    with (interior h0 m0 h1 m1 :: interiors ((h1, m1) :: hm)).
  cbn [length] in *. rewrite IH. lia.
Qed.

Lemma find_derivatives_length (x y : list Q) :
  length x = length y → (2 ≤ length x)%nat →
  length (_find_derivatives x y) = length x.
Proof.
  intros Hlen H2. unfold _find_derivatives.
  pose proof (diffs_length x) as Hdx. pose proof (diffs_length y) as Hdy.
  assert (Hmk : length (zip_with Qdiv (diffs y) (diffs x)) = length (diffs x)).
  { rewrite length_zip_with. lia. }
  assert (Hz : length (zip (diffs x) (zip_with Qdiv (diffs y) (diffs x)))
               = length (diffs x)).
  { rewrite length_zip_with. lia. }
  destruct (diffs x) as [|h0 [|h1 hk]];
    destruct (zip_with Qdiv (diffs y) _) as [|m0 [|m1 mk]];
    simpl in Hdx, Hmk; try lia; [simpl; lia|].
  rewrite length_app, length_app, interiors_length, Hz. simpl. lia.
Qed.

(** The knots with their derivatives, ordered by abscissa. *)
Definition knot_lt (a b : Q * (Q * Q)) : Prop := a.1 < b.1.

Lemma pieces_head (k0 k1 : Q * (Q * Q)) (K : list (Q * (Q * Q))) :
  ∃ p, pieces (k0 :: k1 :: K) = p :: pieces (k1 :: K)
       ∧ p_x p = k0.1 ∧ c3 p = k0.2.1
       ∧ (k0.1 < k1.1 → eval_piece p k1.1 == k1.2.1).
Proof.
  destruct k0 as [xa [ya da]]. destruct k1 as [xb [yb db]].
  eexists. split; [reflexivity|]. cbn [fst snd p_x c3].
  split; [done|]. split; [done|].
  intros Hab. unfold eval_piece. cbn [p_x c0 c1 c2 c3]. field. lra.
Qed.

Lemma eval_left_knot (p : Piece) : eval_piece p (p_x p) == c3 p.
Proof. unfold eval_piece. ring. Qed.

Lemma pieces_at_knot (k0 : Q * (Q * Q)) (K : list (Q * (Q * Q))) (kj : Q * (Q * Q)) :
  StronglySorted knot_lt (k0 :: K) → K ≠ [] → kj ∈ k0 :: K →
  ∃ p rest, pieces (k0 :: K) = p :: rest
            ∧ p_x p = k0.1
            ∧ eval_piece (find_piece p rest kj.1) kj.1 == kj.2.1.
Proof.
  revert k0 kj. induction K as [|k1 K IH]; intros k0 kj Hs Hne Hin; [done|].
  apply StronglySorted_inv in Hs as [Hs Hall].
  assert (Hab : k0.1 < k1.1).
  { rewrite Forall_forall in Hall. apply (Hall k1), list_elem_of_here. }
  destruct (pieces_head k0 k1 K) as (p & Hp & Hpx & Hc3 & Hright).
  exists p, (pieces (k1 :: K)). split; [exact Hp|]. split; [exact Hpx|].
  destruct K as [|k2 K].
  - (* two knots: the one piece serves both ends *)
    cbn [pieces find_piece]. destruct k1 as [xb [yb db]]. cbn [find_piece].
    apply elem_of_cons in Hin as [-> | Hin].
    + rewrite <- Hpx, <- Hc3. apply eval_left_knot.
    + apply elem_of_cons in Hin as [-> | Hin]; [|by apply elem_of_nil in Hin].
      by apply Hright.
  - destruct (IH k1 k1 Hs ltac:(done) (list_elem_of_here _ _))
      as (q & rest & Hq & Hqx & _).
    rewrite Hq. cbn [find_piece]. rewrite Hqx.
    apply elem_of_cons in Hin as [-> | Hin].
    + rewrite (proj2 (Qlt_bool_iff _ _) Hab).
      rewrite <- Hpx, <- Hc3. apply eval_left_knot.
    + assert (Hge : k1.1 <= kj.1).
      { apply elem_of_cons in Hin as [-> | Hin]; [lra|].
        apply StronglySorted_inv in Hs as [_ Hall1].
        rewrite Forall_forall in Hall1. apply Qlt_le_weak, (Hall1 kj Hin). }
      rewrite (proj2 (Qlt_bool_false _ _) Hge).
      destruct (IH k1 kj Hs ltac:(done) Hin) as (q' & rest' & Hq' & _ & Hev).
      rewrite Hq in Hq'. injection Hq' as <- <-. exact Hev.
Qed.

Lemma sorted_lt_strongly (l : list Q) : Sorted Qlt l → StronglySorted Qlt l.
Proof.
  apply Sorted_StronglySorted. intros a b c Hab Hbc. by apply Qlt_trans with b.
Qed.

Lemma zip_knot_lt (xs : list Q) (zs : list (Q * Q)) :
  StronglySorted Qlt xs → StronglySorted knot_lt (zip xs zs).
Proof.
  intros Hs. revert zs. induction Hs as [|a l Hs IH Hall]; intros zs; [constructor|].
  destruct zs as [|z zs]; [constructor|]. cbn [zip_with]. constructor; [apply IH|].
  rewrite Forall_forall in Hall. apply Forall_forall. intros [b w] Hin.
  apply elem_of_zip_l in Hin. by apply Hall.
Qed.

Lemma sorted_between (k0 : Q) (ktl : list Q) (xj : Q) :
  StronglySorted Qlt (k0 :: ktl) → xj ∈ k0 :: ktl →
  k0 <= xj ∧ xj <= List.last ktl k0.
Proof.
  revert k0 xj. induction ktl as [|k1 ktl IH]; intros k0 xj Hs Hin.
  - apply elem_of_cons in Hin as [-> | Hin]; [simpl; lra|by apply elem_of_nil in Hin].
  - apply StronglySorted_inv in Hs as [Hs Hall]. rewrite Forall_forall in Hall.
    pose proof (Hall k1 (list_elem_of_here _ _)) as H01.
    rewrite last_cons.
    apply elem_of_cons in Hin as [-> | Hin].
    + destruct (IH k1 k1 Hs (list_elem_of_here _ _)) as [_ Hl]. lra.
    + destruct (IH k1 xj Hs Hin) as [Hlo Hhi]. lra.
Qed.

(** The value the interpolant built from [xk] and [yk] takes at [t]. *)
Definition pchip_value (xk yk : list Q) (t : Q) : Q :=
  match pieces (zip xk (zip yk (_find_derivatives xk yk))) with
  | [] => 0
  | p :: rest => eval_piece (find_piece p rest t) t
  end.

Lemma interpolate_value (xk yk : list Q) (t : Q) :
  length xk = length yk → (2 ≤ length xk)%nat → Sorted Qlt xk →
  interpolate xk yk t = ret (pchip_value xk yk t).
Proof.
  intros Hlen H2 Hs. unfold interpolate, pchip_value.
  rewrite bool_decide_eq_true_2 by exact Hlen. simpl negb. cbv iota.
  rewrite bool_decide_eq_false_2 by lia.
  rewrite (sorted_strictly_increasing xk Hs). simpl negb. cbv iota.
  pose proof (find_derivatives_length xk yk Hlen H2) as Hd.
  destruct xk as [|xa [|xb xk]]; simpl in H2; try lia.
  destruct yk as [|ya [|yb yk]]; simpl in Hlen; try lia.
  destruct (_find_derivatives _ _) as [|da [|db ds]]; simpl in Hd; try lia.
  destruct (pieces_head (xa, (ya, da)) (xb, (yb, db)) (zip xk (zip yk ds)))
    as (p & Hp & _).
  cbn [zip_with]. by rewrite Hp.
Qed.

Lemma pchip_value_at_knot (xk yk : list Q) (i : nat) (xj yj : Q) :
  length xk = length yk → (2 ≤ length xk)%nat → Sorted Qlt xk →
  xk !! i = Some xj → yk !! i = Some yj →
  pchip_value xk yk xj == yj.
Proof.
  intros Hlen H2 Hs Hxj Hyj. unfold pchip_value.
  pose proof (find_derivatives_length xk yk Hlen H2) as Hd.
  set (d := _find_derivatives xk yk) in *.
  assert (Hdj : is_Some (d !! i)).
  { apply lookup_lt_is_Some. rewrite Hd. by apply lookup_lt_Some in Hxj. }
  destruct Hdj as [dj Hdj].
  assert (Hin : (xj, (yj, dj)) ∈ zip xk (zip yk d)).
  { apply (list_elem_of_lookup_2 _ i).
    rewrite lookup_zip_with, Hxj. simpl. rewrite lookup_zip_with, Hyj. simpl.
    by rewrite Hdj. }
  assert (Hss : StronglySorted knot_lt (zip xk (zip yk d))).
  { by apply zip_knot_lt, sorted_lt_strongly. }
  assert (Hlz : length (zip xk (zip yk d)) = length xk).
  { rewrite !length_zip_with. lia. }
  destruct (zip xk (zip yk d)) as [|k0 [|k1 K]]; simpl in Hlz; try lia.
  destruct (pieces_at_knot k0 (k1 :: K) (xj, (yj, dj)) Hss ltac:(done) Hin)
    as (p & rest & -> & _ & Hev).
  exact Hev.
Qed.

Lemma removelast_lookup {A} (l : list A) (i : nat) (a : A) :
  removelast l !! i = Some a → l !! i = Some a ∧ (S i < length l)%nat.
Proof.
  revert i. induction l as [|b [|c l] IH]; intros i Hi; [done|done|].
  change (removelast (b :: c :: l)) with (b :: removelast (c :: l)) in Hi.
  destruct i as [|i]; simpl in *.
  - split; [done|lia].
  - destruct (IH i Hi) as [H1 H2]. split; [done|]. simpl in H2. lia.
Qed.

Lemma removelast_length {A} (l : list A) :
  length (removelast l) = (length l - 1)%nat.
Proof.
  induction l as [|b [|c l] IH]; [done|done|].
  change (removelast (b :: c :: l)) with (b :: removelast (c :: l)).
  cbn [length] in *. rewrite IH. lia.
Qed.

(** X17. A PCHIP model returned by [fit_pchip_from_binned], applied to its
    own [x] knots other than the last, returns the [y] knots clipped to the
    clip range: at the left end of each piece the interpolant is the [y]
    knot itself, and only the final clip can move the prediction off it.
    (The last knot is the right end of the last piece, where the value is
    computed from the cubic.) *)
Theorem pchip_model_reproduces_knots (x y : list Q) (ctx : string)
    (clip_range : Q * Q) (num_bins : nat) (m : ModelMeta) :
  fit_pchip_from_binned x y ctx clip_range num_bins = ret m →
  kind m = ModelKind.PCHIP →
  ∃ out, apply_model m (removelast (x_knots m)) = ret out
         ∧ Forall2 (λ o yk, o == np_clip yk (clip_lo m) (clip_hi m))
                   out (removelast (y_knots m)).
Proof.
  intros Hfit Hkind.
  apply fit_pchip_model in Hfit as [[Hiso _] | (_ & Hlen & H3 & Hs)].
  { rewrite Hkind in Hiso. discriminate. }
  assert (H2 : (2 ≤ length (x_knots m))%nat) by lia.
  unfold apply_model.
  destruct (x_knots m) as [|k0 ktl] eqn:Hxk; [simpl in H3; lia|].
  rewrite bool_decide_eq_false_2 by (rewrite Hkind; discriminate).
  rewrite bool_decide_eq_true_2 by exact Hkind.
  set (inner := removelast (k0 :: ktl)).
  assert (Hclip : map (λ v, np_clip v k0 (List.last ktl k0)) inner = inner).
  { rewrite <- (map_id inner) at 2. apply map_ext_in. intros v Hv.
    apply list_elem_of_In, list_elem_of_lookup in Hv as [i Hi].
    apply removelast_lookup in Hi as [Hi _].
    apply list_elem_of_lookup_2 in Hi.
    destruct (sorted_between k0 ktl v (sorted_lt_strongly _ Hs) Hi) as [Hlo Hhi].
    by apply np_clip_inside. }
  rewrite Hclip.
  rewrite (traverse_results _ (pchip_value (k0 :: ktl) (y_knots m))).
  2:{ intros t. by apply interpolate_value. }
  exists (map (λ v, np_clip v (clip_lo m) (clip_hi m))
            (map (pchip_value (k0 :: ktl) (y_knots m)) inner)).
  split; [reflexivity|].
  apply Forall2_same_length_lookup_2.
  { unfold inner. by rewrite !length_map, !removelast_length, Hlen. }
  intros i o yj Ho Hyj.
  change (map ?f ?l) with (f <$> l) in Ho.
  rewrite !list_lookup_fmap in Ho.
  destruct (inner !! i) as [xj|] eqn:Hxj; [|discriminate].
  simpl in Ho. injection Ho as <-.
  apply removelast_lookup in Hxj as [Hxj _].
  apply removelast_lookup in Hyj as [Hyj _].
  apply np_clip_proper. by apply (pchip_value_at_knot _ _ i).
Qed.

Lemma pchip_model_reproduces_knots_witness :
  ∃ out, apply_model FittedSample.pchip_model [40; 60] = ret out
         ∧ Forall2 (λ o yk, o == np_clip yk 35 220) out [45; 65].
Proof.
  destruct (pchip_model_reproduces_knots RoundTripSample.knots_x RoundTripSample.knots_y
              "global" DEFAULT_CLIP_RANGE DEFAULT_NUM_BINS FittedSample.pchip_model)
    as (out & Hout & Hall).
  - vm_compute. reflexivity.
  - reflexivity.
  - exists out. split; [exact Hout|exact Hall].
Defined.

End PchipAtKnots.

(** ** The trainer: training one context and the whole run *)

Section TrainerOutcomes.
Import ModelFitter ModelPredictor ContextualModelTrainer.

(** [apply_model] returns one prediction per input, whatever the input. *)
Definition applicable (m : ModelMeta) : Prop :=
  ∀ xs, ∃ out, apply_model m xs = ret out ∧ length out = length xs.

Lemma fitted_model_applicable (x y : list Q) (ctx : string) (clip_range : Q * Q)
    (num_bins : nat) (m : ModelMeta) :
  fit_isotonic x y ctx clip_range = ret m
  ∨ fit_pchip_from_binned x y ctx clip_range num_bins = ret m →
  applicable m.
Proof.
  intros Hfit.
  assert (Hcases : (kind m = ModelKind.ISOTONIC ∧ monotone_knots m)
                   ∨ (kind m = ModelKind.PCHIP
                      ∧ length (x_knots m) = length (y_knots m)
                      ∧ (3 ≤ length (x_knots m))%nat ∧ Sorted Qlt (x_knots m))).
  { destruct Hfit as [Hfit | Hfit].
    - left. by apply fit_isotonic_model in Hfit.
    - apply fit_pchip_model in Hfit as [[Hk Hiso] | Hp]; [|by right].
      left. by apply fit_isotonic_model in Hiso. }
  intros xs. destruct Hcases as [[Hk Hmono] | (Hk & Hlen & H3 & Hs)].
  - destruct (apply_isotonic_monotone m Hk Hmono) as (G & _ & HG).
    exists (map G xs). split; [apply HG|by rewrite length_map].
  - unfold apply_model.
    destruct (x_knots m) as [|k0 ktl] eqn:Hxk; [simpl in H3; lia|].
    rewrite bool_decide_eq_false_2 by (rewrite Hk; discriminate).
    rewrite bool_decide_eq_true_2 by exact Hk.
    rewrite (traverse_results _ (pchip_value (k0 :: ktl) (y_knots m))).
    2:{ intros t. apply interpolate_value; [done|lia|done]. }
    eexists. split; [reflexivity|]. by rewrite !length_map.
Qed.

Lemma predict_one_returns (m : ModelMeta) (v : Q) :
  applicable m → ∃ p, predict_one m v = ret p.
Proof.
  intros Happ. unfold predict_one.
  destruct (Happ [v]) as (out & -> & Hlen). simpl.
  destruct out as [|p out]; [discriminate|]. by exists p.
Qed.

Lemma traverse_all_return {A B} (f : A → result B) (l : list A) :
  (∀ a, ∃ b, f a = ret b) → ∃ out, traverse f l = ret out ∧ length out = length l.
Proof.
  intros Hf. induction l as [|a l (out & IH & Hlen)]; [by exists []|].
  destruct (Hf a) as [b Hb]. exists (b :: out). simpl. rewrite Hb, IH. simpl.
  split; [done|]. by rewrite Hlen.
Qed.

Lemma predict_for_row_returns (context_models : gmap string ModelMeta)
    (row : PairedRecord) :
  (∀ k m, context_models !! k = Some m → applicable m) →
  is_Some (context_models !! "rest") ∨ is_Some (context_models !! "active") →
  ∃ p, predict_for_row context_models row = ret p.
Proof.
  intros Happ Hsome. unfold predict_for_row, contains, getitem.
  destruct (context_models !! "rest") as [mr|] eqn:Hr;
    destruct (context_models !! "active") as [ma|] eqn:Ha.
  - rewrite (bool_decide_eq_true_2 (is_Some (Some mr))) by done.
    rewrite (bool_decide_eq_true_2 (is_Some (Some ma))) by done.
    destruct (_ && _); simpl; apply predict_one_returns; eauto.
  - rewrite (bool_decide_eq_true_2 (is_Some (Some mr))) by done.
    rewrite (bool_decide_eq_false_2 (is_Some None)) by (by intros [? ?]).
    destruct (_ && _); simpl; apply predict_one_returns; eauto.
  - rewrite (bool_decide_eq_false_2 (is_Some None)) by (by intros [? ?]).
    rewrite (bool_decide_eq_true_2 (is_Some (Some ma))) by done.
    simpl. apply predict_one_returns; eauto.
  - destruct Hsome as [[? ?] | [? ?]]; discriminate.
Qed.

Lemma set_y_hat_rec (df : list PairedRecord) (y : list Q) :
  length y = length df → map rec (set_y_hat df y) = df.
Proof.
  revert y. induction df as [|r df IH]; intros [|v y] Hlen; try done.
  simpl. f_equal. apply IH. simpl in Hlen. lia.
Qed.

Lemma append_inj_r (s a b : string) : s +:+ a = s +:+ b → a = b.
Proof.
  induction s as [|c s IH]; simpl; [done|]. intros [= H]. by apply IH.
Qed.

Lemma train_context_unknown_kind (self : t) (context_data : list PairedRecord)
    (context_name : string) (results : gmap string ResultValue) :
  (30 ≤ length context_data)%nat →
  model_kind self ≠ ModelKind.PCHIP → model_kind self ≠ ModelKind.ISOTONIC →
  _train_context_model self context_data context_name results
  = raise (ValueError ("Unknown model kind: " +:+ model_kind self)).
Proof.
  intros Hge Hp Hi. unfold _train_context_model, MIN_SAMPLES_PER_CONTEXT.
  rewrite bool_decide_eq_false_2 by lia.
  by rewrite !bool_decide_eq_false_2.
Qed.

Lemma train_context_success (self : t) (context_data : list PairedRecord)
    (context_name : string) (results : gmap string ResultValue) :
  (30 ≤ length context_data)%nat →
  model_kind self = ModelKind.PCHIP ∨ model_kind self = ModelKind.ISOTONIC →
  ∃ m y_predicted results',
    _train_context_model self context_data context_name results
    = ret (Some m, results')
    ∧ context m = context_name
    ∧ applicable m
    ∧ apply_model m (map scan_bpm context_data) = ret y_predicted
    ∧ length y_predicted = length context_data
    ∧ results' !! (context_name +:+ "_metrics")
      = Some (RMetrics (MetricsCalculator.calculate_metrics
                          (set_y_hat context_data y_predicted)))
    ∧ results' !! (context_name +:+ "_n")
      = Some (RCount (Z.of_nat (length context_data)))
    ∧ results' !! (context_name +:+ "_model") = Some (RModel m)
    ∧ ∀ k, k ≠ context_name +:+ "_metrics" → k ≠ context_name +:+ "_n" →
           k ≠ context_name +:+ "_model" → results' !! k = results !! k.
Proof.
  intros Hge Hkind. unfold _train_context_model, MIN_SAMPLES_PER_CONTEXT.
  rewrite bool_decide_eq_false_2 by lia.
  set (x_values := map scan_bpm context_data).
  set (y_values := map t10_bpm context_data).
  assert (Hx : x_values ≠ []).
  { unfold x_values. destruct context_data; [simpl in Hge; lia|discriminate]. }
  assert (Hfit : ∃ m,
    (if bool_decide (model_kind self = ModelKind.PCHIP) then
       fit_pchip_from_binned x_values y_values context_name
         DEFAULT_CLIP_RANGE DEFAULT_NUM_BINS
     else if bool_decide (model_kind self = ModelKind.ISOTONIC) then
       fit_isotonic x_values y_values context_name DEFAULT_CLIP_RANGE
     else raise (ValueError ("Unknown model kind: " +:+ model_kind self)))
    = ret m
    ∧ context m = context_name ∧ applicable m).
  { destruct Hkind as [Hk | Hk]; rewrite Hk.
    - rewrite bool_decide_eq_true_2 by done.
      destruct (fit_pchip_succeeds x_values y_values context_name
                  DEFAULT_CLIP_RANGE DEFAULT_NUM_BINS Hx) as [m Hm].
      exists m. split; [done|]. split.
      + by apply fit_pchip_fields in Hm as [? _].
      + eapply fitted_model_applicable. by right.
    - rewrite bool_decide_eq_false_2 by discriminate.
      rewrite bool_decide_eq_true_2 by done.
      destruct (fit_isotonic_succeeds x_values y_values context_name
                  DEFAULT_CLIP_RANGE Hx) as [m Hm].
      exists m. split; [done|]. split.
      + by apply fit_isotonic_fields in Hm as [? _].
      + eapply (fitted_model_applicable _ _ _ _ DEFAULT_NUM_BINS). by left. }
  destruct Hfit as (m & -> & Hctx & Happ).
  destruct (Happ x_values) as (ys & Hys & Hlen).
  assert (Hlen' : length ys = length context_data).
  { by rewrite Hlen; unfold x_values; rewrite length_map. }
  assert (Hsc : length (set_y_hat context_data ys) = length context_data).
  { by rewrite <- (set_y_hat_rec context_data ys Hlen') at 2; rewrite length_map. }
  exists m, ys. eexists. simpl. rewrite Hys. simpl. split; [reflexivity|].
  split; [done|]. split; [done|]. split; [done|]. split; [done|].
  assert (Hkeys : ∀ a b, a ≠ b → context_name +:+ a ≠ context_name +:+ b).
  { intros a b Hab H. by apply append_inj_r in H. }
  split; [|split; [|split]].
  - rewrite !lookup_insert_ne by (by apply Hkeys). by rewrite lookup_insert_eq.
  - rewrite lookup_insert_ne by (by apply Hkeys). by rewrite lookup_insert_eq, Hsc.
  - by rewrite lookup_insert_eq.
  - intros k H1 H2 H3. by rewrite !lookup_insert_ne.
Qed.

(** X18. [_train_context_model] has three outcomes. With fewer than 30
    rows it returns no model and leaves [results] untouched, whatever the
    configured kind. With 30 rows or more and an unknown kind it raises
    [ValueError]. With 30 rows or more and kind [pchip] or [isotonic] it
    never raises: it returns a model for the context, predicts every row of
    the context with it, and stores exactly the three entries
    [<name>_metrics], [<name>_n] (the number of rows) and [<name>_model],
    leaving every other entry of [results] as it was. *)
Theorem train_context_model_outcomes (self : t) (context_data : list PairedRecord)
    (context_name : string) (results : gmap string ResultValue) :
  ((length context_data < 30)%nat →
     _train_context_model self context_data context_name results
     = ret (None, results))
  ∧ ((30 ≤ length context_data)%nat →
     model_kind self ≠ ModelKind.PCHIP → model_kind self ≠ ModelKind.ISOTONIC →
     _train_context_model self context_data context_name results
     = raise (ValueError ("Unknown model kind: " +:+ model_kind self)))
  ∧ ((30 ≤ length context_data)%nat →
     model_kind self = ModelKind.PCHIP ∨ model_kind self = ModelKind.ISOTONIC →
     ∃ m y_predicted results',
       _train_context_model self context_data context_name results
       = ret (Some m, results')
       ∧ context m = context_name
       ∧ apply_model m (map scan_bpm context_data) = ret y_predicted
       ∧ length y_predicted = length context_data
       ∧ results' !! (context_name +:+ "_metrics")
         = Some (RMetrics (MetricsCalculator.calculate_metrics
                             (set_y_hat context_data y_predicted)))
       ∧ results' !! (context_name +:+ "_n")
         = Some (RCount (Z.of_nat (length context_data)))
       ∧ results' !! (context_name +:+ "_model") = Some (RModel m)
       ∧ ∀ k, k ≠ context_name +:+ "_metrics" → k ≠ context_name +:+ "_n" →
              k ≠ context_name +:+ "_model" → results' !! k = results !! k).
Proof.
  split; [|split].
  - intros Hlt. by apply train_below_minimum.
  - apply train_context_unknown_kind.
  - intros Hge Hkind.
    destruct (train_context_success self context_data context_name results Hge Hkind)
      as (m & ys & results' & H1 & H2 & _ & H3).
    by exists m, ys, results'.
Qed.

Lemma train_context_model_outcomes_witness :
  ∃ m results',
    _train_context_model FallbackSample.isotonic_trainer TrainSample.active_rows
      "active" ∅ = ret (Some m, results')
    ∧ context m = "active"
    ∧ results' !! "active_n" = Some (RCount 30).
Proof.
  destruct (train_context_model_outcomes FallbackSample.isotonic_trainer
              TrainSample.active_rows "active" ∅) as (_ & _ & H).
  destruct H as (m & ys & results' & Hrun & Hctx & _ & _ & _ & Hn & _).
  - vm_compute. lia.
  - right. reflexivity.
  - exists m, results'. split; [exact Hrun|]. split; [exact Hctx|exact Hn].
Defined.

Lemma contextual_predictions_total (self : t) (pairs : list PairedRecord)
    (context_models : gmap string ModelMeta) (results : gmap string ResultValue) :
  pairs ≠ [] →
  (∀ k m, context_models !! k = Some m → applicable m) →
  (∀ k, is_Some (context_models !! k) → k = "rest" ∨ k = "active") →
  ∃ scored results',
    _apply_contextual_predictions self pairs context_models results
    = ret (scored, results')
    ∧ map rec scored = pairs.
Proof.
  intros Hne Happ Hkeys. unfold _apply_contextual_predictions.
  case_bool_decide as Hempty.
  - unfold _apply_global_fallback.
    assert (Hx : map scan_bpm pairs ≠ []) by (by destruct pairs).
    destruct (fit_pchip_succeeds (map scan_bpm pairs) (map t10_bpm pairs) "global"
                DEFAULT_CLIP_RANGE DEFAULT_NUM_BINS Hx) as [m Hm].
    rewrite Hm. simpl.
    assert (Hm' : applicable m) by (eapply fitted_model_applicable; by right).
    destruct (Hm' (map scan_bpm pairs)) as (ys & -> & Hlen). simpl.
    eexists _, _. split; [reflexivity|].
    apply set_y_hat_rec. by rewrite Hlen, length_map.
  - apply map_choose in Hempty as (k & m & Hk).
    assert (Hsome : is_Some (context_models !! "rest")
                    ∨ is_Some (context_models !! "active")).
    { destruct (Hkeys k (mk_is_Some _ _ Hk)) as [-> | ->]; [left|right]; by exists m. }
    destruct (traverse_all_return (predict_for_row context_models) pairs)
      as (ys & -> & Hlen).
    { intros row. by apply predict_for_row_returns. }
    simpl. eexists _, _. split; [reflexivity|]. by apply set_y_hat_rec.
Qed.

(** X19. [train_and_apply] on the paired minutes: without pairs it raises
    [RuntimeError]. With an unknown model kind it raises [ValueError] as
    soon as one context has 30 rows or more. With kind [pchip] or
    [isotonic] and at least one pair it never raises: it returns one scored
    record per pair, in the order of the pairs, and [chosen_models] holds
    the rest model exactly when the rest context has 30 rows or more, the
    active model likewise, no other key, and every model under the name of
    its own context. *)
Theorem train_and_apply_outcomes (self : t) (pairs : list PairedRecord) :
  train_and_apply self [] = raise (RuntimeError "No paired minutes after filtering.")
  ∧ (model_kind self ≠ ModelKind.PCHIP → model_kind self ≠ ModelKind.ISOTONIC →
     (30 ≤ length (_split_by_context pairs).1)%nat
     ∨ (30 ≤ length (_split_by_context pairs).2)%nat →
     train_and_apply self pairs
     = raise (ValueError ("Unknown model kind: " +:+ model_kind self)))
  ∧ (pairs ≠ [] →
     model_kind self = ModelKind.PCHIP ∨ model_kind self = ModelKind.ISOTONIC →
     ∃ scored export,
       train_and_apply self pairs = ret (scored, export)
       ∧ map rec scored = pairs
       ∧ (is_Some (chosen_models export !! "rest")
          ↔ (30 ≤ length (_split_by_context pairs).1)%nat)
       ∧ (is_Some (chosen_models export !! "active")
          ↔ (30 ≤ length (_split_by_context pairs).2)%nat)
       ∧ (∀ k m, chosen_models export !! k = Some m →
            (k = "rest" ∨ k = "active") ∧ context m = k)).
Proof.
  split; [reflexivity|]. split.
  - intros Hp Hi Hbig. unfold train_and_apply.
    destruct pairs as [|p pairs'].
    { simpl in Hbig. lia. }
    destruct (_split_by_context (p :: pairs')) as [rest_data active_data].
    cbn [fst snd] in Hbig.
    destruct (decide (30 ≤ length rest_data)%nat) as [Hr | Hr].
    + by rewrite train_context_unknown_kind.
    + rewrite train_below_minimum by (unfold MIN_SAMPLES_PER_CONTEXT; lia).
      simpl. rewrite train_context_unknown_kind by (done || lia). done.
  - intros Hne Hkind. unfold train_and_apply.
    destruct pairs as [|p pairs']; [done|].
    destruct (_split_by_context (p :: pairs')) as [rest_data active_data].
    cbn [fst snd].
    assert (Htrain : ∀ data name results,
      ∃ om results', _train_context_model self data name results = ret (om, results')
        ∧ match om with
          | Some m => (30 ≤ length data)%nat ∧ context m = name ∧ applicable m
          | None => (length data < 30)%nat
          end).
    { intros data name results.
      destruct (decide (30 ≤ length data)%nat) as [Hge | Hlt].
      - destruct (train_context_success self data name results Hge Hkind)
          as (m & ys & results' & Hrun & Hctx & Happ & _).
        by exists (Some m), results'.
      - exists None, results. split; [|lia].
        apply train_below_minimum. unfold MIN_SAMPLES_PER_CONTEXT. lia. }
    destruct (Htrain rest_data "rest" ∅) as (rest_model & results1 & -> & Hrest).
    simpl.
    destruct (Htrain active_data "active" results1)
      as (active_model & results2 & -> & Hactive).
    simpl.
    set (cm1 := match rest_model with
                | Some m => <["rest" := m]> (∅ : gmap string ModelMeta)
                | None => ∅
                end).
    set (cm := match active_model with
               | Some m => <["active" := m]> cm1
               | None => cm1
               end).
    assert (Hcm : ∀ k m, cm !! k = Some m →
              (k = "rest" ∧ rest_model = Some m)
              ∨ (k = "active" ∧ active_model = Some m)).
    { intros k m H. unfold cm, cm1 in H.
      destruct active_model as [ma|], rest_model as [mr|];
        repeat match type of H with
        | <[_:=_]> _ !! _ = Some _ =>
            apply lookup_insert_Some in H as [[<- <-] | [_ H]]; [by auto|]
        end;
        by rewrite lookup_empty in H. }
    assert (Hr : is_Some (cm !! "rest") ↔ is_Some rest_model).
    { unfold cm, cm1.
      destruct active_model as [ma|], rest_model as [mr|];
        rewrite ?(lookup_insert_ne _ "active" "rest") by done;
        by rewrite ?lookup_insert_eq, ?lookup_empty. }
    assert (Ha : is_Some (cm !! "active") ↔ is_Some active_model).
    { unfold cm, cm1.
      destruct active_model as [ma|], rest_model as [mr|];
        rewrite ?lookup_insert_eq;
        rewrite ?(lookup_insert_ne _ "rest" "active") by done;
        by rewrite ?lookup_empty. }
    destruct (contextual_predictions_total self (p :: pairs') cm results2)
      as (scored & results3 & -> & Hrec); [done| | |].
    { intros k m Hk. destruct (Hcm k m Hk) as [[_ ->] | [_ ->]]; tauto. }
    { intros k [m Hk]. destruct (Hcm k m Hk) as [[-> _] | [-> _]]; tauto. }
    simpl. eexists _, _. split; [reflexivity|]. split; [exact Hrec|].
    unfold _prepare_export_data. cbn [chosen_models].
    split; [|split].
    + rewrite Hr. destruct rest_model; split; intros H; try tauto; try (by eexists).
      * destruct H as [? ?]; discriminate.
      * lia.
    + rewrite Ha. destruct active_model; split; intros H; try tauto; try (by eexists).
      * destruct H as [? ?]; discriminate.
      * lia.
    + intros k m Hk. destruct (Hcm k m Hk) as [[-> Hm] | [-> Hm]].
      * rewrite Hm in Hrest. split; [by left|tauto].
      * rewrite Hm in Hactive. split; [by right|tauto].
Qed.

Lemma train_and_apply_outcomes_witness :
  ∃ scored export,
    train_and_apply FallbackSample.isotonic_trainer FallbackSample.two_pairs
    = ret (scored, export)
    ∧ map rec scored = FallbackSample.two_pairs.
Proof.
  destruct (train_and_apply_outcomes FallbackSample.isotonic_trainer
              FallbackSample.two_pairs) as (_ & _ & H).
  destruct H as (scored & export & Hrun & Hrec & _).
  - discriminate.
  - right. reflexivity.
  - exists scored, export. split; [exact Hrun|exact Hrec].
Defined.

(** X20. [_split_by_context] keeps rows of [df] only. A row of [df] lands
    in both contexts exactly when it is a sport minute with a positive
    sleep status, and in neither exactly when it is no sport minute and its
    sleep status is negative; so the two contexts together count every row,
    plus the rows in both, minus the rows in neither. *)
Theorem split_by_context_overlap (df : list PairedRecord) :
  let rest_data := (_split_by_context df).1 in
  let active_data := (_split_by_context df).2 in
  let both := filter (λ r, is_sport r = true ∧ (sleep_status r > 0)%Z) df in
  let neither := filter (λ r, is_sport r = false ∧ (sleep_status r < 0)%Z) df in
  (∀ r, r ∈ rest_data ∨ r ∈ active_data → r ∈ df)
  ∧ (∀ r, r ∈ df →
       (r ∈ rest_data ∧ r ∈ active_data
        ↔ is_sport r = true ∧ (sleep_status r > 0)%Z))
  ∧ (∀ r, r ∈ df →
       ((r ∉ rest_data) ∧ (r ∉ active_data)
        ↔ is_sport r = false ∧ (sleep_status r < 0)%Z))
  ∧ (length rest_data + length active_data + length neither
     = length df + length both)%nat.
Proof.
  unfold _split_by_context. cbn [fst snd]. split; [|split; [|split]].
  - intros r [H | H]; by apply list_elem_of_filter in H as [_ ?].
  - intros r Hr. rewrite !list_elem_of_filter. split.
    + intros [[Hs _] [[Hsp | Hz] _]]; [done|lia].
    + intros [Hsp Hs]. split; (split; [|done]); [done|by left].
  - intros r Hr. rewrite !list_elem_of_filter. split.
    + intros [Hrest Hact]. destruct (is_sport r) eqn:Hsp.
      * exfalso. apply Hact. split; [by left|done].
      * split; [done|].
        destruct (decide (sleep_status r > 0)%Z) as [Hpos | Hpos];
          [exfalso; by apply Hrest|].
        destruct (decide (sleep_status r = 0)%Z) as [Hz | Hz]; [|lia].
        exfalso. apply Hact. split; [by right|done].
    + intros [Hsp Hs]. split.
      * intros [Hpos _]. lia.
      * intros [[Ht | Hz] _]; [congruence|lia].
  - induction df as [|r df IH]; [done|].
    rewrite !filter_cons.
    destruct (is_sport r) eqn:Hsp;
      repeat case_decide; cbn [length]; try lia;
      exfalso; intuition (congruence || lia).
Qed.

Lemma split_by_context_overlap_witness :
  ¬ (SelectionSample.asleep_row ∈ (_split_by_context FallbackSample.two_pairs).1
     ∧ SelectionSample.asleep_row ∈ (_split_by_context FallbackSample.two_pairs).2).
Proof.
  destruct (split_by_context_overlap FallbackSample.two_pairs) as (_ & Hboth & _).
  intros H. apply (Hboth SelectionSample.asleep_row) in H as [Hsp _].
  - discriminate.
  - apply list_elem_of_here.
Defined.

End TrainerOutcomes.

(** ** The binned fit needs three samples below the maximum *)

Section BinnedFallback.
Import ModelFitter BinnedMedianFitter.

Lemma run_heads_length (prev : option Q) (l : list (Q * nat)) :
  (length (run_heads prev l) ≤ length l)%nat.
Proof.
  revert prev. induction l as [|[v i] l IH]; intros prev; [done|]. simpl.
  specialize (IH (Some v)). destruct (match prev with Some _ => _ | None => _ end);
    simpl; lia.
Qed.

Lemma np_unique_length (a : list Q) : (length (np_unique a) ≤ length a)%nat.
Proof.
  unfold np_unique. etransitivity; [apply run_heads_length|].
  rewrite merge_sort_Permutation, length_zip_with, length_seq. lia.
Qed.

Lemma mask_hit (indices : list Z) (b : nat) :
  existsb id (bin_mask indices b) = true →
  (1 ≤ length (filter (λ i, i = Z.of_nat b) indices))%nat.
Proof.
  induction indices as [|i indices IH]; [done|]. simpl.
  rewrite filter_cons. case_bool_decide as Hi; simpl.
  - intros _. rewrite decide_True by done. simpl. lia.
  - intros H. rewrite decide_False by done. by apply IH.
Qed.

Lemma range_split (indices : list Z) (k m : nat) :
  length (filter (λ i, Z.of_nat k ≤ i < Z.of_nat (k + S m))%Z indices)
  = (length (filter (λ i, i = Z.of_nat k) indices)
     + length (filter (λ i, Z.of_nat (S k) ≤ i < Z.of_nat (S k + m))%Z indices))%nat.
Proof.
  induction indices as [|i indices IH]; [done|].
  rewrite !filter_cons.
  repeat case_decide; cbn [length]; lia.
Qed.

Lemma bins_loop_count (x y : list Q) (indices : list Z) (k m : nat) :
  (length (bins_loop x y indices (seq k m)).1
   ≤ length (filter (λ i, Z.of_nat k ≤ i < Z.of_nat (k + m))%Z indices))%nat.
Proof.
  revert k. induction m as [|m IH]; intros k; [simpl; lia|].
  rewrite range_split. specialize (IH (S k)).
  cbn [seq bins_loop].
  destruct (bins_loop x y indices (seq (S k) m)) as [xm ym].
  destruct (existsb id (bin_mask indices k)) eqn:Hany.
  - apply mask_hit in Hany. cbn [fst length] in *. lia.
  - cbn [fst] in *. lia.
Qed.

Lemma filter_map_count {A B} (f : A → B) (P : B → Prop) (Q' : A → Prop)
    `{∀ b, Decision (P b)} `{∀ a, Decision (Q' a)} (l : list A) :
  (∀ a, a ∈ l → P (f a) → Q' a) →
  (length (filter P (map f l)) ≤ length (filter Q' l))%nat.
Proof.
  induction l as [|a l IH]; intros Himp; [done|].
  assert (IH' := IH (λ b Hb, Himp b (list_elem_of_further _ _ _ Hb))).
  cbn [map]. rewrite !filter_cons.
  destruct (decide (P (f a))) as [HP | HP].
  - rewrite decide_True by (apply Himp; [apply list_elem_of_here|done]).
    cbn [length]. lia.
  - destruct (decide (Q' a)); cbn [length]; lia.
Qed.

Lemma binned_knots_below_max (x y : list Q) (num_bins : nat) (x_min x_max : Q) :
  np_nanmin x = ret x_min → np_nanmax x = ret x_max →
  ∃ binned_x binned_y,
    fit x y (np_linspace x_min x_max num_bins) = ret (binned_x, binned_y)
    ∧ (length binned_x ≤ length (filter (λ v : Q, (v < x_max)%Q) x))%nat.
Proof.
  intros Hmin Hmax. unfold fit.
  rewrite (digitize_linspace x num_bins x_min x_max Hmin Hmax). simpl.
  rewrite linspace_length.
  replace (S num_bins - 1)%nat with num_bins by lia.
  set (indices := map (λ k : nat, (Z.of_nat k - 1)%Z)
                      (map (searchsorted_right (np_linspace x_min x_max num_bins)) x)).
  pose proof (bins_loop_count x y indices 0 num_bins) as Hcount.
  destruct (bins_loop x y indices (seq 0 num_bins)) as [bx by'] eqn:Hloop.
  exists bx, by'. split; [done|]. cbn [fst] in Hcount.
  etransitivity; [exact Hcount|].
  unfold indices. rewrite map_map.
  apply filter_map_count. intros v Hv [_ Hidx].
  destruct (Qlt_le_dec v x_max) as [Hlt | Hge]; [done|]. exfalso.
  rewrite searchsorted_right_all, linspace_length in Hidx; [simpl in Hidx; lia|].
  intros b Hb. apply Qle_trans with x_max; [|done].
  eapply linspace_all_le; [|exact Hb]. by eapply nanmin_le_nanmax.
Qed.

Lemma list_max_in (x0 : Q) (l : list Q) : list_max x0 l ∈ x0 :: l.
Proof.
  revert x0. induction l as [|a l IH]; intros x0; simpl; [apply list_elem_of_here|].
  specialize (IH (Qmax x0 a)). apply elem_of_cons in IH as [-> | IH].
  - unfold Qmax, GenericMinMax.gmax. destruct (x0 ?= a);
      [apply list_elem_of_here|apply list_elem_of_further, list_elem_of_here
      |apply list_elem_of_here].
  - by do 2 apply list_elem_of_further.
Qed.

Lemma filter_length_lt {A} (P : A → Prop) `{∀ a, Decision (P a)} (l : list A) (a : A) :
  a ∈ l → ¬ P a → (length (filter P l) < length l)%nat.
Proof.
  induction l as [|b l IH]; intros Hin Hna; [by apply elem_of_nil in Hin|].
  rewrite filter_cons. pose proof (length_filter P l) as Hle.
  apply elem_of_cons in Hin as [<- | Hin].
  - rewrite decide_False by done. simpl. lia.
  - specialize (IH Hin Hna). destruct (decide (P b)); simpl; lia.
Qed.

Lemma none_below_constant (x : list Q) (c : Q) :
  (∀ v, v ∈ x → v == c) → filter (λ v, v < c) x = [].
Proof.
  induction x as [|v x IH]; intros Hall; [done|].
  rewrite filter_cons.
  assert (Hv : v == c) by apply Hall, list_elem_of_here.
  rewrite decide_False by (rewrite Hv; apply Qlt_irrefl).
  apply IH. intros w Hw. by apply Hall, list_elem_of_further.
Qed.

(** X21. [fit_pchip_from_binned] returns a PCHIP model only when at least
    three samples lie strictly below the largest [x]: with fewer it
    returns what [fit_isotonic] returns on the same data. A data set of at
    most three samples, and one whose [x] values are all equal, have fewer,
    so they always get the isotonic model. *)
Theorem pchip_needs_three_below_max (x y : list Q) (ctx : string)
    (clip_range : Q * Q) (num_bins : nat) (x_max : Q) :
  np_nanmax x = ret x_max →
  ((length (filter (λ v : Q, (v < x_max)%Q) x) < 3)%nat →
     fit_pchip_from_binned x y ctx clip_range num_bins
     = fit_isotonic x y ctx clip_range)
  ∧ ((length x ≤ 3)%nat → (length (filter (λ v : Q, (v < x_max)%Q) x) < 3)%nat)
  ∧ ((∀ v, v ∈ x → v == x_max) → filter (λ v : Q, (v < x_max)%Q) x = []).
Proof.
  intros Hmax. split; [|split].
  - intros Hfew. unfold fit_pchip_from_binned.
    destruct x as [|x0 xtl] eqn:Hx; [discriminate|]. rewrite <- Hx in *.
    assert (Hmin : np_nanmin x = ret (list_min x0 xtl)) by (by rewrite Hx).
    rewrite Hmin, Hmax. simpl.
    destruct (binned_knots_below_max x y num_bins _ _ Hmin Hmax)
      as (bx & by' & -> & Hlen).
    simpl. rewrite bool_decide_eq_true_2; [done|].
    unfold MIN_POINTS_FOR_PCHIP, take_indices. rewrite !length_map.
    pose proof (np_unique_length bx). lia.
  - intros Hlen. destruct x as [|x0 xtl]; [discriminate|].
    injection Hmax as <-.
    assert (Hlt : (length (filter (λ v : Q, (v < list_max x0 xtl)%Q) (x0 :: xtl))
                   < length (x0 :: xtl))%nat).
    { apply (filter_length_lt _ _ (list_max x0 xtl)); [apply list_max_in|].
      apply Qlt_irrefl. }
    lia.
  - apply none_below_constant.
Qed.

Lemma pchip_needs_three_below_max_witness :
  fit_pchip_from_binned [70; 70; 90] [72; 80; 95] "rest" DEFAULT_CLIP_RANGE 15
  = fit_isotonic [70; 70; 90] [72; 80; 95] "rest" DEFAULT_CLIP_RANGE.
Proof.
  destruct (pchip_needs_three_below_max [70; 70; 90] [72; 80; 95] "rest"
              DEFAULT_CLIP_RANGE 15 90 eq_refl) as (Hfit & _ & _).
  apply Hfit. vm_compute. lia.
Defined.

End BinnedFallback.

(** ** T10 heart rate: aggregation into bins *)

Section T10Aggregation.
Import T10DataProcessor.
Local Open Scope Z_scope.

Lemma zip_graph {A B} (f : A → B) (l : list A) :
  zip l (map f l) = map (λ a, (a, f a)) l.
Proof. induction l as [|a l IH]; [done|]. simpl. by rewrite IH. Qed.

Lemma sorted_keys_strict {A} (key : A → Z) (l : list A) :
  StronglySorted (λ a b, key a ≤ key b) l → NoDup (map key l) →
  StronglySorted (λ a b, key a < key b) l.
Proof.
  induction l as [|p l IH]; intros Hs Hnd; [constructor|].
  apply StronglySorted_inv in Hs as [Hs Hall].
  simpl in Hnd. apply NoDup_cons in Hnd as [Hnotin Hnd].
  constructor; [by apply IH|].
  apply Forall_forall. intros q Hq.
  rewrite Forall_forall in Hall. specialize (Hall q Hq).
  assert (key p ≠ key q).
  { intros Heq. apply Hnotin. rewrite Heq.
    change (map key l) with (key <$> l). by apply list_elem_of_fmap_2. }
  simpl in *. lia.
Qed.

(** The grouped and aggregated frame before the final sort. *)
Definition t10_groups (df_hr : list HeartRateSample) (step : Z) : list T10Minute :=
  map (λ k, let inside := filter (λ s, floor (timestamp_utc s) step = k) df_hr in
            {| t_window_utc := k;
               t_t10_bpm := mean (map heartRate inside);
               t_t10_points := Z.of_nat (length inside) |})
      (merge_sort Z.le (remove_dups
         (map (λ s, floor (timestamp_utc s) step) df_hr))).

Lemma process_heart_rate_unfold (df_hr : list HeartRateSample) (step : Z) :
  process_heart_rate_data df_hr step
  = merge_sort t10_window_le (t10_groups df_hr step).
Proof.
  unfold process_heart_rate_data, t10_groups.
  destruct df_hr as [|s0 df] eqn:Hdf; [done|]. rewrite <- Hdf. clear Hdf s0 df.
  f_equal. unfold floor_to_bin, groupby_window.
  rewrite (map_map timestamp_utc), zip_graph.
  rewrite (map_map _ snd), (map_map _ agg). cbn [snd].
  apply map_ext. intros k. unfold agg. cbn [fst snd].
  rewrite (filter_map_comm (λ s, (s, floor (timestamp_utc s) step)) (λ r, r.2 = k)).
  cbn [snd]. rewrite map_map, length_map. reflexivity.
Qed.

Lemma t10_groups_windows (df_hr : list HeartRateSample) (step : Z) :
  map t_window_utc (t10_groups df_hr step)
  = merge_sort Z.le (remove_dups (map (λ s, floor (timestamp_utc s) step) df_hr)).
Proof.
  unfold t10_groups. rewrite map_map. cbn [t_window_utc]. apply map_id.
Qed.

Lemma t10_windows_NoDup (df_hr : list HeartRateSample) (step : Z) :
  NoDup (map t_window_utc (process_heart_rate_data df_hr step)).
Proof.
  rewrite process_heart_rate_unfold.
  assert (Hp : map t_window_utc (merge_sort t10_window_le (t10_groups df_hr step))
               ≡ₚ map t_window_utc (t10_groups df_hr step)).
  { apply Permutation_map, merge_sort_Permutation. }
  rewrite Hp, t10_groups_windows, merge_sort_Permutation. apply NoDup_remove_dups.
Qed.

Global Instance t10_window_le_trans : Transitive t10_window_le.
Proof. intros a b c. unfold t10_window_le. lia. Qed.

Global Instance t10_window_le_total : Total t10_window_le.
Proof. intros a b. unfold t10_window_le. lia. Qed.

Lemma t10_sorted (df_hr : list HeartRateSample) (step : Z) :
  StronglySorted (λ a b, t_window_utc a < t_window_utc b)
                 (process_heart_rate_data df_hr step).
Proof.
  apply sorted_keys_strict; [|apply t10_windows_NoDup].
  rewrite process_heart_rate_unfold.
  apply (StronglySorted_merge_sort t10_window_le).
Qed.

Lemma t10_elem (df_hr : list HeartRateSample) (step : Z) (m : T10Minute) :
  0 < step →
  m ∈ process_heart_rate_data df_hr step →
  let inside := filter (λ s, t_window_utc m ≤ timestamp_utc s < t_window_utc m + step)
                       df_hr in
  (step | t_window_utc m)
  ∧ inside ≠ []
  ∧ t_t10_points m = Z.of_nat (length inside)
  ∧ t_t10_bpm m = mean (map heartRate inside).
Proof.
  intros Hstep Hm. rewrite process_heart_rate_unfold, merge_sort_Permutation in Hm.
  unfold t10_groups in Hm.
  change (map ?f ?l) with (f <$> l) in Hm at 1.
  apply list_elem_of_fmap in Hm as (k & -> & Hk).
  rewrite merge_sort_Permutation, elem_of_remove_dups in Hk.
  change (map ?f ?l) with (f <$> l) in Hk.
  apply list_elem_of_fmap in Hk as (s0 & Hk & Hs0).
  cbn [t_window_utc t_t10_points t_t10_bpm].
  assert (Hdiv : (step | k)) by (rewrite Hk; apply floor_divide).
  assert (Hsame : filter (λ s, floor (timestamp_utc s) step = k) df_hr
                  = filter (λ s, k ≤ timestamp_utc s < k + step) df_hr).
  { apply list_filter_iff. intros s. split.
    - intros <-. by apply floor_bounds.
    - intros Hb. by apply floor_unique. }
  rewrite Hsame. split; [exact Hdiv|]. split; [|done].
  intros Hnil. assert (Hin : s0 ∈ filter (λ s, k ≤ timestamp_utc s < k + step) df_hr).
  { apply list_elem_of_filter. split; [|exact Hs0]. rewrite Hk. by apply floor_bounds. }
  rewrite Hnil in Hin. by apply elem_of_nil in Hin.
Qed.

Lemma t10_counts_total (df_hr : list HeartRateSample) (step : Z) :
  foldr Z.add 0 (map t_t10_points (process_heart_rate_data df_hr step))
  = Z.of_nat (length df_hr).
Proof.
  rewrite process_heart_rate_unfold.
  assert (Hperm : ∀ l l' : list Z, l ≡ₚ l' → foldr Z.add 0 l = foldr Z.add 0 l').
  { induction 1; simpl; lia. }
  rewrite (Hperm _ (map t_t10_points (t10_groups df_hr step)))
    by apply Permutation_map, merge_sort_Permutation.
  unfold t10_groups. rewrite map_map. cbn [t_t10_points].
  set (key := λ s, floor (timestamp_utc s) step).
  set (keys := merge_sort Z.le (remove_dups (map key df_hr))).
  assert (Hsum : ∀ ks : list Z,
            foldr Z.add 0 (map (λ k, Z.of_nat (length (filter (λ s, key s = k) df_hr))) ks)
            = Z.of_nat (sum_list_with (λ k, length (filter (λ s, key s = k) df_hr)) ks)).
  { induction ks as [|k ks IH]; [done|]. simpl. rewrite IH. lia. }
  rewrite Hsum. f_equal. apply (group_sizes_total key).
  - unfold keys. rewrite merge_sort_Permutation. apply NoDup_remove_dups.
  - intros s Hs. unfold keys. rewrite merge_sort_Permutation, elem_of_remove_dups.
    change (map key df_hr) with (key <$> df_hr). by apply list_elem_of_fmap_2.
Qed.

(** X22. [process_heart_rate_data] partitions the samples by bin: the rows
    come in strictly increasing bin order (one row per bin), each bin
    starts on the grid, holds at least one sample, counts in [t10_points]
    exactly the samples with [window <= timestamp < window + bin], has
    their mean heart rate as [t10_bpm], and the counts add up to the number
    of samples; a sample's bin is always among the rows. *)
Theorem t10_bins_partition_samples (df_hr : list HeartRateSample) (step : Z) :
  0 < step →
  let out := process_heart_rate_data df_hr step in
  StronglySorted (λ a b, t_window_utc a < t_window_utc b) out
  ∧ foldr Z.add 0 (map t_t10_points out) = Z.of_nat (length df_hr)
  ∧ (∀ m, m ∈ out →
       let inside :=
         filter (λ s, t_window_utc m ≤ timestamp_utc s < t_window_utc m + step) df_hr in
       (step | t_window_utc m)
       ∧ 1 ≤ t_t10_points m
       ∧ t_t10_points m = Z.of_nat (length inside)
       ∧ t_t10_bpm m = mean (map heartRate inside))
  ∧ (∀ s, s ∈ df_hr →
       ∃ m, m ∈ out ∧ t_window_utc m = floor (timestamp_utc s) step).
Proof.
  intros Hstep out. split; [apply t10_sorted|]. split; [apply t10_counts_total|]. split.
  - intros m Hm. destruct (t10_elem df_hr step m Hstep Hm) as (Hdiv & Hne & Hn & Hmean).
    split; [exact Hdiv|]. split; [|by split].
    rewrite Hn. destruct (filter _ df_hr); [done|]. simpl. lia.
  - intros s Hs. unfold out. rewrite process_heart_rate_unfold.
    setoid_rewrite merge_sort_Permutation.
    eexists. split.
    + unfold t10_groups. change (map ?f ?l) with (f <$> l) at 1.
      apply list_elem_of_fmap_2.
      rewrite merge_sort_Permutation, elem_of_remove_dups.
      change (map ?f df_hr) with (f <$> df_hr).
      apply (list_elem_of_fmap_2 (λ s, floor (timestamp_utc s) step)). exact Hs.
    + reflexivity.
Qed.

Lemma sample_t10_minutes :
  process_heart_rate_data T10Sample.samples 60000000000 = T10Sample.minutes.
Proof. vm_compute. reflexivity. Qed.

Lemma t10_bins_partition_samples_witness :
  foldr Z.add 0 (map t_t10_points T10Sample.minutes) = 4
  ∧ StronglySorted (λ a b, t_window_utc a < t_window_utc b) T10Sample.minutes.
Proof.
  destruct (t10_bins_partition_samples T10Sample.samples 60000000000)
    as (Hsorted & Hcount & _).
  - reflexivity.
  - rewrite sample_t10_minutes in Hsorted, Hcount. split; [exact Hcount|exact Hsorted].
Defined.

End T10Aggregation.

(** ** The pair builder: join, filters, annotation and order *)

Section PairBuilder.
Import DataPairBuilder.
Local Open Scope Z_scope.

Lemma annotate_context_map (min_df : list MinuteRow) (df_sleep : list SleepInterval)
    (df_sport : list SportInterval) (step : Z) :
  annotate_context min_df df_sleep df_sport step
  = map (λ r, annotate_row r
                (window_sleep_status (m_window_utc r) (m_window_utc r + step) df_sleep)
                (existsb (λ sp, _has_overlap (m_window_utc r) (m_window_utc r + step)
                                  (sport_start_utc sp) (sport_end_utc sp)) df_sport))
        min_df.
Proof.
  unfold annotate_context.
  destruct min_df as [|r0 rest] eqn:Hdf; [done|].
  rewrite <- Hdf. clear Hdf r0 rest.
  apply list_eq. intros i.
  rewrite lookup_zip_with.
  match goal with
  | |- _ = map ?f min_df !! i =>
      change (map f min_df !! i) with ((f <$> min_df) !! i)
  end.
  rewrite list_lookup_fmap.
  destruct (min_df !! i) as [r|] eqn:Hr; [|done]. simpl.
  assert (Hws : map m_window_utc min_df !! i = Some (m_window_utc r)).
  { change (map ?f ?l) with (f <$> l). by rewrite list_lookup_fmap, Hr. }
  assert (Hwe : map (λ r, m_window_utc r + step) min_df !! i
                = Some (m_window_utc r + step)).
  { change (map ?f ?l) with (f <$> l). by rewrite list_lookup_fmap, Hr. }
  rewrite lookup_zip_with.
  rewrite (sleep_status_lookup _ _ _ _ _ _ Hws Hwe). simpl.
  by rewrite (sport_flags_lookup _ _ _ _ _ _ Hws Hwe).
Qed.

Lemma merge_elem (left : list T10Minute) (right : list ResampledPoint) (r : JoinedRow) :
  r ∈ merge left right
  ↔ ∃ t p, t ∈ left ∧ p ∈ right ∧ rp_window_utc p = t_window_utc t ∧ r = join_row t p.
Proof.
  unfold merge. rewrite list_elem_of_In, in_flat_map. split.
  - intros (t & Ht & Hr). apply list_elem_of_In in Ht, Hr.
    change (map ?f ?l) with (f <$> l) in Hr.
    apply list_elem_of_fmap in Hr as (p & -> & Hp).
    apply list_elem_of_filter in Hp as [Hw Hp]. by exists t, p.
  - intros (t & p & Ht & Hp & Hw & ->). exists t.
    split; [by apply list_elem_of_In|]. apply list_elem_of_In.
    change (map ?f ?l) with (f <$> l). apply list_elem_of_fmap_2.
    by apply list_elem_of_filter.
Qed.

Lemma filter_key_unique (right : list ResampledPoint) (w : Z) :
  NoDup (map rp_window_utc right) →
  (length (filter (λ p, rp_window_utc p = w) right) ≤ 1)%nat.
Proof.
  induction right as [|p right IH]; intros Hnd; [simpl; lia|].
  simpl in Hnd. apply NoDup_cons in Hnd as [Hnotin Hnd].
  rewrite filter_cons. destruct (decide (rp_window_utc p = w)) as [Hw | Hw]; [|by apply IH].
  assert (Hnone : filter (λ p, rp_window_utc p = w) right = []).
  { destruct (filter _ right) as [|q l] eqn:Hf; [done|]. exfalso.
    assert (Hq : q ∈ filter (λ p, rp_window_utc p = w) right)
      by (rewrite Hf; apply list_elem_of_here).
    apply list_elem_of_filter in Hq as [Hqw Hq]. apply Hnotin.
    rewrite Hw, <- Hqw. change (map ?f ?l) with (f <$> l).
    by apply list_elem_of_fmap_2. }
  rewrite Hnone. simpl. lia.
Qed.

Lemma merge_windows_NoDup (left : list T10Minute) (right : list ResampledPoint) :
  NoDup (map t_window_utc left) → NoDup (map rp_window_utc right) →
  NoDup (map j_window_utc (merge left right)).
Proof.
  intros Hl Hr. induction left as [|t left IH]; [constructor|].
  simpl in Hl. apply NoDup_cons in Hl as [Hnotin Hl].
  unfold merge. cbn [flat_map]. fold (merge left right).
  rewrite map_app. apply NoDup_app. split; [|split; [|by apply IH]].
  - pose proof (filter_key_unique right (t_window_utc t) Hr) as Hone.
    destruct (filter _ right) as [|p [|q l]]; simpl in *; try lia.
    + constructor.
    + apply NoDup_singleton.
  - intros w Hw Hw'.
    change (map ?f ?l) with (f <$> l) in Hw, Hw'.
    apply list_elem_of_fmap in Hw as (r & -> & Hr1).
    change (map ?f ?l) with (f <$> l) in Hr1.
    apply list_elem_of_fmap in Hr1 as (p & -> & _). cbn [join_row j_window_utc] in *.
    apply list_elem_of_fmap in Hw' as (r' & Heq & Hr').
    apply merge_elem in Hr' as (t' & p' & Ht' & _ & _ & ->).
    cbn [join_row j_window_utc] in Heq. apply Hnotin. rewrite Heq.
    change (map ?f ?l) with (f <$> l). by apply list_elem_of_fmap_2.
Qed.

(** What it takes for a joined row to pass [_apply_filters], and the row
    that is kept. *)
Lemma apply_filters_elem (df : list JoinedRow) (m : MinuteRow) :
  m ∈ _apply_filters df
  ↔ ∃ r, r ∈ df
      ∧ j_window_utc r = m_window_utc m ∧ j_t10_bpm r = m_t10_bpm m
      ∧ j_t10_points r = m_t10_points m ∧ j_scan_bpm r = Some (m_scan_bpm m)
      ∧ j_scan_coverage_s r = m_scan_coverage_s m
      ∧ (30 <= m_t10_bpm m)%Q ∧ (m_t10_bpm m <= 230)%Q
      ∧ (30 <= m_scan_bpm m)%Q ∧ (m_scan_bpm m <= 230)%Q
      ∧ 1 ≤ m_t10_points m.
Proof.
  unfold _apply_filters. rewrite list_elem_of_omap.
  unfold between, HR_VALID_RANGE, MIN_T10_POINTS. cbn [fst snd].
  split.
  - intros (r & Hr & Hf). exists r. split; [exact Hr|].
    destruct (j_scan_bpm r) as [scan|] eqn:Hscan.
    + destruct (Qle_bool 30 (j_t10_bpm r)) eqn:H1; [|discriminate].
      destruct (Qle_bool (j_t10_bpm r) 230) eqn:H2; [|discriminate].
      destruct (Qle_bool 30 scan) eqn:H3; [|discriminate].
      destruct (Qle_bool scan 230) eqn:H4; [|discriminate].
      case_bool_decide as H5; [|discriminate].
      simpl in Hf. injection Hf as <-. cbn.
      apply Qle_bool_iff in H1, H2, H3, H4.
      repeat split; try done. lia.
    + rewrite andb_false_r in Hf. simpl in Hf. discriminate.
  - intros (r & Hr & Hw & Ht & Hp & Hs & Hc & H1 & H2 & H3 & H4 & H5).
    exists r. split; [exact Hr|]. rewrite Hs, Ht, Hp.
    apply Qle_bool_iff in H1, H2, H3, H4. rewrite H1, H2, H3, H4.
    rewrite bool_decide_eq_true_2 by lia. simpl.
    f_equal. destruct m. cbn in *. by subst.
Qed.

Lemma apply_filters_windows_NoDup (df : list JoinedRow) :
  NoDup (map j_window_utc df) → NoDup (map m_window_utc (_apply_filters df)).
Proof.
  induction df as [|r df IH]; intros Hnd; [constructor|].
  simpl in Hnd. apply NoDup_cons in Hnd as [Hnotin Hnd].
  unfold _apply_filters. cbn [omap list_omap]. fold (_apply_filters df).
  match goal with |- context [match ?f with Some _ => _ | None => _ end] =>
    destruct f as [m|] eqn:Hf end; [|by apply IH].
  cbn [map]. apply NoDup_cons. split; [|by apply IH].
  intros Hin. apply Hnotin.
  assert (Hw : m_window_utc m = j_window_utc r).
  { destruct (_ && _); [|discriminate].
    destruct (j_scan_bpm r); [|discriminate]. by injection Hf as <-. }
  rewrite <- Hw. change (map ?f ?l) with (f <$> l) in Hin |- *.
  apply list_elem_of_fmap in Hin as (m' & -> & Hm').
  apply apply_filters_elem in Hm' as (r' & Hr' & <- & _).
  by apply list_elem_of_fmap_2.
Qed.

Lemma strict_windows_NoDup (l : list ResampledPoint) :
  StronglySorted window_lt l → NoDup (map rp_window_utc l).
Proof.
  induction 1 as [|p l Hs IH Hall]; [constructor|].
  cbn [map]. apply NoDup_cons. split; [|exact IH].
  intros Hin. change (map ?f ?l) with (f <$> l) in Hin.
  apply list_elem_of_fmap in Hin as (q & Heq & Hq).
  rewrite Forall_forall in Hall. specialize (Hall q Hq). unfold window_lt in Hall. lia.
Qed.

Global Instance pair_window_le_trans : Transitive pair_window_le.
Proof. intros a b c. unfold pair_window_le. lia. Qed.

Global Instance pair_window_le_total : Total pair_window_le.
Proof. intros a b. unfold pair_window_le. lia. Qed.

(** The annotated and featured row of a filtered row. *)
Definition pair_row (df_sleep : list SleepInterval) (df_sport : list SportInterval)
    (step : Z) (m : MinuteRow) : PairRow :=
  let r := annotate_row m
             (window_sleep_status (m_window_utc m) (m_window_utc m + step) df_sleep)
             (existsb (λ sp, _has_overlap (m_window_utc m) (m_window_utc m + step)
                               (sport_start_utc sp) (sport_end_utc sp)) df_sport) in
  {| pair := r; hour := dt_hour (window_utc r); dow := dt_dayofweek (window_utc r) |}.

Lemma build_pairs_unfold sw_raw t10_resampled df_sleep df_sport step mcs :
  build_pairs sw_raw t10_resampled df_sleep df_sport step mcs
  = merge_sort pair_window_le
      (map (pair_row df_sleep df_sport step)
           (_apply_filters
              (merge t10_resampled (resample_scanwatch_by_overlap sw_raw mcs step)))).
Proof.
  unfold build_pairs, _add_temporal_features.
  by rewrite annotate_context_map, map_map.
Qed.

(** X23. [build_pairs], from the loaded frames on: the pairs come in
    strictly increasing order of [window_utc] (one pair per bin) when the
    T10 frame has one row per bin; every pair joins a T10 row and a
    resampled ScanWatch point of the same bin, with both heart rates in
    [[30, 230]] and [t10_points >= 1]; its [hour] is in [[0, 24)] and its
    [dow] in [[0, 7)]; and every such joinable bin is among the pairs. *)
Theorem build_pairs_joined_filtered_sorted (sw_raw : list ScanRow)
    (t10_resampled : list T10Minute) (df_sleep : list SleepInterval)
    (df_sport : list SportInterval) (step mcs : Z) :
  NoDup (map t_window_utc t10_resampled) →
  let sw_resampled := resample_scanwatch_by_overlap sw_raw mcs step in
  let out := build_pairs sw_raw t10_resampled df_sleep df_sport step mcs in
  StronglySorted (λ a b, window_utc (pair a) < window_utc (pair b)) out
  ∧ (∀ r, r ∈ out →
       (∃ t p, t ∈ t10_resampled ∧ p ∈ sw_resampled
               ∧ t_window_utc t = window_utc (pair r)
               ∧ rp_window_utc p = window_utc (pair r)
               ∧ t10_bpm (pair r) = t_t10_bpm t
               ∧ t10_points (pair r) = t_t10_points t
               ∧ rp_scan_bpm p = Some (scan_bpm (pair r))
               ∧ scan_coverage_s (pair r) = rp_scan_coverage_s p)
       ∧ (30 <= t10_bpm (pair r))%Q ∧ (t10_bpm (pair r) <= 230)%Q
       ∧ (30 <= scan_bpm (pair r))%Q ∧ (scan_bpm (pair r) <= 230)%Q
       ∧ 1 ≤ t10_points (pair r)
       ∧ 0 ≤ hour r < 24 ∧ 0 ≤ dow r < 7)
  ∧ (∀ t p scan, t ∈ t10_resampled → p ∈ sw_resampled →
       rp_window_utc p = t_window_utc t → rp_scan_bpm p = Some scan →
       (30 <= t_t10_bpm t)%Q → (t_t10_bpm t <= 230)%Q →
       (30 <= scan)%Q → (scan <= 230)%Q → 1 ≤ t_t10_points t →
       ∃ r, r ∈ out ∧ window_utc (pair r) = t_window_utc t
            ∧ t10_bpm (pair r) = t_t10_bpm t ∧ scan_bpm (pair r) = scan).
Proof.
  intros Hnd sw_resampled out. unfold out. rewrite build_pairs_unfold.
  fold sw_resampled.
  set (filtered := _apply_filters (merge t10_resampled sw_resampled)).
  split; [|split].
  - apply (sorted_keys_strict (λ a, window_utc (pair a))).
    + apply (StronglySorted_merge_sort pair_window_le).
    + assert (Hp : map (λ a, window_utc (pair a))
                     (merge_sort pair_window_le
                        (map (pair_row df_sleep df_sport step) filtered))
                   ≡ₚ map (λ a, window_utc (pair a))
                        (map (pair_row df_sleep df_sport step) filtered)).
      { apply Permutation_map, merge_sort_Permutation. }
      rewrite Hp, map_map. cbn.
      apply apply_filters_windows_NoDup, merge_windows_NoDup; [exact Hnd|].
      apply strict_windows_NoDup. unfold sw_resampled.
      rewrite resample_unfold. apply build_result_sorted.
  - intros r Hr. rewrite merge_sort_Permutation in Hr.
    change (map ?f ?l) with (f <$> l) in Hr.
    apply list_elem_of_fmap in Hr as (m & -> & Hm).
    apply apply_filters_elem in Hm
      as (j & Hj & Hw & Ht & Hp & Hs & Hc & H1 & H2 & H3 & H4 & H5).
    apply merge_elem in Hj as (t & p & Ht' & Hp' & Hwp & ->).
    cbn in Hw, Ht, Hp, Hs, Hc. cbn.
    split; [exists t, p; repeat split; try done; congruence|].
    repeat split; try done.
    all: unfold dt_hour, dt_dayofweek;
      try (apply Z.mod_pos_bound; lia).
  - intros t p scan Ht Hp Hw Hs H1 H2 H3 H4 H5.
    set (m := {| m_window_utc := t_window_utc t; m_t10_bpm := t_t10_bpm t;
                 m_t10_points := t_t10_points t; m_scan_bpm := scan;
                 m_scan_coverage_s := rp_scan_coverage_s p |}).
    exists (pair_row df_sleep df_sport step m).
    split; [|done].
    rewrite merge_sort_Permutation.
    change (map ?f ?l) with (f <$> l). apply list_elem_of_fmap_2.
    apply apply_filters_elem. exists (join_row t p).
    split; [apply merge_elem; by exists t, p|]. cbn. by repeat split.
Qed.

Lemma sample_pairs :
  build_pairs ScanSample.scan_df T10Sample.minutes AnnotateSample.sleep_df
    AnnotateSample.sport_df ScanSample.one_minute 30
  = BuilderSample.pairs.
Proof. vm_compute. reflexivity. Qed.

Lemma build_pairs_joined_filtered_sorted_witness :
  StronglySorted (λ a b, window_utc (pair a) < window_utc (pair b)) BuilderSample.pairs.
Proof.
  destruct (build_pairs_joined_filtered_sorted ScanSample.scan_df T10Sample.minutes
              AnnotateSample.sleep_df AnnotateSample.sport_df ScanSample.one_minute 30)
    as (Hsorted & _ & _).
  - apply (bool_decide_unpack _). vm_compute. exact I.
  - rewrite sample_pairs in Hsorted. exact Hsorted.
Defined.

End PairBuilder.
